(** * MADRL: multi-aircraft collision-avoidance environment and rltools

    A shallow embedding of
      - [madrl_environments/cas/multi_aircraft.py] (geometry helpers, the
        in-place quicksort of intruders, [Aircraft], [MultiAircraftEnv]),
      - [rltools/nn.py] ([Model._hash_name2array], [Standardizer]),
      - [rltools/algos/dqn.py] ([DQN._pack_into_batch], the TD target of
        [DQN.step]),
    followed by the properties established about them.

    Conventions.  Python floats are modelled by the real numbers [R] (the
    stated properties are the exact-arithmetic ones), Python integers by
    [Z], Python lists and 1-D numpy arrays by [list], Python exceptions by
    the error monad [res].  Division [/] is Python 3 true division.  The
    arrays that [Standardizer.standardize] and [unstandardize] take and
    return hold [np_float] values: a real number, an infinity or NaN. *)

From Stdlib Require Import Reals Lra Lia ZArith String Sorted.
From stdpp Require Import base list strings sorting.

Open Scope Z_scope.
Open Scope R_scope.

(* ================================================================== *)
(** * Part I. The program                                              *)
(* ================================================================== *)

(** ** Python exceptions as an error monad

    [OutOfFuel] is not a Python exception: it marks a loop or recursion
    of the model that was given too small a bound. *)

Inductive exn : Type :=
  | IndexError
  | ValueError
  | AssertionError
  | AttributeError
  | OutOfFuel.

Inductive res (A : Type) : Type :=
  | Ret (a : A)
  | Raise (e : exn).
Arguments Ret {A} a.
Arguments Raise {A} e.

#[global] Instance res_ret : MRet res := fun A a => Ret a.
#[global] Instance res_bind : MBind res := fun A B f m =>
  match m with
  | Ret a => f a
  | Raise e => Raise e
  end.

Definition assert (b : bool) : res unit :=
  if b then Ret tt else Raise AssertionError.

(** [for x in xs: s = body(x, s)], stopping at the first exception. *)
Fixpoint for_each {A S : Type} (xs : list A) (body : A -> S -> res S) (s : S)
  : res S :=
  match xs with
  | [] => Ret s
  | x :: xs' => s' ← body x s; for_each xs' body s'
  end.

(** [[f(x) for x in xs]], stopping at the first exception. *)
Fixpoint map_res {A B : Type} (f : A -> res B) (xs : list A) : res (list B) :=
  match xs with
  | [] => Ret []
  | x :: xs' => y ← f x; ys ← map_res f xs'; Ret (y :: ys)
  end.

(** [range(lo, hi)] and [range(n)]. *)
Definition range2 (lo hi : Z) : list Z :=
  map (fun k => (lo + Z.of_nat k)%Z) (seq 0 (Z.to_nat (hi - lo))).
Definition range (n : Z) : list Z := range2 0 n.

(** ** Python list indexing

    [arr[i]] with Python's negative indices; an index outside
    [-len, len) raises [IndexError]. *)

Definition py_index {A : Type} (arr : list A) (i : Z) : res nat :=
  let n := Z.of_nat (length arr) in
  if (0 <=? i)%Z && (i <? n)%Z then Ret (Z.to_nat i)
  else if (- n <=? i)%Z && (i <? 0)%Z then Ret (Z.to_nat (n + i))
  else Raise IndexError.

Definition getitem {A : Type} (arr : list A) (i : Z) : res A :=
  k ← py_index arr i;
  match arr !! k with
  | Some x => Ret x
  | None => Raise IndexError
  end.

Definition setitem {A : Type} (arr : list A) (i : Z) (x : A) : res (list A) :=
  k ← py_index arr i; Ret (<[k:=x]> arr).

(** [arr[i], arr[j] = arr[j], arr[i]]: the right-hand side is evaluated
    first (left to right), then the two stores are made left to right. *)
Definition swap {A : Type} (arr : list A) (i j : Z) : res (list A) :=
  aj ← getitem arr j;
  ai ← getitem arr i;
  arr1 ← setitem arr i aj;
  setitem arr1 j ai.

(** ** Comparisons on reals as booleans *)

Definition Rltb (x y : R) : bool := if Rlt_dec x y then true else false.
Definition Rleb (x y : R) : bool := if Rle_dec x y then true else false.

(** ** 1-D numpy arithmetic with broadcasting

    Two 1-D operands combine elementwise when their lengths agree; an
    operand of length one is broadcast; anything else is a [ValueError]. *)

Definition np_binop {T : Type} (op : T -> T -> T) (a b : list T)
  : res (list T) :=
  if (length a =? length b)%nat then Ret (zip_with op a b)
  else match a, b with
       | [x], _ => Ret (map (op x) b)
       | _, [y] => Ret (map (fun x => op x y) a)
       | _, _ => Raise ValueError
       end.

(** A 2-D array (list of rows) against a [(1, D)] array [v]: the row
    vector is broadcast along the first axis. *)
Definition np_binop_rows {T : Type} (op : T -> T -> T) (m : list (list T))
    (v : list T) : res (list (list T)) :=
  map_res (fun row => np_binop op row v) m.

Definition sum_R (l : list R) : R := foldr Rplus 0 l.

(** [np.mean] of a 1-D array. *)
Definition np_mean (l : list R) : R := sum_R l / INR (length l).

(** ** Geometry helpers (multi_aircraft.py) *)

Module Geometry.

(** Python's float [%]: [x - floor(x / y) * y], the result takes the
    sign of the divisor. *)
Definition py_mod (x y : R) : R := x - IZR (Zfloor (x / y)) * y.

(** [math.atan2(y, x)]. *)
Definition atan2 (y x : R) : R :=
  if Rlt_dec 0 x then atan (y / x)
  else if Rlt_dec x 0 then
    (if Rle_dec 0 y then atan (y / x) + PI else atan (y / x) - PI)
  else if Rlt_dec 0 y then PI / 2
  else if Rlt_dec y 0 then - (PI / 2)
  else 0.

(** [def norm_angle(angle): return (angle + pi) % (2 * pi) - pi] *)
Definition norm_angle (angle : R) : R :=
  py_mod (angle + PI) (2 * PI) - PI.

End Geometry.
Export Geometry.

(** ** The quicksort of [sort_agents] (Lomuto partition), for any element
    type; [closer a b] stands for [closer(a, b, ref)] at the fixed
    reference agent. *)

Module Sort.
Section Sort.
Context {A : Type} (closer : A -> A -> bool).

(** The body of [for j in range(low, high)] on the state [(i, arr)]. *)
Definition partition_body (pivot : A) (j : Z) (s : Z * list A)
  : res (Z * list A) :=
  let '(i, arr) := s in
  aj ← getitem arr j;
  if closer aj pivot then
    let i := (i + 1)%Z in
    arr ← swap arr i j;
    Ret (i, arr)
  else Ret (i, arr).

Definition partition (arr : list A) (low high : Z) : res (Z * list A) :=
  let i := (low - 1)%Z in
  pivot ← getitem arr high;
  '(i, arr) ← for_each (range2 low high) (partition_body pivot) (i, arr);
  arr ← swap arr (i + 1)%Z high;
  Ret ((i + 1)%Z, arr).

(** [sort_agents(ref, arr, low, high)].  The recursion is not structural:
    [depth] bounds the nesting of the recursive calls, and running out
    of it is reported as [OutOfFuel] (the interpreter's own recursion
    limit is not modelled). *)
Fixpoint sort_agents (depth : nat) (arr : list A) (low high : Z)
  : res (list A) :=
  if (low <? high)%Z then
    match depth with
    | O => Raise OutOfFuel
    | S d =>
        '(parti, arr) ← partition arr low high;
        arr ← sort_agents d arr low (parti - 1)%Z;
        sort_agents d arr (parti + 1)%Z high
    end
  else Ret arr.

End Sort.
End Sort.

(** ** Module constants (multi_aircraft.py) *)

Definition MIN_AGENTS : Z := 10.
Definition MAX_AGENTS : Z := 60.
Definition DEST_THRESHOLD : R := 100.
Definition SENSING_RANGE : R := 1000.
Definition SENSOR_CAPACITY : Z := 4.
Definition NMAC_RANGE : R := 150.
Definition TERM_PAIRWISE_OBS : list R := [1; 1; 1; 1].
Definition ACTION_IND_ACC : Z := 0.
Definition ACTION_IND_TURN : Z := 1.
Definition ACTION_DIM : Z := 2.
Definition MIN_V : R := 15.
Definition MAX_V : R := 45.
Definition MAX_ACC : R := 5.
(** [np.deg2rad(10)] *)
Definition MAX_TURN_RATE : R := 10 * (PI / 180).
Definition DT : R := 1.
Definition MAX_TIME_STEPS : Z := 2000.
Definition INNER_RADIUS : R := 2000.
Definition OUTTER_RADIUS : R := 4000.
Definition AIRSPACE_WIDTH : R := 6000.

(** [np.clip(x, lo, hi)] *)
Definition np_clip (x lo hi : R) : R := Rmin (Rmax x lo) hi.

(** ** The global [random] module: a tape of samples of [random.random()]
    and a cursor into it. *)

Record RandomState : Type := { samples : nat -> R; cursor : nat }.

(** [random.uniform(a, b)] is [a + (b - a) * random.random()]. *)
Definition random_uniform (a b : R) (g : RandomState) : R * RandomState :=
  (a + (b - a) * samples g (cursor g),
   {| samples := samples g; cursor := S (cursor g) |}).

(** ** Aircraft and environment state *)

Record Aircraft : Type := {
  v : R;
  turn_rate : R;
  x : R;
  y : R;
  dest_x : R;
  dest_y : R;
  heading : R;
  dist_to_dest : R;
  init_dist_to_dest : R;
  prev_dist_to_dest : R;
  obs : list R
}.

(** The attributes of [MultiAircraftEnv].  [circle_radius] exists only
    once [reset] has drawn the circle scenario. *)
Record Env : Type := {
  t : Z;
  aircraft : list Aircraft;
  n_agents : Z;
  continuous_action_space : bool;
  constant_n_agents : bool;
  training_mode : string;
  sensor_mode : string;
  sensor_capacity : Z;
  max_time_steps : Z;
  one_hot : bool;
  render_option : bool;
  speed_noise : R;
  turn_rate_noise : R;
  position_noise : R;
  angle_noise : R;
  _reward_mech : string;
  rew_arrival : R;
  rew_closing : R;
  rew_nmac : R;
  rew_large_turnrate : R;
  circle_radius : option R
}.

Definition set_aircraft (env : Env) (acs : list Aircraft) : Env :=
  {| t := t env; aircraft := acs; n_agents := n_agents env;
     continuous_action_space := continuous_action_space env;
     constant_n_agents := constant_n_agents env;
     training_mode := training_mode env; sensor_mode := sensor_mode env;
     sensor_capacity := sensor_capacity env;
     max_time_steps := max_time_steps env; one_hot := one_hot env;
     render_option := render_option env; speed_noise := speed_noise env;
     turn_rate_noise := turn_rate_noise env;
     position_noise := position_noise env; angle_noise := angle_noise env;
     _reward_mech := _reward_mech env; rew_arrival := rew_arrival env;
     rew_closing := rew_closing env; rew_nmac := rew_nmac env;
     rew_large_turnrate := rew_large_turnrate env;
     circle_radius := circle_radius env |}.

Definition set_t (env : Env) (t' : Z) : Env :=
  {| t := t'; aircraft := aircraft env; n_agents := n_agents env;
     continuous_action_space := continuous_action_space env;
     constant_n_agents := constant_n_agents env;
     training_mode := training_mode env; sensor_mode := sensor_mode env;
     sensor_capacity := sensor_capacity env;
     max_time_steps := max_time_steps env; one_hot := one_hot env;
     render_option := render_option env; speed_noise := speed_noise env;
     turn_rate_noise := turn_rate_noise env;
     position_noise := position_noise env; angle_noise := angle_noise env;
     _reward_mech := _reward_mech env; rew_arrival := rew_arrival env;
     rew_closing := rew_closing env; rew_nmac := rew_nmac env;
     rew_large_turnrate := rew_large_turnrate env;
     circle_radius := circle_radius env |}.

Definition set_obs (a : Aircraft) (o : list R) : Aircraft :=
  {| v := v a; turn_rate := turn_rate a; x := x a; y := y a;
     dest_x := dest_x a; dest_y := dest_y a; heading := heading a;
     dist_to_dest := dist_to_dest a;
     init_dist_to_dest := init_dist_to_dest a;
     prev_dist_to_dest := prev_dist_to_dest a; obs := o |}.

(** ** Agents sorting helpers *)

Definition agent_dist (a b : Aircraft) : R :=
  sqrt ((x a - x b) ^ 2 + (y a - y b) ^ 2).

Definition closer (a b ref : Aircraft) : bool :=
  if Rleb (agent_dist a ref) (agent_dist b ref) then true else false.

(** ** Aircraft (the agent) *)

(** The angle of the destination with respect to the agent's heading,
    over [pi]: the fourth own-state entry of an observation. *)
Definition bearing_to_dest (a : Aircraft) : R :=
  norm_angle (atan2 (dest_y a - y a) (dest_x a - x a) - heading a) / PI.

(** [Aircraft.__init__(self, env)].  The three scenarios draw their
    positions from the global [random] module; any other
    [training_mode] leaves [self.x] unset, and reading it raises
    [AttributeError], as does reading [env.circle_radius] before a
    reset has set it. *)
Definition Aircraft_init (env : Env) (g : RandomState)
  : res (Aircraft * RandomState) :=
  let v0 := MIN_V in
  let turn_rate0 := 0 in
  '(x0, y0, dx, dy, g) ←
    (if String.eqb (training_mode env) "circle" then
       match circle_radius env with
       | None => Raise AttributeError
       | Some r =>
           let '(init_position_angle, g) := random_uniform (- PI) PI g in
           Ret (r * cos init_position_angle, r * sin init_position_angle,
                r * cos (init_position_angle + PI),
                r * sin (init_position_angle + PI), g)
       end
     else if String.eqb (training_mode env) "annulus" then
       let '(init_r, g) := random_uniform INNER_RADIUS OUTTER_RADIUS g in
       let '(dest_r, g) := random_uniform INNER_RADIUS OUTTER_RADIUS g in
       let '(init_position_angle, g) := random_uniform (- PI) PI g in
       Ret (init_r * cos init_position_angle,
            init_r * sin init_position_angle,
            dest_r * cos (init_position_angle + PI),
            dest_r * sin (init_position_angle + PI), g)
     else if String.eqb (training_mode env) "square" then
       let '(u1, g) := random_uniform 0 1 g in
       let '(u2, g) := random_uniform 0 1 g in
       let '(u3, g) := random_uniform 0 1 g in
       let '(u4, g) := random_uniform 0 1 g in
       Ret (AIRSPACE_WIDTH * u1, AIRSPACE_WIDTH * u2,
            AIRSPACE_WIDTH * u3, AIRSPACE_WIDTH * u4, g)
     else Raise AttributeError);
  let heading0 := norm_angle (atan2 (dy - y0) (dx - x0)) in
  let dist := sqrt ((dy - y0) ^ 2 + (dx - x0) ^ 2) in
  let obs0 :=
    [ (v0 - MIN_V) / MAX_V;
      turn_rate0 / MAX_TURN_RATE;
      dist / dist (* dist_to_dest / init_dist_to_dest *);
      norm_angle (atan2 (dy - y0) (dx - x0) - heading0) / PI ]
    ++ repeat 1 (Z.to_nat (4 * sensor_capacity env)) in
  _ ← assert (Z.of_nat (length obs0) =? 4 + 4 * sensor_capacity env)%Z;
  Ret ({| v := v0; turn_rate := turn_rate0; x := x0; y := y0;
          dest_x := dx; dest_y := dy; heading := heading0;
          dist_to_dest := dist; init_dist_to_dest := dist;
          prev_dist_to_dest := dist; obs := obs0 |}, g).

(** [Aircraft.apply_action(self, action)] *)
Definition apply_action (self : Aircraft) (action : list R) : res Aircraft :=
  a_acc ← getitem action ACTION_IND_ACC;
  let v' := np_clip (v self + MAX_ACC * a_acc * DT) MIN_V MAX_V in
  a_turn ← getitem action ACTION_IND_TURN;
  let turn_rate' := MAX_TURN_RATE * a_turn in
  let heading' := norm_angle (heading self + turn_rate' * DT) in
  let x' := x self + cos heading' * v' * DT in
  let y' := y self + sin heading' * v' * DT in
  let prev' := dist_to_dest self in
  let dist' := sqrt ((dest_y self - y') ^ 2 + (dest_x self - x') ^ 2) in
  Ret {| v := v'; turn_rate := turn_rate'; x := x'; y := y';
         dest_x := dest_x self; dest_y := dest_y self; heading := heading';
         dist_to_dest := dist'; init_dist_to_dest := init_dist_to_dest self;
         prev_dist_to_dest := prev'; obs := obs self |}.

(** [Aircraft.get_pairwise_obs(self, intruder)] *)
Definition get_pairwise_obs (self intruder : Aircraft) : list R :=
  let intruder_pos_angle := atan2 (y intruder - y self) (x intruder - x self) in
  [ agent_dist self intruder / SENSING_RANGE;
    norm_angle (intruder_pos_angle - heading self) / PI;
    norm_angle (heading intruder - heading self) / PI;
    v intruder / MAX_V ].

(** The own-state block that [get_observation] rewrites first. *)
Definition own_obs (self : Aircraft) : list R :=
  [ v self / MAX_V;
    turn_rate self / MAX_TURN_RATE;
    dist_to_dest self / init_dist_to_dest self;
    bearing_to_dest self ].

(** The intruders list: every aircraft of the environment at a distance
    in (0, SENSING_RANGE] from [self], in collection order. *)
Definition in_range (self agent : Aircraft) : bool :=
  Rltb 0 (agent_dist self agent) && Rleb (agent_dist self agent) SENSING_RANGE.

Definition intruders_of (env : Env) (self : Aircraft) : list Aircraft :=
  List.filter (in_range self) (aircraft env).

(** The loop body of [for i in range(sensor_capacity)] in 'closest' mode. *)
Definition closest_body (self : Aircraft) (intruders : list Aircraft)
    (i : Z) (o : list R) : res (list R) :=
  if (i <? Z.of_nat (length intruders))%Z then
    intr ← getitem intruders i;
    Ret (o ++ get_pairwise_obs self intr)
  else Ret (o ++ TERM_PAIRWISE_OBS).

(** [Aircraft.get_observation(self)]: the new value of [self.obs], which
    is also what is returned.  [self.obs] is the only attribute written. *)
Definition get_observation (env : Env) (self : Aircraft) : res (list R) :=
  let o := own_obs self in
  let intruders := intruders_of env self in
  o ← (if String.eqb (sensor_mode env) "sector" then Ret o
       else if String.eqb (sensor_mode env) "closest" then
         if (0 <? length intruders)%nat then
           intruders ← Sort.sort_agents (fun a b => closer a b self)
                         (length intruders) intruders 0
                         (Z.of_nat (length intruders) - 1)%Z;
           for_each (range (sensor_capacity env))
                    (closest_body self intruders) o
         else
           Ret (o ++ concat (replicate (Z.to_nat (sensor_capacity env))
                                       TERM_PAIRWISE_OBS))
       else Ret o);
  _ ← assert (Z.of_nat (length o) =? 4 + 4 * sensor_capacity env)%Z;
  Ret o.

(** [Aircraft.nmac(self)]: numpy fancy indexing of the observation at the
    intruder-distance positions [4 * (i + 1)]. *)
Definition nmac (env : Env) (self : Aircraft) : res bool :=
  let intruder_dist_ind :=
    map (fun i => (4 * (i + 1))%Z) (range (sensor_capacity env)) in
  ds ← map_res (getitem (obs self)) intruder_dist_ind;
  Ret (existsb (fun d => Rltb d (NMAC_RANGE / SENSING_RANGE)) ds).

(** [Aircraft.arrival(self)] *)
Definition arrival (self : Aircraft) : bool :=
  if Rltb (dist_to_dest self) DEST_THRESHOLD then true else false.

(** [Aircraft.reward(self)] *)
Definition reward (env : Env) (self : Aircraft) : res R :=
  let reward := 0 in
  let reward :=
    if arrival self then reward + rew_arrival env
    else reward + rew_closing env
                  * (prev_dist_to_dest self - dist_to_dest self) in
  nm ← nmac env self;
  let reward := if (nm : bool) then reward + rew_nmac env else reward in
  let reward :=
    if Rltb (0.7 * MAX_TURN_RATE) (Rabs (turn_rate self))
    then reward + rew_large_turnrate env * Rabs (turn_rate self)
    else reward in
  Ret reward.

(** ** MultiAircraftEnv *)

(** The keyword arguments of [MultiAircraftEnv.__init__]. *)
Record InitArgs : Type := {
  arg_continuous_action_space : bool;
  arg_n_agents : Z;
  arg_constant_n_agents : bool;
  arg_training_mode : string;
  arg_sensor_mode : string;
  arg_sensor_capacity : Z;
  arg_max_time_steps : Z;
  arg_one_hot : bool;
  arg_render_option : bool;
  arg_speed_noise : R;
  arg_turn_rate_noise : R;
  arg_position_noise : R;
  arg_angle_noise : R;
  arg_reward_mech : string;
  arg_rew_arrival : R;
  arg_rew_closing : R;
  arg_rew_nmac : R;
  arg_rew_large_turnrate : R
}.

(** Their default values. *)
Definition default_args : InitArgs := {|
  arg_continuous_action_space := true;
  arg_n_agents := MIN_AGENTS;
  arg_constant_n_agents := false;
  arg_training_mode := "circle";
  arg_sensor_mode := "closest";
  arg_sensor_capacity := SENSOR_CAPACITY;
  arg_max_time_steps := MAX_TIME_STEPS;
  arg_one_hot := false;
  arg_render_option := false;
  arg_speed_noise := 1e-3;
  arg_turn_rate_noise := 1e-3;
  arg_position_noise := 1e-3;
  arg_angle_noise := 1e-3;
  arg_reward_mech := "local";
  arg_rew_arrival := 15;
  arg_rew_closing := 2.5;
  arg_rew_nmac := -15;
  arg_rew_large_turnrate := -0.1
|}.

(** [MultiAircraftEnv.__init__]; the final [self.seed()] only creates the
    environment's private generator, which nothing else reads. *)
Definition MultiAircraftEnv_init (a : InitArgs) : Env := {|
  t := 0;
  aircraft := [];
  n_agents := arg_n_agents a;
  continuous_action_space := arg_continuous_action_space a;
  constant_n_agents := arg_constant_n_agents a;
  training_mode := arg_training_mode a;
  sensor_mode := arg_sensor_mode a;
  sensor_capacity := arg_sensor_capacity a;
  max_time_steps := arg_max_time_steps a;
  one_hot := arg_one_hot a;
  render_option := arg_render_option a;
  (* Observation noises: *)
  speed_noise := 1e-3;
  turn_rate_noise := 1e-3;
  position_noise := 1e-3;
  angle_noise := 1e-3;
  (* Reward settings: *)
  _reward_mech := arg_reward_mech a;
  rew_arrival := arg_rew_arrival a;
  rew_closing := arg_rew_closing a;
  rew_nmac := arg_rew_nmac a;
  rew_large_turnrate := arg_rew_large_turnrate a;
  circle_radius := None
|}.

(** [del arr[i]] *)
Definition delitem {A : Type} (arr : list A) (i : Z) : res (list A) :=
  k ← py_index arr i; Ret (delete k arr).

(** [arr.insert(i, x)]: never raises, the position is clamped. *)
Definition list_insert_at {A : Type} (arr : list A) (i : Z) (a : A) : list A :=
  let n := Z.of_nat (length arr) in
  let k := if (i <? 0)%Z then Z.max 0 (n + i) else Z.min i n in
  take (Z.to_nat k) arr ++ a :: drop (Z.to_nat k) arr.

(** The body of [for i in range(len(self.aircraft))] when the population
    is held constant; the state is the collection and the [random]
    module. *)
Definition replace_body (env : Env) (i : Z)
    (s : list Aircraft * RandomState) : res (list Aircraft * RandomState) :=
  let '(acs, g) := s in
  a ← getitem acs i;
  if arrival a then
    acs ← delitem acs i;
    '(fresh, g) ← Aircraft_init (set_aircraft env acs) g;
    Ret (list_insert_at acs i fresh, g)
  else Ret (acs, g).

(** The [while i < len(self.aircraft)] loop of the other branch.  Each
    iteration increments [i], so [fuel] iterations are enough when
    [fuel] is the length of the collection on entry. *)
Fixpoint remove_loop (fuel : nat) (i : Z) (acs : list Aircraft)
  : res (list Aircraft) :=
  if (i <? Z.of_nat (length acs))%Z then
    match fuel with
    | O => Raise OutOfFuel
    | S f =>
        a ← getitem acs i;
        acs ← (if arrival a then delitem acs i else Ret acs);
        remove_loop f (i + 1)%Z acs
    end
  else Ret acs.

(** [MultiAircraftEnv.n_agents_control(self)] *)
Definition n_agents_control (env : Env) (g : RandomState)
  : res (Env * RandomState) :=
  if constant_n_agents env then
    '(acs, g) ← for_each (range (Z.of_nat (length (aircraft env))))
                         (replace_body env) (aircraft env, g);
    Ret (set_aircraft env acs, g)
  else
    let i := 0%Z in
    acs ← remove_loop (length (aircraft env)) i (aircraft env);
    Ret (set_aircraft env acs, g).

(** [np.reshape(a, (rows, cols))] of a flat array. *)
Fixpoint chunks (rows cols : nat) (a : list R) : list (list R) :=
  match rows with
  | O => []
  | S r => take cols a :: chunks r cols (drop cols a)
  end.

Definition np_reshape (a : list R) (rows cols : Z) : res (list (list R)) :=
  if (Z.of_nat (length a) =? rows * cols)%Z
     && (0 <=? rows)%Z && (0 <=? cols)%Z
  then Ret (chunks (Z.to_nat rows) (Z.to_nat cols) a)
  else Raise ValueError.

(** What [render] reads before plotting: the intruder slots of every
    aircraft's observation and, in the circle scenario, the circle
    radius.  The drawing itself is not modelled. *)
Definition render (env : Env) : res unit :=
  _ ← for_each (aircraft env)
        (fun ac (_ : unit) =>
           for_each (range (sensor_capacity env))
             (fun i (_ : unit) =>
                d ← getitem (obs ac) (4 + i * 4)%Z;
                if Rltb d 1 then
                  _ ← getitem (obs ac) (4 + i * 4 + 1)%Z; Ret tt
                else Ret tt) tt) tt;
  if String.eqb (training_mode env) "circle" then
    match circle_radius env with
    | Some _ => Ret tt
    | None => Raise AttributeError
    end
  else Ret tt.

(** The value returned by [step], without the empty info dictionary. *)
Record StepResult : Type := {
  step_obs : list (list R);
  step_rewards : list R;
  step_done : bool
}.

(** [MultiAircraftEnv.step(self, actions)] on a flat action array. *)
Definition step (env : Env) (actions : list R) : res (StepResult * Env) :=
  let n := n_agents env in
  (* rewards = np.zeros(self.n_agents) *)
  _ ← (if (n <? 0)%Z then Raise ValueError else Ret tt);
  let rewards := repeat 0 (Z.to_nat n) in
  (* Apply actions and update dynamics *)
  act_vec ← np_reshape actions n ACTION_DIM;
  acs ← for_each (range n)
          (fun i acs =>
             a ← getitem acs i;
             act ← getitem act_vec i;
             a' ← apply_action a act;
             setitem acs i a')
          (aircraft env);
  (* Check if episode is done *)
  let done := (Z.of_nat (length acs) =? 0)%Z || (t env >? MAX_TIME_STEPS)%Z in
  (* Get obs (list of arrays) *)
  '(acs, obs) ← for_each (range n)
          (fun i '(acs, obs) =>
             a ← getitem acs i;
             agent_obs ← get_observation (set_aircraft env acs) a;
             acs ← setitem acs i (set_obs a agent_obs);
             Ret (acs, obs ++ [agent_obs]))
          (acs, []);
  let env := set_aircraft env acs in
  _ ← (if render_option env then render env else Ret tt);
  (* Get rewards *)
  rewards ← for_each (range n)
          (fun i rewards =>
             a ← getitem acs i;
             r ← reward env a;
             setitem rewards i r)
          rewards;
  (* Increment time step *)
  let env := set_t env (t env + 1)%Z in
  if String.eqb (_reward_mech env) "local" then
    Ret ({| step_obs := obs; step_rewards := rewards; step_done := done |},
         env)
  else
    Ret ({| step_obs := obs;
            step_rewards := repeat (np_mean rewards) (Z.to_nat n);
            step_done := done |}, env).

(** ** rltools/nn.py: the checkpoint content hash *)

Module Model.
Section Hash.
(** Variable values are numpy arrays.  [fingerprint a] stands for
    ['%.10f,%.10f,%d' % (np.mean(a), np.var(a), np.argmax(a))] on a
    non-empty array and [sha1_hexdigest s] for
    [hashlib.sha1(s.encode('utf-8')).hexdigest()]; both belong to
    libraries outside the repository and are left abstract. *)
Context {ndarray : Type}.
Variable fingerprint : ndarray -> string.
Variable sha1_hexdigest : string -> string.

(** Python's order on pairs of strings. *)
Definition pair_leb (p q : string * string) : bool :=
  match String.compare p.1 q.1 with
  | Lt => true
  | Gt => false
  | Eq => String.leb p.2 q.2
  end.

Fixpoint insert_sorted (p : string * string) (l : list (string * string))
  : list (string * string) :=
  match l with
  | [] => [p]
  | q :: l' => if pair_leb p q then p :: l else q :: insert_sorted p l'
  end.

(** [sorted(l)] (stable). *)
Definition sorted (l : list (string * string)) : list (string * string) :=
  foldr insert_sorted [] l.

(** [def hash_array(a)] *)
Definition hash_array (a : ndarray) : string := fingerprint a.

(** [Model._hash_name2array(name2array)].  The generator handed to
    ['|'.join] is ['%s %s' for n, h in sorted(...)]: each pair
    contributes the format string itself. *)
Definition _hash_name2array (name2array : list (string * ndarray)) : string :=
  sha1_hexdigest
    (String.concat "|"
       (map (fun '(n, h) => "%s %s")
            (sorted (map (fun '(name, a) => (name, hash_array a))
                         name2array)))).

(** [Model.savehash(sess)], on the model's variables paired with the
    values the session holds for them. *)
Definition savehash (vars_vals : list (string * ndarray)) : string :=
  _hash_name2array vars_vals.

End Hash.
End Model.

(** ** rltools/nn.py: Standardizer *)

(** A 2-D numpy array: its second dimension and its rows. *)
Record ndarray2 : Type := { shape1 : nat; rows : list (list R) }.

Definition wf_ndarray2 (a : ndarray2) : Prop :=
  Forall (fun r => length r = shape1 a) (rows a).

(** The broadcast of two trailing dimensions. *)
Definition broadcast_dim (a b : nat) : res nat :=
  if (a =? b)%nat then Ret a
  else if (a =? 1)%nat then Ret b
  else if (b =? 1)%nat then Ret a
  else Raise ValueError.

(** *** Float values that need not be finite

    The standardizer takes a square root and divides, so its arrays can
    hold the values IEEE arithmetic adds to the numbers: the two
    infinities and NaN.  A finite value is a real number (rounding is
    left out, and zero is the positive zero). *)
Inductive np_float : Type :=
  | Finite (r : R)
  | PInf
  | NInf
  | NaN.

(** The infinity of the given sign. *)
Definition inf_of_sign (negative : bool) : np_float :=
  if negative then NInf else PInf.

Definition f_neg (x : np_float) : np_float :=
  match x with
  | Finite a => Finite (- a)
  | PInf => NInf
  | NInf => PInf
  | NaN => NaN
  end.

Definition f_add (x y : np_float) : np_float :=
  match x, y with
  | NaN, _ | _, NaN => NaN
  | Finite a, Finite b => Finite (a + b)
  | PInf, NInf | NInf, PInf => NaN
  | PInf, _ | _, PInf => PInf
  | NInf, _ | _, NInf => NInf
  end.

Definition f_sub (x y : np_float) : np_float :=
  match x, y with
  | Finite a, Finite b => Finite (a - b)
  | _, _ => f_add x (f_neg y)
  end.

Definition f_mul (x y : np_float) : np_float :=
  match x, y with
  | NaN, _ | _, NaN => NaN
  | Finite a, Finite b => Finite (a * b)
  | Finite a, PInf | PInf, Finite a =>
      if Req_dec_T a 0 then NaN else inf_of_sign (Rltb a 0)
  | Finite a, NInf | NInf, Finite a =>
      if Req_dec_T a 0 then NaN else inf_of_sign (negb (Rltb a 0))
  | PInf, PInf | NInf, NInf => PInf
  | PInf, NInf | NInf, PInf => NInf
  end.

(** Division; a finite number over zero is an infinity, zero over zero
    is NaN (numpy warns and goes on). *)
Definition f_div (x y : np_float) : np_float :=
  match x, y with
  | NaN, _ | _, NaN => NaN
  | Finite a, Finite b =>
      if Req_dec_T b 0 then
        if Req_dec_T a 0 then NaN else inf_of_sign (Rltb a 0)
      else Finite (a / b)
  | Finite _, (PInf | NInf) => Finite 0
  | (PInf | NInf), (PInf | NInf) => NaN
  | PInf, Finite b => inf_of_sign (Rltb b 0)
  | NInf, Finite b => inf_of_sign (negb (Rltb b 0))
  end.

(** [sqrt]: NaN on a negative number. *)
Definition f_sqrt (x : np_float) : np_float :=
  match x with
  | Finite a => if Rltb a 0 then NaN else Finite (sqrt a)
  | PInf => PInf
  | NInf | NaN => NaN
  end.

(** A 2-D array of such values: what [standardize] and [unstandardize]
    take and return. *)
Record fndarray2 : Type := { fshape1 : nat; frows : list (list np_float) }.

(** An array of numbers as an array of float values. *)
Definition of_reals (a : ndarray2) : fndarray2 :=
  {| fshape1 := shape1 a; frows := map (map Finite) (rows a) |}.

(** A [(B, D)] array against a [(1, D')] array. *)
Definition np_binop2 (op : np_float -> np_float -> np_float) (m : fndarray2)
    (v : list np_float) : res fndarray2 :=
  d ← broadcast_dim (fshape1 m) (length v);
  rs ← np_binop_rows op (frows m) v;
  Ret {| fshape1 := d; frows := rs |}.

(** A [(B, D)] array against a Python scalar. *)
Definition np_scalar2 (op : np_float -> np_float -> np_float) (m : fndarray2)
    (c : np_float) : fndarray2 :=
  {| fshape1 := fshape1 m; frows := map (map (fun e => op e c)) (frows m) |}.

Module Standardizer.

Record Standardizer : Type := {
  _eps : R;
  _dim : nat;
  _count : R;
  _mean_1_D : list R;
  _meansq_1_D : list R
}.

(** [Standardizer.__init__]: the three variables are filled with their
    initial constants. *)
Definition init (dim : nat) (eps init_count init_mean init_meansq : R)
  : Standardizer :=
  {| _eps := eps; _dim := dim; _count := init_count;
     _mean_1_D := repeat init_mean dim;
     _meansq_1_D := repeat init_meansq dim |}.

(** [tf.sqrt(meansq - tf.square(mean) + eps)]: NaN in every coordinate
    where the mean square plus [eps] is below the square of the mean. *)
Definition _stdev_1_D (st : Standardizer) : list np_float :=
  zip_with (fun ms m => f_sqrt (Finite (ms - m ^ 2 + _eps st)))
           (_meansq_1_D st) (_mean_1_D st).

Definition get_mean (st : Standardizer) : list R := _mean_1_D st.
Definition get_meansq (st : Standardizer) : list R := _meansq_1_D st.
Definition get_stdev (st : Standardizer) : list np_float := _stdev_1_D st.
Definition get_count (st : Standardizer) : R := _count st.

(** [points.mean(axis=0, keepdims=True)] after applying [f] to every
    entry. *)
Definition col_mean (f : R -> R) (pts : ndarray2) : list R :=
  map (fun j => np_mean (map (fun r => f (nth j r 0)) (rows pts)))
      (seq 0 (shape1 pts)).

(** [Standardizer.update(sess, points_N_D)] *)
Definition update (st : Standardizer) (points_N_D : ndarray2)
  : res Standardizer :=
  _ ← assert (shape1 points_N_D =? _dim st)%nat;
  let num := INR (length (rows points_N_D)) in
  let count := get_count st in
  let a := count / (count + num) in
  mean ← np_binop (fun m bm => a * m + (1 - a) * bm)
           (get_mean st) (col_mean (fun e => e) points_N_D);
  meansq ← np_binop (fun m bm => a * m + (1 - a) * bm)
           (get_meansq st) (col_mean (fun e => e ^ 2) points_N_D);
  Ret {| _eps := _eps st; _dim := _dim st; _count := count + num;
         _mean_1_D := mean; _meansq_1_D := meansq |}.

(** [Standardizer.standardize(sess, x_B_D, centered)] *)
Definition standardize (st : Standardizer) (x_B_D : fndarray2)
    (centered : bool) : res fndarray2 :=
  let denom := map (fun s => f_add s (Finite (_eps st))) (get_stdev st) in
  num ← (if centered then np_binop2 f_sub x_B_D (map Finite (get_mean st))
         else Ret (np_scalar2 f_sub x_B_D (Finite 0)));
  np_binop2 f_div num denom.

(** [Standardizer.unstandardize(sess, y_B_D, centered)] *)
Definition unstandardize (st : Standardizer) (y_B_D : fndarray2)
    (centered : bool) : res fndarray2 :=
  let factor := map (fun s => f_add s (Finite (_eps st))) (get_stdev st) in
  prod ← np_binop2 f_mul y_B_D factor;
  if centered then np_binop2 f_add prod (map Finite (get_mean st))
  else Ret (np_scalar2 f_add prod (Finite 0)).

(** The states a program can hold: a constructed standardizer, updated
    any number of times. *)
Inductive reachable : Standardizer -> Prop :=
  | reachable_init dim eps init_count init_mean init_meansq :
      reachable (init dim eps init_count init_mean init_meansq)
  | reachable_update st pts st' :
      reachable st -> update st pts = Ret st' -> reachable st'.

End Standardizer.

(** ** rltools/algos/dqn.py *)

Module DQN.

(** A replay-memory entry [(obs, action, reward, succ_obs, int(done))];
    the first four hold one item per agent. *)
Record Transition : Type := {
  tr_obs : list (list R);
  tr_action : list R;
  tr_reward : list R;
  tr_succ_obs : list (list R);
  tr_done : Z
}.

(** The five arrays built by [_pack_into_batch]. *)
Record Batch : Type := {
  obs_B_Do : list (list R);
  actions_B_Da : list (list R);
  rewards_B : list R;
  succ_obs_B_Do : list (list R);
  done_B : list R
}.

(** [arr[k, :] = value] on a row of width [width]: a value of that
    width is stored, a value of width one is broadcast. *)
Definition assign_row (arr : list (list R)) (k : Z) (width : nat)
    (value : list R) : res (list (list R)) :=
  row ← (if (length value =? width)%nat then Ret value
         else match value with
              | [c] => Ret (repeat c width)
              | _ => Raise ValueError
              end);
  setitem arr k row.

Section Algo.
(** The target network, the feature map and the configuration of the
    algorithm object. *)
Context {feat qactions : Type}.
Variable target_compute_qactions : Z -> feat -> qactions.
Variable target_compute_qvals : feat -> qactions -> list R.
Variable obsfeat_fn : list (list R) -> feat.
Variable env_n_agents : Z.
Variable obs_dim : nat.
Variable batch_size : Z.
Variable discount : R.

(** The body of the inner loop of [_pack_into_batch]. *)
Definition pack_body (i : Z) (tr : Transition) (i_a : Z) (b : Batch)
  : res Batch :=
  let k := (i * env_n_agents + i_a)%Z in
  o ← getitem (tr_obs tr) i_a;
  obs' ← assign_row (obs_B_Do b) k obs_dim o;
  a ← getitem (tr_action tr) i_a;
  act' ← assign_row (actions_B_Da b) k 1 [a];
  r ← getitem (tr_reward tr) i_a;
  rew' ← setitem (rewards_B b) k r;
  so ← getitem (tr_succ_obs tr) i_a;
  succ' ← assign_row (succ_obs_B_Do b) k obs_dim so;
  done' ← setitem (done_B b) k (IZR (tr_done tr));
  Ret {| obs_B_Do := obs'; actions_B_Da := act'; rewards_B := rew';
         succ_obs_B_Do := succ'; done_B := done' |}.

(** [enumerate(transitions)] *)
Definition enumerate {T : Type} (l : list T) : list (Z * T) :=
  imap (fun i tr => (Z.of_nat i, tr)) l.

(** [DQN._pack_into_batch(self, transitions)] *)
Definition _pack_into_batch (transitions : list Transition) : res Batch :=
  let num := (Z.of_nat (length transitions) * env_n_agents)%Z in
  _ ← (if (num <? 0)%Z then Raise ValueError else Ret tt);
  let n := Z.to_nat num in
  let b := {| obs_B_Do := repeat (repeat 0 obs_dim) n;
              actions_B_Da := repeat [0] n;
              rewards_B := repeat 0 n;
              succ_obs_B_Do := repeat (repeat 0 obs_dim) n;
              done_B := repeat 0 n |} in
  for_each (enumerate transitions)
    (fun '(i, tr) b => for_each (range env_n_agents) (pack_body i tr) b) b.

(** The TD targets of [DQN.step]:
    [batch_rewards_B + self.discount * batch_done_B * compute_qvals(...)],
    the successor actions being chosen by the target network.  The
    Q-values come back as a 1-D array. *)
Definition qtargets (b : Batch) : res (list R) :=
  let batch_succ_target_actions_B_Da :=
    target_compute_qactions batch_size (obsfeat_fn (succ_obs_B_Do b)) in
  let qvals :=
    target_compute_qvals (obsfeat_fn (succ_obs_B_Do b))
                         batch_succ_target_actions_B_Da in
  let discounted_done := map (fun d => discount * d) (done_B b) in
  bootstrap ← np_binop Rmult discounted_done qvals;
  np_binop Rplus (rewards_B b) bootstrap.

(** The Q-values the target network gives to the successor observations
    of a batch, at the actions it selects itself. *)
Definition target_qvals (b : Batch) : list R :=
  target_compute_qvals (obsfeat_fn (succ_obs_B_Do b))
    (target_compute_qactions batch_size (obsfeat_fn (succ_obs_B_Do b))).

(** Packing the sampled transitions and computing their targets. *)
Definition batch_qtargets (transitions_B : list Transition) : res (list R) :=
  b ← _pack_into_batch transitions_B;
  qtargets b.

End Algo.
End DQN.

(** ** multi_aircraft.py: [reset] *)

Definition TRAINING_SCENARIOS : list string := ["circle"; "annulus"; "square"].
Definition MIN_CIRCLE_RADIUS : Z := 3000.
Definition MAX_CIRCLE_RADIUS : Z := 4000.

(** [int(r)]: truncation towards zero. *)
Definition py_int (r : R) : Z := if Rle_dec 0 r then Zfloor r else Zceil r.

(** [random.choice(seq)]: [seq[int(random.random() * len(seq))]] (the
    index computation of CPython 2.7; CPython 3 draws the index by
    another route, and returns [seq[i]] for an [i] in range as well). *)
Definition random_choice {A : Type} (seq : list A) (g : RandomState)
  : res (A * RandomState) :=
  let u := samples g (cursor g) in
  let g := {| samples := samples g; cursor := S (cursor g) |} in
  a ← getitem seq (py_int (u * INR (length seq)));
  Ret (a, g).

Definition set_training_mode (env : Env) (mode : string) : Env :=
  {| t := t env; aircraft := aircraft env; n_agents := n_agents env;
     continuous_action_space := continuous_action_space env;
     constant_n_agents := constant_n_agents env;
     training_mode := mode; sensor_mode := sensor_mode env;
     sensor_capacity := sensor_capacity env;
     max_time_steps := max_time_steps env; one_hot := one_hot env;
     render_option := render_option env; speed_noise := speed_noise env;
     turn_rate_noise := turn_rate_noise env;
     position_noise := position_noise env; angle_noise := angle_noise env;
     _reward_mech := _reward_mech env; rew_arrival := rew_arrival env;
     rew_closing := rew_closing env; rew_nmac := rew_nmac env;
     rew_large_turnrate := rew_large_turnrate env;
     circle_radius := circle_radius env |}.

Definition set_circle_radius (env : Env) (r : R) : Env :=
  {| t := t env; aircraft := aircraft env; n_agents := n_agents env;
     continuous_action_space := continuous_action_space env;
     constant_n_agents := constant_n_agents env;
     training_mode := training_mode env; sensor_mode := sensor_mode env;
     sensor_capacity := sensor_capacity env;
     max_time_steps := max_time_steps env; one_hot := one_hot env;
     render_option := render_option env; speed_noise := speed_noise env;
     turn_rate_noise := turn_rate_noise env;
     position_noise := position_noise env; angle_noise := angle_noise env;
     _reward_mech := _reward_mech env; rew_arrival := rew_arrival env;
     rew_closing := rew_closing env; rew_nmac := rew_nmac env;
     rew_large_turnrate := rew_large_turnrate env;
     circle_radius := Some r |}.

(** The body of [for _ in range(self.n_agents)] in [reset]:
    [self.aircraft.append(Aircraft(self))]. *)
Definition populate_body (env : Env) (_ : Z)
    (s : list Aircraft * RandomState) : res (list Aircraft * RandomState) :=
  let '(acs, g) := s in
  '(a, g) ← Aircraft_init (set_aircraft env acs) g;
  Ret (acs ++ [a], g).

(** [MultiAircraftEnv.reset(self)]: the observations returned, the
    environment and the [random] module afterwards. *)
Definition reset (env : Env) (g : RandomState)
  : res (list (list R) * Env * RandomState) :=
  let env := set_aircraft env [] in
  '(mode, g) ← random_choice TRAINING_SCENARIOS g;
  let env := set_training_mode env mode in
  '(env, g) ← (if String.eqb (training_mode env) "circle" then
                 '(r, g) ← random_choice
                             (range2 MIN_CIRCLE_RADIUS MAX_CIRCLE_RADIUS) g;
                 Ret (set_circle_radius env (IZR r), g)
               else Ret (env, g));
  '(acs, g) ← for_each (range (n_agents env)) (populate_body env) ([], g);
  let env := set_aircraft env acs in
  (* Return an obs with zero actions *)
  '(r, env) ← step env (repeat 0 (Z.to_nat (2 * n_agents env)));
  Ret (step_obs r, env, g).

(** ** dqn.py: the replay memory and the exploration schedule *)

(** Exceptions raised by the code below. *)
Inductive py_error : Type :=
  | ZeroDivisionError
  | TypeError
  | KeyError
  | RuntimeError
  | NotImplementedError.

Inductive outcome (A : Type) : Type :=
  | Returns (a : A)
  | Raises (e : py_error).
Arguments Returns {A} a.
Arguments Raises {A} e.

Module Replay.

(** [l[start:]]: a negative [start] counts from the end, and the bound
    is clamped to the list. *)
Definition py_slice_from {A : Type} (l : list A) (start : Z) : list A :=
  let n := Z.of_nat (length l) in
  let s := if (start <? 0)%Z then Z.max (n + start) 0 else Z.min start n in
  drop (Z.to_nat s) l.

(** In [DQN.step]:
    [self.memory.append(entry)] and then
    [self.memory = self.memory[-self.max_experience_size:]]. *)
Definition remember {A : Type} (memory : list A) (entry : A)
    (max_experience_size : Z) : list A :=
  py_slice_from (memory ++ [entry]) (- max_experience_size).

(** The value assigned to [self.eps] at the end of iteration [itr] of
    [DQN.train]; the division is a float division. *)
Definition update_eps (eps_end eps_fraction : R) (n_iter itr : Z)
  : outcome R :=
  if Rltb (IZR itr) (eps_fraction * IZR n_iter) then
    if Req_dec_T (eps_fraction * IZR n_iter) 0 then Raises ZeroDivisionError
    else Returns (1 - (1 - eps_end) / (eps_fraction * IZR n_iter) * IZR itr)
  else Returns eps_end.

End Replay.

(** ** Auxiliary definitions: closed forms and sample inputs used in Part II *)

(** The same arguments with other values for the four noise arguments. *)
Definition with_noise (a : InitArgs) (sn tn pn an : R) : InitArgs := {|
  arg_continuous_action_space := arg_continuous_action_space a;
  arg_n_agents := arg_n_agents a;
  arg_constant_n_agents := arg_constant_n_agents a;
  arg_training_mode := arg_training_mode a;
  arg_sensor_mode := arg_sensor_mode a;
  arg_sensor_capacity := arg_sensor_capacity a;
  arg_max_time_steps := arg_max_time_steps a;
  arg_one_hot := arg_one_hot a;
  arg_render_option := arg_render_option a;
  arg_speed_noise := sn;
  arg_turn_rate_noise := tn;
  arg_position_noise := pn;
  arg_angle_noise := an;
  arg_reward_mech := arg_reward_mech a;
  arg_rew_arrival := arg_rew_arrival a;
  arg_rew_closing := arg_rew_closing a;
  arg_rew_nmac := arg_rew_nmac a;
  arg_rew_large_turnrate := arg_rew_large_turnrate a
|}.

(** An aircraft 990 m from its destination, 1000 m one step earlier. *)
Definition sample_aircraft : Aircraft :=
  {| v := 44; turn_rate := 0; x := 0; y := 0; dest_x := 1000; dest_y := 0;
     heading := 0; dist_to_dest := 990; init_dist_to_dest := 3000;
     prev_dist_to_dest := 1000; obs := [0; 0; 0; 0] |}.

(** The three summands of [reward]. *)
Definition arrival_or_closing_term (env : Env) (self : Aircraft) : R :=
  if arrival self then rew_arrival env
  else rew_closing env * (prev_dist_to_dest self - dist_to_dest self).

Definition nmac_term (env : Env) (nm : bool) : R :=
  if nm then rew_nmac env else 0.

Definition turn_rate_term (env : Env) (self : Aircraft) : R :=
  if Rltb (0.7 * MAX_TURN_RATE) (Rabs (turn_rate self))
  then rew_large_turnrate env * Rabs (turn_rate self)
  else 0.

(** The default environment holding that aircraft. *)
Definition sample_env : Env :=
  set_aircraft (MultiAircraftEnv_init default_args) [sample_aircraft].

(** The same aircraft with an observation whose four intruder slots hold
    the sentinel block. *)
Definition sample_observed : Aircraft :=
  set_obs sample_aircraft
    ([0; 0; 0; 0] ++ concat (replicate 4 TERM_PAIRWISE_OBS)).

(** A freshly constructed standardizer of dimension two and a batch of
    two points. *)
Definition sample_standardizer : Standardizer.Standardizer :=
  Standardizer.init 2 1e-6 0 0 1.

Definition sample_points : ndarray2 :=
  {| shape1 := 2; rows := [[1; 2]; [3; 5]] |}.

(** A replay-memory entry of a one-agent environment. *)
Definition sample_transition (reward : R) (done : Z) : DQN.Transition :=
  {| DQN.tr_obs := [[0; 1]]; DQN.tr_action := [1];
     DQN.tr_reward := [reward]; DQN.tr_succ_obs := [[1; 1]];
     DQN.tr_done := done |}.

(** What the removal loop leaves of a collection: after deleting an
    arrived aircraft the index still advances, so the aircraft that
    slides into the freed position is not examined. *)
Fixpoint skip_removal (l : list Aircraft) : list Aircraft :=
  match l with
  | [] => []
  | a :: rest =>
      if arrival a then
        match rest with
        | [] => []
        | b :: rest' => b :: skip_removal rest'
        end
      else a :: skip_removal rest
  end.

(** Two aircraft next to each other in the collection, both within 100 m
    of their destinations. *)
Definition arrived_first : Aircraft :=
  {| v := 15; turn_rate := 0; x := 0; y := 0; dest_x := 50; dest_y := 0;
     heading := 0; dist_to_dest := 50; init_dist_to_dest := 6000;
     prev_dist_to_dest := 65; obs := [0; 0; 0; 0] |}.

Definition arrived_second : Aircraft :=
  {| v := 15; turn_rate := 0; x := 500; y := 0; dest_x := 560; dest_y := 0;
     heading := 0; dist_to_dest := 60; init_dist_to_dest := 6000;
     prev_dist_to_dest := 75; obs := [0; 0; 0; 0] |}.

Definition env_two_arrived : Env :=
  set_aircraft (MultiAircraftEnv_init default_args)
               [arrived_first; arrived_second].

(** The intruder part of an observation with [k] sensor slots, given the
    intruders in the order in which they are reported: one block for each
    of the first [k] intruders, then the sentinel block in every slot that
    is left. *)
Definition intruder_slots (self : Aircraft) (intruders : list Aircraft)
    (k : nat) : list R :=
  concat (map (get_pairwise_obs self) (take k intruders))
  ++ concat (replicate (k - length intruders) TERM_PAIRWISE_OBS).

(** An environment configured with [max_time_steps = 100] and one agent,
    150 steps into an episode. *)
Definition short_episode_args : InitArgs := {|
  arg_continuous_action_space := true;
  arg_n_agents := 1;
  arg_constant_n_agents := false;
  arg_training_mode := "square";
  arg_sensor_mode := "closest";
  arg_sensor_capacity := SENSOR_CAPACITY;
  arg_max_time_steps := 100;
  arg_one_hot := false;
  arg_render_option := false;
  arg_speed_noise := 1e-3;
  arg_turn_rate_noise := 1e-3;
  arg_position_noise := 1e-3;
  arg_angle_noise := 1e-3;
  arg_reward_mech := "local";
  arg_rew_arrival := 15;
  arg_rew_closing := 2.5;
  arg_rew_nmac := -15;
  arg_rew_large_turnrate := -0.1
|}.

Definition env_late : Env :=
  set_t (set_aircraft (MultiAircraftEnv_init short_episode_args)
                      [sample_observed])
        150.

(** The scenario attributes that [Aircraft.__init__] reads are in place. *)
Definition scenario_ready (env : Env) : Prop :=
  (training_mode env = "circle" /\ circle_radius env <> None)
  \/ training_mode env = "annulus"
  \/ training_mode env = "square".

(** [a] is the result of a call [Aircraft(env)], whatever the collection
    and the state of [random] at the call. *)
Definition freshly_constructed (env : Env) (a : Aircraft) : Prop :=
  exists acs g g', Aircraft_init (set_aircraft env acs) g = Ret (a, g').

(** A square-scenario environment that holds its population constant,
    with two arrived aircraft. *)
Definition constant_population_args : InitArgs := {|
  arg_continuous_action_space := true;
  arg_n_agents := 2;
  arg_constant_n_agents := true;
  arg_training_mode := "square";
  arg_sensor_mode := "closest";
  arg_sensor_capacity := SENSOR_CAPACITY;
  arg_max_time_steps := MAX_TIME_STEPS;
  arg_one_hot := false;
  arg_render_option := false;
  arg_speed_noise := 1e-3;
  arg_turn_rate_noise := 1e-3;
  arg_position_noise := 1e-3;
  arg_angle_noise := 1e-3;
  arg_reward_mech := "local";
  arg_rew_arrival := 15;
  arg_rew_closing := 2.5;
  arg_rew_nmac := -15;
  arg_rew_large_turnrate := -0.1
|}.

Definition env_constant : Env :=
  set_aircraft (MultiAircraftEnv_init constant_population_args)
               [arrived_first; arrived_second].

(** A state of the [random] module. *)
Definition sample_random : RandomState :=
  {| samples := fun n => / INR (n + 2); cursor := 0 |}.

(** No two neighbours of the collection have both arrived. *)
Fixpoint no_adjacent_arrived (l : list Aircraft) : Prop :=
  match l with
  | a :: rest =>
      match rest with
      | b :: _ => (arrival a = true -> arrival b = false)
      | [] => True
      end /\ no_adjacent_arrived rest
  | [] => True
  end.

(** A collection whose two arrived aircraft are not neighbours. *)
Definition env_one_arrived : Env :=
  set_aircraft (MultiAircraftEnv_init default_args)
               [arrived_first; sample_aircraft; arrived_second].

(** A packed batch of two rows: a terminal and a non-terminal one. *)
Definition sample_batch : DQN.Batch :=
  {| DQN.obs_B_Do := [[0; 1]; [1; 1]];
     DQN.actions_B_Da := [[1]; [0]];
     DQN.rewards_B := [3; 4];
     DQN.succ_obs_B_Do := [[1; 1]; [2; 1]];
     DQN.done_B := [1; 0] |}.

(** The default environment with the sensor mode 'sector'. *)
Definition sector_args : InitArgs := {|
  arg_continuous_action_space := true;
  arg_n_agents := 1;
  arg_constant_n_agents := false;
  arg_training_mode := "circle";
  arg_sensor_mode := "sector";
  arg_sensor_capacity := SENSOR_CAPACITY;
  arg_max_time_steps := MAX_TIME_STEPS;
  arg_one_hot := false;
  arg_render_option := false;
  arg_speed_noise := 1e-3;
  arg_turn_rate_noise := 1e-3;
  arg_position_noise := 1e-3;
  arg_angle_noise := 1e-3;
  arg_reward_mech := "local";
  arg_rew_arrival := 15;
  arg_rew_closing := 2.5;
  arg_rew_nmac := -15;
  arg_rew_large_turnrate := -0.1
|}.

Definition env_sector : Env :=
  set_aircraft (MultiAircraftEnv_init sector_args) [sample_aircraft].

(** The speed is within its limits and the stored distance is the
    Euclidean distance to the destination. *)
Definition consistent (a : Aircraft) : Prop :=
  15 <= v a <= 45
  /\ dist_to_dest a = sqrt ((dest_y a - y a) ^ 2 + (dest_x a - x a) ^ 2).

(** An aircraft whose stored distance is its distance to the destination. *)
Definition consistent_aircraft : Aircraft :=
  {| v := 20; turn_rate := 0; x := 0; y := 0; dest_x := 0; dest_y := 0;
     heading := 0; dist_to_dest := 0; init_dist_to_dest := 500;
     prev_dist_to_dest := 20; obs := [0; 0; 0; 0] |}.

(** A sensor block [[dist, bearing, heading difference, speed]] within
    its normalised ranges. *)
Definition normalized_block (blk : list R) : Prop :=
  exists d b h s,
    blk = [d; b; h; s]
    /\ 0 < d <= 1 /\ -1 <= b <= 1 /\ -1 <= h <= 1 /\ 0 <= s <= 1.

(** A transition that holds one item per agent, with observations of
    the width of the observation space. *)
Definition wf_transition (n obs_dim : nat) (tr : DQN.Transition) : Prop :=
  length (DQN.tr_obs tr) = n
  /\ Forall (fun o => length o = obs_dim) (DQN.tr_obs tr)
  /\ length (DQN.tr_action tr) = n
  /\ length (DQN.tr_reward tr) = n
  /\ length (DQN.tr_succ_obs tr) = n
  /\ Forall (fun o => length o = obs_dim) (DQN.tr_succ_obs tr).

(** The transitions laid out one row per agent, transition after
    transition. *)
Definition flat_batch (n : nat) (trs : list DQN.Transition) : DQN.Batch :=
  {| DQN.obs_B_Do := concat (map DQN.tr_obs trs);
     DQN.actions_B_Da :=
       concat (map (fun tr => map (fun a => [a]) (DQN.tr_action tr)) trs);
     DQN.rewards_B := concat (map DQN.tr_reward trs);
     DQN.succ_obs_B_Do := concat (map DQN.tr_succ_obs trs);
     DQN.done_B :=
       concat (map (fun tr => replicate n (IZR (DQN.tr_done tr))) trs) |}.

(** The first [p] entries of [full], the rest still holding [zero]. *)
Definition filled {T : Type} (full : list T) (zero : T) (p : nat) : list T :=
  take p full ++ repeat zero (length full - p).

(** The arrays of [_pack_into_batch] when [p] rows have been written. *)
Definition partial_batch (n obs_dim : nat) (trs : list DQN.Transition)
    (p : nat) : DQN.Batch :=
  let full := flat_batch n trs in
  {| DQN.obs_B_Do := filled (DQN.obs_B_Do full) (repeat 0 obs_dim) p;
     DQN.actions_B_Da := filled (DQN.actions_B_Da full) [0] p;
     DQN.rewards_B := filled (DQN.rewards_B full) 0 p;
     DQN.succ_obs_B_Do := filled (DQN.succ_obs_B_Do full) (repeat 0 obs_dim) p;
     DQN.done_B := filled (DQN.done_B full) 0 p |}.

(** Two transitions of a two-agent environment with observations of
    width two. *)
Definition sample_transitions : list DQN.Transition :=
  [ {| DQN.tr_obs := [[0; 1]; [1; 0]]; DQN.tr_action := [1; 2];
       DQN.tr_reward := [3; 4]; DQN.tr_succ_obs := [[1; 1]; [2; 0]];
       DQN.tr_done := 0 |};
    {| DQN.tr_obs := [[1; 1]; [2; 0]]; DQN.tr_action := [0; 1];
       DQN.tr_reward := [5; 6]; DQN.tr_succ_obs := [[2; 1]; [3; 0]];
       DQN.tr_done := 1 |} ].

(** The standardizer holds the statistics of the non-empty data set
    [data]: its size, its column means and the column means of its
    squares. *)
Definition summarises (st : Standardizer.Standardizer) (data : ndarray2)
  : Prop :=
  shape1 data = Standardizer._dim st
  /\ Standardizer._count st = INR (length (rows data))
  /\ Standardizer._mean_1_D st = Standardizer.col_mean (fun e => e) data
  /\ Standardizer._meansq_1_D st
     = Standardizer.col_mean (fun e => e ^ 2) data.

(** The rows of [pts] added below those of [data]. *)
Definition stack (data pts : ndarray2) : ndarray2 :=
  {| shape1 := shape1 data; rows := rows data ++ rows pts |}.

(** The standardizer that has seen [sample_points] once. *)
Definition updated_standardizer : Standardizer.Standardizer :=
  {| Standardizer._eps := 1e-6; Standardizer._dim := 2;
     Standardizer._count := 2;
     Standardizer._mean_1_D :=
       Standardizer.col_mean (fun e => e) sample_points;
     Standardizer._meansq_1_D :=
       Standardizer.col_mean (fun e => e ^ 2) sample_points |}.

(** The number under the square root of the standard deviation is not
    negative, in every coordinate. *)
Definition stdev_defined (st : Standardizer.Standardizer) : Prop :=
  Forall2 (fun ms m => 0 <= ms - m ^ 2 + Standardizer._eps st)
          (Standardizer._meansq_1_D st) (Standardizer._mean_1_D st).

(** A standardizer of dimension one constructed with [init_mean = 2] and
    [init_meansq = 1]: its mean square is below the square of its mean. *)
Definition skewed_standardizer : Standardizer.Standardizer :=
  Standardizer.init 1 1e-6 0 2 1.

(** A batch of one point of dimension one, and the array holding NaN
    in its place. *)
Definition one_point : ndarray2 := {| shape1 := 1; rows := [[3]] |}.

Definition nan_point : fndarray2 := {| fshape1 := 1; frows := [[NaN]] |}.

(** Equal lists up to the bracketing of appends. *)
Ltac reassoc :=
  repeat (rewrite <- ?app_assoc; simpl); reflexivity.

(* ================================================================== *)
(** * Part II. Properties                                              *)
(* ================================================================== *)

(** ** The error monad and Python indexing *)

Lemma bind_Ret {A B : Type} (f : A -> res B) (a : A) :
  (Ret a ≫= f) = f a.
Proof. reflexivity. Qed.

Lemma bind_inv {A B : Type} (m : res A) (f : A -> res B) (b : B) :
  (m ≫= f) = Ret b -> exists a, m = Ret a /\ f a = Ret b.
Proof. destruct m as [a|e]; simpl; [eauto | discriminate]. Qed.

Lemma py_index_nonneg {A : Type} (arr : list A) (i : Z) :
  (0 <= i < Z.of_nat (length arr))%Z -> py_index arr i = Ret (Z.to_nat i).
Proof.
  intros H. unfold py_index.
  destruct (Z.leb_spec 0 i); [ | lia ].
  destruct (Z.ltb_spec i (Z.of_nat (length arr))); [ reflexivity | lia ].
Qed.

Lemma py_index_of_nat {A : Type} (arr : list A) (k : nat) :
  (k < length arr)%nat -> py_index arr (Z.of_nat k) = Ret k.
Proof.
  intros H. rewrite py_index_nonneg by lia. by rewrite Nat2Z.id.
Qed.

Lemma py_index_lt {A : Type} (arr : list A) (i : Z) (k : nat) :
  py_index arr i = Ret k -> (k < length arr)%nat.
Proof.
  unfold py_index.
  destruct (Z.leb_spec 0 i), (Z.ltb_spec i (Z.of_nat (length arr))); simpl;
    try (intros [= <-]; lia);
    destruct (Z.leb_spec (- Z.of_nat (length arr)) i), (Z.ltb_spec i 0);
    simpl; try discriminate; intros [= <-]; lia.
Qed.

Lemma getitem_of_nat {A : Type} (arr : list A) (k : nat) (a : A) :
  arr !! k = Some a -> getitem arr (Z.of_nat k) = Ret a.
Proof.
  intros H. unfold getitem.
  rewrite py_index_of_nat by (eapply lookup_lt_Some; eauto).
  simpl. by rewrite H.
Qed.

Lemma getitem_total {A : Type} (arr : list A) (i : Z) :
  (0 <= i < Z.of_nat (length arr))%Z -> exists a, getitem arr i = Ret a.
Proof.
  intros H. unfold getitem. rewrite py_index_nonneg by done. simpl.
  destruct (lookup_lt_is_Some_2 arr (Z.to_nat i)) as [a Ha]; [lia|].
  rewrite Ha. eauto.
Qed.

Lemma setitem_of_nat {A : Type} (arr : list A) (k : nat) (a : A) :
  (k < length arr)%nat -> setitem arr (Z.of_nat k) a = Ret (<[k:=a]> arr).
Proof. intros H. unfold setitem. by rewrite py_index_of_nat. Qed.

Lemma setitem_length {A : Type} (arr arr' : list A) (i : Z) (a : A) :
  setitem arr i a = Ret arr' -> length arr' = length arr.
Proof.
  unfold setitem. intros H. apply bind_inv in H as (k & _ & [= <-]).
  apply length_insert.
Qed.

Lemma Rltb_true (a b : R) : Rltb a b = true <-> a < b.
Proof. unfold Rltb. destruct (Rlt_dec a b); split; (done || lra). Qed.

Lemma Rltb_false (a b : R) : Rltb a b = false <-> b <= a.
Proof. unfold Rltb. destruct (Rlt_dec a b); split; (done || lra). Qed.

Lemma Rleb_true (a b : R) : Rleb a b = true <-> a <= b.
Proof. unfold Rleb. destruct (Rle_dec a b); split; (done || lra). Qed.

Lemma Rleb_false (a b : R) : Rleb a b = false <-> b < a.
Proof. unfold Rleb. destruct (Rle_dec a b); split; (done || lra). Qed.

(** ** Angle normalisation *)

Lemma py_mod_bounds (a b : R) : 0 < b -> 0 <= py_mod a b < b.
Proof.
  intros Hb. unfold py_mod.
  destruct (Zfloor_bound (a / b)) as [Hlo Hhi].
  assert (Ha : a = a / b * b) by (field; lra).
  split.
  - apply (Rmult_le_compat_r b) in Hlo; lra.
  - apply (Rmult_lt_compat_r b) in Hhi; lra.
Qed.

Lemma norm_angle_bounds (angle : R) : - PI <= norm_angle angle < PI.
Proof.
  unfold norm_angle.
  pose proof PI_RGT_0.
  destruct (py_mod_bounds (angle + PI) (2 * PI)); lra.
Qed.

Lemma norm_angle_at_pi : norm_angle PI = - PI.
Proof.
  unfold norm_angle, py_mod. pose proof PI_RGT_0.
  replace ((PI + PI) / (2 * PI)) with (IZR 1) by (field; lra).
  rewrite ZfloorZ. lra.
Qed.

Lemma norm_angle_at_minus_pi : norm_angle (- PI) = - PI.
Proof.
  unfold norm_angle, py_mod. pose proof PI_RGT_0.
  replace ((- PI + PI) / (2 * PI)) with (IZR 0) by (field; lra).
  rewrite ZfloorZ. lra.
Qed.

(** C3.  [norm_angle] sends both [pi] and [-pi] to [-pi], which differs
    from [pi]: its values lie in [[-pi, pi)], and the closed end of the
    interval announced by the comment above it, [(-pi, pi]], is never
    reached. *)
Theorem norm_angle_boundary :
  norm_angle PI = - PI /\ norm_angle (- PI) = - PI /\ - PI <> PI
  /\ ~ (- PI < norm_angle PI <= PI)
  /\ forall angle, norm_angle angle <> PI.
Proof.
  pose proof PI_RGT_0.
  rewrite norm_angle_at_pi, norm_angle_at_minus_pi.
  repeat split; try lra.
  intros angle Heq. destruct (norm_angle_bounds angle). lra.
Qed.

(** ** The constructor of the environment *)

(** C10.  Whatever is passed for the four noise arguments, the
    constructed environment holds [1e-3] in each noise attribute, and
    changing those four arguments does not change the environment. *)
Theorem init_ignores_noise_arguments (a : InitArgs) :
  speed_noise (MultiAircraftEnv_init a) = 1e-3
  /\ turn_rate_noise (MultiAircraftEnv_init a) = 1e-3
  /\ position_noise (MultiAircraftEnv_init a) = 1e-3
  /\ angle_noise (MultiAircraftEnv_init a) = 1e-3
  /\ forall sn tn pn an,
       MultiAircraftEnv_init (with_noise a sn tn pn an)
       = MultiAircraftEnv_init a.
Proof. repeat split. Qed.

(** ** Aircraft dynamics *)

Lemma np_clip_bounds (r lo hi : R) : lo <= hi -> lo <= np_clip r lo hi <= hi.
Proof.
  intros H. unfold np_clip. split.
  - apply Rmin_glb; [apply Rmax_r | exact H].
  - apply Rmin_r.
Qed.

Lemma MAX_TURN_RATE_pos : 0 < MAX_TURN_RATE.
Proof. unfold MAX_TURN_RATE. pose proof PI_RGT_0. lra. Qed.

(** C7.  An action vector with at least two entries is accepted; the new
    speed lies in [[MIN_V, MAX_V] = [15, 45]] whatever the entries are,
    the new heading is a value of [norm_angle] and so lies in
    [[-pi, pi)], and when the turn entry lies in [[-1, 1]] the new turn
    rate is at most [MAX_TURN_RATE] (ten degrees, in radians) in
    magnitude. *)
Theorem apply_action_bounds (self : Aircraft) (action : list R) :
  (2 <= length action)%nat ->
  exists self',
    apply_action self action = Ret self'
    /\ 15 <= v self' <= 45
    /\ (exists theta, heading self' = norm_angle theta)
    /\ - PI <= heading self' < PI
    /\ (forall a_turn, action !! 1%nat = Some a_turn ->
        -1 <= a_turn <= 1 ->
        Rabs (turn_rate self') <= 10 * (PI / 180)).
Proof.
  intros Hlen.
  destruct action as [|a0 [|a1 rest]]; simpl in Hlen; try lia.
  unfold apply_action.
  change ACTION_IND_ACC with (Z.of_nat 0).
  change ACTION_IND_TURN with (Z.of_nat 1).
  rewrite (getitem_of_nat _ 0 a0), (getitem_of_nat _ 1 a1) by reflexivity.
  simpl. eexists. split; [reflexivity|]. simpl.
  split; [apply (np_clip_bounds _ 15 45); lra|].
  split; [eexists; reflexivity|].
  split; [apply norm_angle_bounds|].
  intros a_turn [= <-] Ha.
  pose proof MAX_TURN_RATE_pos as Hpos. unfold MAX_TURN_RATE in *.
  rewrite Rabs_mult, (Rabs_pos_eq (10 * (PI / 180))) by lra.
  assert (Hb : Rabs a1 <= 1) by (apply Rabs_le; lra).
  nra.
Qed.

Lemma apply_action_bounds_witness :
  exists self',
    apply_action sample_aircraft [3; 1] = Ret self'
    /\ 15 <= v self' <= 45.
Proof.
  destruct (apply_action_bounds sample_aircraft [3; 1]) as (self' & H1 & H2 & _).
  - simpl. lia.
  - exists self'. split; assumption.
Defined.

(** ** Rewards *)

Lemma arrival_true (self : Aircraft) :
  arrival self = true <-> dist_to_dest self < 100.
Proof.
  unfold arrival, DEST_THRESHOLD.
  destruct (Rltb _ _) eqn:E.
  - apply Rltb_true in E. tauto.
  - apply Rltb_false in E. split; [discriminate | lra].
Qed.

Lemma arrival_false (self : Aircraft) :
  arrival self = false <-> 100 <= dist_to_dest self.
Proof.
  unfold arrival, DEST_THRESHOLD.
  destruct (Rltb _ _) eqn:E.
  - apply Rltb_true in E. split; [discriminate | lra].
  - apply Rltb_false in E. tauto.
Qed.

Lemma reward_additive (env : Env) (self : Aircraft) (nm : bool) :
  nmac env self = Ret nm ->
  reward env self
  = Ret (arrival_or_closing_term env self + nmac_term env nm
         + turn_rate_term env self).
Proof.
  intros Hnm. unfold reward. rewrite Hnm. simpl.
  unfold arrival_or_closing_term, nmac_term, turn_rate_term.
  f_equal.
  destruct (arrival self), nm,
    (Rltb (0.7 * MAX_TURN_RATE) (Rabs (turn_rate self))); lra.
Qed.

(** C6.  Whenever [nmac] returns, the reward is the sum of the
    arrival-or-closing term, the NMAC term and the large-turn-rate term.
    With [prev_dist_to_dest = 1000], [dist_to_dest = 990], no NMAC, a
    turn rate of magnitude at most [0.7 * MAX_TURN_RATE] and
    [rew_closing = 2.5] it is exactly 25; for an arrived aircraft with
    [rew_arrival = 15] and neither penalty triggered it is exactly 15. *)
Theorem reward_components (env : Env) (self : Aircraft) (nm : bool) :
  nmac env self = Ret nm ->
  reward env self
  = Ret ((if arrival self then rew_arrival env
          else rew_closing env
               * (prev_dist_to_dest self - dist_to_dest self))
         + (if nm then rew_nmac env else 0)
         + (if Rltb (0.7 * MAX_TURN_RATE) (Rabs (turn_rate self))
            then rew_large_turnrate env * Rabs (turn_rate self) else 0))
  /\ (prev_dist_to_dest self = 1000 -> dist_to_dest self = 990 ->
      nm = false -> Rabs (turn_rate self) <= 0.7 * MAX_TURN_RATE ->
      rew_closing env = 2.5 ->
      arrival self = false /\ reward env self = Ret 25)
  /\ (dist_to_dest self < 100 -> rew_arrival env = 15 ->
      nm = false -> Rabs (turn_rate self) <= 0.7 * MAX_TURN_RATE ->
      arrival self = true /\ reward env self = Ret 15).
Proof.
  intros Hnm. pose proof (reward_additive env self nm Hnm) as Hrew.
  unfold arrival_or_closing_term, nmac_term, turn_rate_term in Hrew.
  split; [exact Hrew|]. split.
  - intros Hprev Hdist -> Hturn Hclosing.
    assert (Harr : arrival self = false) by (apply arrival_false; lra).
    split; [exact Harr|]. rewrite Hrew, Harr.
    apply Rltb_false in Hturn. rewrite Hturn, Hprev, Hdist, Hclosing.
    f_equal. lra.
  - intros Hdist Harrival -> Hturn.
    assert (Harr : arrival self = true) by (apply arrival_true; lra).
    split; [exact Harr|]. rewrite Hrew, Harr.
    apply Rltb_false in Hturn. rewrite Hturn, Harrival.
    f_equal. lra.
Qed.

Lemma nmac_sample : nmac sample_env sample_observed = Ret false.
Proof.
  unfold nmac. simpl.
  assert (E : Rltb 1 (NMAC_RANGE / SENSING_RANGE) = false)
    by (apply Rltb_false; unfold NMAC_RANGE, SENSING_RANGE; lra).
  unfold getitem; simpl. rewrite E. reflexivity.
Qed.

Lemma reward_components_witness : reward sample_env sample_observed = Ret 25.
Proof.
  destruct (reward_components sample_env sample_observed false nmac_sample)
    as (_ & H & _).
  apply H; simpl; try reflexivity.
  rewrite Rabs_R0. pose proof MAX_TURN_RATE_pos. lra.
Defined.

(** ** The standardizer *)

Section StandardizerFacts.
Import Standardizer.

Lemma np_binop_same_length {T : Type} (op : T -> T -> T) (a b : list T) :
  length a = length b -> np_binop op a b = Ret (zip_with op a b).
Proof.
  intros H. unfold np_binop.
  destruct (Nat.eqb_spec (length a) (length b)); [reflexivity | contradiction].
Qed.

Lemma map_res_pure {A B : Type} (f : A -> res B) (g : A -> B) (l : list A) :
  Forall (fun a => f a = Ret (g a)) l -> map_res f l = Ret (map g l).
Proof.
  induction 1 as [|a l Ha _ IH]; simpl; [reflexivity|].
  rewrite Ha. simpl. rewrite IH. reflexivity.
Qed.

Lemma np_binop2_same_dim (op : np_float -> np_float -> np_float)
    (m : fndarray2) (w : list np_float) :
  Forall (fun r => length r = fshape1 m) (frows m) -> fshape1 m = length w ->
  np_binop2 op m w
  = Ret {| fshape1 := fshape1 m;
           frows := map (fun r => zip_with op r w) (frows m) |}.
Proof.
  intros Hwf Hdim. unfold np_binop2, broadcast_dim, np_binop_rows.
  rewrite Hdim, Nat.eqb_refl. simpl.
  rewrite (map_res_pure _ (fun r => zip_with op r w)); [reflexivity|].
  eapply Forall_impl; [exact Hwf|]. simpl. intros r Hr.
  apply np_binop_same_length. congruence.
Qed.

Lemma col_mean_length (f : R -> R) (pts : ndarray2) :
  length (col_mean f pts) = shape1 pts.
Proof. unfold col_mean. by rewrite length_map, length_seq. Qed.

(** A reachable standardizer keeps one mean and one mean square per
    dimension. *)
Lemma reachable_shapes (st : Standardizer) :
  reachable st ->
  length (_mean_1_D st) = _dim st /\ length (_meansq_1_D st) = _dim st.
Proof.
  induction 1 as [dim eps c m ms | st pts st' _ [IHm IHs] Hupd].
  - simpl. by rewrite !repeat_length.
  - unfold update in Hupd.
    apply bind_inv in Hupd as ([] & Hassert & Hupd).
    unfold assert in Hassert.
    destruct (Nat.eqb_spec (shape1 pts) (_dim st)) as [Hd|]; [|discriminate].
    unfold get_mean, get_meansq in Hupd.
    rewrite !np_binop_same_length in Hupd
      by (rewrite col_mean_length; congruence).
    simpl in Hupd. injection Hupd as <-. simpl.
    rewrite !length_zip_with, !col_mean_length. lia.
Qed.

Lemma f_sqrt_finite (a : R) : 0 <= a -> f_sqrt (Finite a) = Finite (sqrt a).
Proof.
  intros Ha. unfold f_sqrt, Rltb. destruct (Rlt_dec a 0); [lra | reflexivity].
Qed.

Lemma f_sqrt_negative (a : R) : a < 0 -> f_sqrt (Finite a) = NaN.
Proof.
  intros Ha. unfold f_sqrt, Rltb. destruct (Rlt_dec a 0); [reflexivity | lra].
Qed.

Lemma f_div_finite (a b : R) :
  b <> 0 -> f_div (Finite a) (Finite b) = Finite (a / b).
Proof.
  intros Hb. unfold f_div. destruct (Req_dec_T b 0); [contradiction | reflexivity].
Qed.

(** Where the number under the square root is not negative, the
    denominators [stdev + eps] are finite. *)
Lemma denominators_finite (st : Standardizer) :
  stdev_defined st ->
  map (fun s => f_add s (Finite (_eps st))) (get_stdev st)
  = map Finite
      (zip_with (fun ms m => sqrt (ms - m ^ 2 + _eps st) + _eps st)
                (_meansq_1_D st) (_mean_1_D st)).
Proof.
  unfold stdev_defined, get_stdev, _stdev_1_D.
  induction 1 as [|ms m mss ms' Hrad _ IH]; cbn [zip_with map];
    [reflexivity|].
  rewrite (f_sqrt_finite _ Hrad), IH. reflexivity.
Qed.

(** With [eps > 0] every one of them is positive. *)
Lemma denominators_positive (st : Standardizer) :
  0 < _eps st ->
  Forall (fun d => 0 < d)
    (zip_with (fun ms m => sqrt (ms - m ^ 2 + _eps st) + _eps st)
              (_meansq_1_D st) (_mean_1_D st)).
Proof.
  intros Heps. apply Forall_forall. intros s Hs.
  apply list_elem_of_lookup in Hs as [i Hi].
  apply lookup_zip_with_Some in Hi as (ms & m & -> & _ & _).
  pose proof (sqrt_pos (ms - m ^ 2 + _eps st)). lra.
Qed.

Lemma roundtrip_row_centered (r mean denom : list R) :
  length r = length mean -> length r = length denom ->
  Forall (fun d => 0 < d) denom ->
  zip_with f_add
    (zip_with f_mul
       (zip_with f_div (zip_with f_sub (map Finite r) (map Finite mean))
                 (map Finite denom))
       (map Finite denom))
    (map Finite mean)
  = map Finite r.
Proof.
  revert mean denom.
  induction r as [|e r IH]; intros [|m mean] [|d denom];
    cbn [zip_with map length]; try discriminate; [reflexivity|].
  intros [= Hm] [= Hd] Hpos. apply Forall_cons in Hpos as [Hd0 Hpos].
  cbn [f_sub]. rewrite f_div_finite by lra. cbn [f_mul f_add].
  f_equal; [f_equal; field; lra | by apply IH].
Qed.

Lemma roundtrip_row_uncentered (r denom : list R) :
  length r = length denom ->
  Forall (fun d => 0 < d) denom ->
  map (fun e => f_add e (Finite 0))
    (zip_with f_mul
       (zip_with f_div (map (fun e => f_sub e (Finite 0)) (map Finite r))
                 (map Finite denom))
       (map Finite denom))
  = map Finite r.
Proof.
  revert denom.
  induction r as [|e r IH]; intros [|d denom];
    cbn [zip_with map length]; try discriminate; [reflexivity|].
  intros [= Hd] Hpos. apply Forall_cons in Hpos as [Hd0 Hpos].
  cbn [f_sub]. rewrite f_div_finite by lra. cbn [f_mul f_add].
  f_equal; [f_equal; field; lra | by apply IH].
Qed.

(** Lengths of rows built by zipping and mapping. *)
Ltac sizes :=
  intros; rewrite ?length_zip_with, ?length_map; lia.

Lemma map_ext_Forall_eq {A B : Type} (f g : A -> B) (l : list A) :
  Forall (fun a => f a = g a) l -> map f l = map g l.
Proof. induction 1; simpl; congruence. Qed.

(** C9.  For a reachable standardizer with [eps > 0] in which the number
    under the square root of the standard deviation,
    [meansq - mean^2 + eps], is not negative in any coordinate, and a 2-D
    input of numbers of the configured feature dimension, [standardize]
    returns an array on which [unstandardize] (with the same [centered]
    flag) returns the input again, exactly. *)
Theorem standardize_unstandardize (st : Standardizer) (x_B_D : ndarray2)
    (centered : bool) :
  reachable st -> 0 < _eps st -> stdev_defined st ->
  wf_ndarray2 x_B_D -> shape1 x_B_D = _dim st ->
  exists y_B_D,
    standardize st (of_reals x_B_D) centered = Ret y_B_D
    /\ unstandardize st y_B_D centered = Ret (of_reals x_B_D).
Proof.
  intros Hreach Heps Hdef Hwf Hdim.
  destruct (reachable_shapes st Hreach) as [Hm Hs].
  pose proof (denominators_positive st Heps) as Hpos.
  unfold standardize, unstandardize.
  rewrite (denominators_finite st Hdef). unfold get_mean.
  set (denom := zip_with (fun ms m => sqrt (ms - m ^ 2 + _eps st) + _eps st)
                         (_meansq_1_D st) (_mean_1_D st)) in *.
  assert (Hden : length denom = _dim st)
    by (unfold denom; rewrite length_zip_with; lia).
  destruct x_B_D as [d rs]. unfold wf_ndarray2 in Hwf. unfold of_reals.
  simpl in *. subst d.
  assert (Hstep : forall op (f : list R -> list np_float) (w : list np_float),
            length w = _dim st ->
            (forall r, length r = _dim st -> length (f r) = _dim st) ->
            np_binop2 op {| fshape1 := _dim st; frows := map f rs |} w
            = Ret {| fshape1 := _dim st;
                     frows := map (fun r => zip_with op (f r) w) rs |}).
  { intros op f w Hw Hf. rewrite np_binop2_same_dim; simpl.
    - by rewrite map_map.
    - rewrite Forall_map.
      eapply Forall_impl; [exact Hwf|]. simpl. auto.
    - congruence. }
  destruct centered.
  - rewrite Hstep by sizes. rewrite bind_Ret.
    rewrite Hstep by sizes.
    eexists. split; [reflexivity|].
    rewrite Hstep by sizes. rewrite bind_Ret.
    rewrite Hstep by sizes.
    f_equal. f_equal. apply map_ext_Forall_eq.
    eapply Forall_impl; [exact Hwf|]. simpl. intros r Hr.
    apply roundtrip_row_centered; [congruence | congruence | exact Hpos].
  - rewrite bind_Ret. unfold np_scalar2 at 1. cbn [fshape1 frows].
    rewrite map_map.
    rewrite Hstep by sizes.
    eexists. split; [reflexivity|].
    rewrite Hstep by sizes.
    rewrite bind_Ret. unfold np_scalar2. cbn [fshape1 frows].
    f_equal. f_equal. rewrite map_map. apply map_ext_Forall_eq.
    eapply Forall_impl; [exact Hwf|]. simpl. intros r Hr.
    apply roundtrip_row_uncentered; [congruence | exact Hpos].
Qed.

(** On a standardizer constructed with a mean square below the square of
    its mean, the standard deviation is NaN: [standardize] returns NaN
    in place of every entry, and [unstandardize] returns NaN again, not
    the input. *)
Lemma standardize_unstandardize_nan :
  reachable skewed_standardizer
  /\ 0 < _eps skewed_standardizer
  /\ wf_ndarray2 one_point
  /\ shape1 one_point = _dim skewed_standardizer
  /\ forall centered : bool,
       standardize skewed_standardizer (of_reals one_point) centered
       = Ret nan_point
       /\ unstandardize skewed_standardizer nan_point centered = Ret nan_point
       /\ nan_point <> of_reals one_point.
Proof.
  split; [apply reachable_init|].
  split; [simpl; lra|].
  split; [repeat constructor|].
  split; [reflexivity|].
  assert (Hsd : get_stdev skewed_standardizer = [NaN]).
  { unfold get_stdev, _stdev_1_D, skewed_standardizer, init.
    cbn [_meansq_1_D _mean_1_D _eps repeat zip_with].
    rewrite f_sqrt_negative by (simpl; lra). reflexivity. }
  intros centered. unfold standardize, unstandardize. rewrite Hsd.
  split; [|split].
  - destruct centered; reflexivity.
  - destruct centered; reflexivity.
  - discriminate.
Qed.

End StandardizerFacts.

Lemma sample_standardizer_stdev_defined : stdev_defined sample_standardizer.
Proof. unfold stdev_defined. simpl. repeat constructor; lra. Qed.

Lemma standardize_unstandardize_witness :
  exists y_B_D,
    Standardizer.standardize sample_standardizer (of_reals sample_points) true
    = Ret y_B_D
    /\ Standardizer.unstandardize sample_standardizer y_B_D true
       = Ret (of_reals sample_points).
Proof.
  apply standardize_unstandardize.
  - apply Standardizer.reachable_init.
  - simpl. lra.
  - exact sample_standardizer_stdev_defined.
  - repeat constructor.
  - reflexivity.
Defined.

(** ** The checkpoint hash *)

Section HashFacts.
Import Model.
Context {ndarray : Type}.
Variable fingerprint : ndarray -> string.
Variable sha1_hexdigest : string -> string.

Lemma insert_sorted_length (p : string * string) (l : list (string * string)) :
  length (insert_sorted p l) = S (length l).
Proof.
  induction l as [|q l IH]; simpl; [reflexivity|].
  destruct (pair_leb p q); simpl; congruence.
Qed.

Lemma sorted_length (l : list (string * string)) :
  length (sorted l) = length l.
Proof.
  induction l as [|p l IH]; simpl; [reflexivity|].
  rewrite insert_sorted_length. congruence.
Qed.

Lemma map_const_replicate {A B : Type} (f : A -> B) (c : B) (l : list A) :
  (forall a, f a = c) -> map f l = replicate (length l) c.
Proof. intros H. induction l; simpl; congruence. Qed.

(** The string that is hashed: one copy of the format string per
    variable, joined by bars. *)
Lemma hashed_string_is_constant (name2array : list (string * ndarray)) :
  _hash_name2array fingerprint sha1_hexdigest name2array
  = sha1_hexdigest
      (String.concat "|" (replicate (length name2array) "%s %s")).
Proof.
  unfold _hash_name2array.
  rewrite (map_const_replicate _ "%s %s") by (by intros []).
  by rewrite sorted_length, length_map.
Qed.

End HashFacts.

(** C2.  The hash of a variable set is the SHA-1 digest of a string that
    only depends on how many variables there are: neither the names nor
    the value fingerprints enter it.  Two variable sets with the same
    names and different values therefore have the same hash. *)
Theorem hash_ignores_values {ndarray : Type}
    (fingerprint : ndarray -> string) (sha1_hexdigest : string -> string)
    (name2array : list (string * ndarray)) :
  Model._hash_name2array fingerprint sha1_hexdigest name2array
  = sha1_hexdigest
      (String.concat "|" (replicate (length name2array) "%s %s"))
  /\ (forall (name : string) (a b : ndarray),
        Model.savehash fingerprint sha1_hexdigest [(name, a)]
        = Model.savehash fingerprint sha1_hexdigest [(name, b)])
  /\ (forall others : list (string * ndarray),
        length others = length name2array ->
        Model._hash_name2array fingerprint sha1_hexdigest others
        = Model._hash_name2array fingerprint sha1_hexdigest name2array).
Proof.
  split; [apply hashed_string_is_constant|]. split.
  - intros name a b. unfold Model.savehash.
    by rewrite !hashed_string_is_constant.
  - intros others Hlen. rewrite !hashed_string_is_constant. by rewrite Hlen.
Qed.

(** Two one-variable models that differ in the stored value (and hence
    in the fingerprint), hashed with the identity in place of SHA-1 so
    that the hashed strings themselves are compared. *)
Example hash_same_for_different_values :
  let fingerprint (a : list Z) := if decide (a = [1%Z]) then "1.0000000000,0.0000000000,0"
                                  else "2.0000000000,0.0000000000,0" in
  fingerprint [1%Z] <> fingerprint [2%Z]
  /\ Model.savehash fingerprint (fun s => s) [("W", [1%Z])] = "%s %s"
  /\ Model.savehash fingerprint (fun s => s) [("W", [2%Z])] = "%s %s".
Proof. repeat split. simpl. discriminate. Qed.

(** ** The TD target of DQN *)

Section DQNFacts.
Import DQN.
Context {feat qactions : Type}.
Variable target_compute_qactions : Z -> feat -> qactions.
Variable target_compute_qvals : feat -> qactions -> list R.
Variable obsfeat_fn : list (list R) -> feat.
Variable batch_size : Z.
Variable discount : R.

Local Abbreviation target_qvals :=
  (DQN.target_qvals target_compute_qactions target_compute_qvals obsfeat_fn
                    batch_size).

(** Entry by entry, the target is
    [reward + discount * done * Q_target(next_obs, a')]. *)
Lemma qtargets_pointwise (b : Batch) :
  length (done_B b) = length (rewards_B b) ->
  length (target_qvals b) = length (rewards_B b) ->
  qtargets target_compute_qactions target_compute_qvals obsfeat_fn
           batch_size discount b
  = Ret (zip_with Rplus (rewards_B b)
           (zip_with (fun d q => discount * d * q) (done_B b) (target_qvals b))).
Proof.
  unfold qtargets, DQN.target_qvals.
  generalize (target_compute_qvals (obsfeat_fn (succ_obs_B_Do b))
    (target_compute_qactions batch_size (obsfeat_fn (succ_obs_B_Do b)))).
  intros qv Hd Hq.
  rewrite np_binop_same_length by (rewrite length_map; congruence). simpl.
  rewrite np_binop_same_length
    by (rewrite length_zip_with, length_map; lia).
  f_equal. f_equal. clear Hd Hq.
  revert qv. generalize (done_B b).
  induction l as [|d l IH]; intros [|q l0]; simpl; try reflexivity.
  by rewrite IH.
Qed.

End DQNFacts.

(** C1.  For a sampled transition with reward [r] whose successor gets
    the Q-value [q] from the target network, the target computed by the
    training step is [r + discount * done * q]: with [done = 1] it is
    [r + discount * q], with [done = 0] it is [r].  The factor is [done]
    itself where the specified target has [1 - done]. *)
Theorem td_target_multiplies_by_done (discount r q : R) :
  let targets done :=
    DQN.batch_qtargets (fun _ (_ : list (list R)) => tt) (fun _ _ => [q])
      (fun o => o) 1 2 32 discount [sample_transition r done] in
  targets 1%Z = Ret [r + discount * 1 * q]
  /\ targets 0%Z = Ret [r + discount * 0 * q]
  /\ (discount * q <> 0 ->
      targets 1%Z <> Ret [r + discount * (1 - 1) * q]
      /\ targets 0%Z <> Ret [r + discount * (1 - 0) * q]).
Proof.
  simpl.
  assert (H1 : DQN.batch_qtargets (fun _ (_ : list (list R)) => tt)
                 (fun _ _ => [q]) (fun o => o) 1 2 32 discount
                 [sample_transition r 1] = Ret [r + discount * 1 * q])
    by reflexivity.
  assert (H0 : DQN.batch_qtargets (fun _ (_ : list (list R)) => tt)
                 (fun _ _ => [q]) (fun o => o) 1 2 32 discount
                 [sample_transition r 0] = Ret [r + discount * 0 * q])
    by reflexivity.
  rewrite H1, H0. repeat split; intros [= E]; lra.
Qed.

(** ** Population control *)

Lemma getitem_middle {A : Type} (pre post : list A) (a : A) :
  getitem (pre ++ a :: post) (Z.of_nat (length pre)) = Ret a.
Proof. apply getitem_of_nat. by apply list_lookup_middle. Qed.

Lemma delitem_middle {A : Type} (pre post : list A) (a : A) :
  delitem (pre ++ a :: post) (Z.of_nat (length pre)) = Ret (pre ++ post).
Proof.
  unfold delitem. rewrite py_index_of_nat by (rewrite length_app; simpl; lia).
  simpl. f_equal.
  induction pre as [|p pre IH]; simpl; [reflexivity|]. by rewrite IH.
Qed.

Lemma remove_loop_spec (fuel : nat) (pre l : list Aircraft) :
  (length l <= fuel)%nat ->
  remove_loop fuel (Z.of_nat (length pre)) (pre ++ l)
  = Ret (pre ++ skip_removal l).
Proof.
  revert pre l. induction fuel as [|fuel IH]; intros pre l Hfuel.
  - destruct l; [|simpl in Hfuel; lia]. simpl.
    rewrite app_nil_r. destruct (Z.ltb_spec (Z.of_nat (length pre))
      (Z.of_nat (length pre))); [lia | reflexivity].
  - destruct l as [|a rest].
    + simpl. rewrite app_nil_r.
      destruct (Z.ltb_spec (Z.of_nat (length pre))
        (Z.of_nat (length pre))); [lia | reflexivity].
    + cbn [remove_loop].
      destruct (Z.ltb_spec (Z.of_nat (length pre))
        (Z.of_nat (length (pre ++ a :: rest)))) as [_|Hge];
        [|rewrite length_app in Hge; simpl in Hge; lia].
      rewrite getitem_middle. simpl in Hfuel. cbn [mbind res_bind skip_removal].
      destruct (arrival a).
      * rewrite delitem_middle. cbn [mbind res_bind].
        destruct rest as [|b rest'].
        -- rewrite app_nil_r. destruct fuel; simpl;
             (destruct (Z.ltb_spec (Z.of_nat (length pre) + 1)
                (Z.of_nat (length pre))); [lia | reflexivity]).
        -- replace (Z.of_nat (length pre) + 1)%Z
             with (Z.of_nat (length (pre ++ [b])))
             by (rewrite length_app; simpl; lia).
           replace (pre ++ b :: rest') with ((pre ++ [b]) ++ rest')
             by (by rewrite <- app_assoc).
           rewrite IH by (simpl in Hfuel; lia).
           by rewrite <- app_assoc.
      * cbn [mbind res_bind].
        replace (Z.of_nat (length pre) + 1)%Z
          with (Z.of_nat (length (pre ++ [a])))
          by (rewrite length_app; simpl; lia).
        replace (pre ++ a :: rest) with ((pre ++ [a]) ++ rest)
          by (by rewrite <- app_assoc).
        rewrite IH by lia.
        by rewrite <- app_assoc.
Qed.

(** Without a constant population, [n_agents_control] always returns,
    and the new collection is [skip_removal] of the old one. *)
Lemma n_agents_control_removal (env : Env) (g : RandomState) :
  constant_n_agents env = false ->
  n_agents_control env g
  = Ret (set_aircraft env (skip_removal (aircraft env)), g).
Proof.
  intros Hc. unfold n_agents_control. rewrite Hc.
  change 0%Z with (Z.of_nat (length (@nil Aircraft))).
  rewrite (remove_loop_spec _ [] (aircraft env)) by lia.
  reflexivity.
Qed.

(** C5.  With [constant_n_agents] false and two consecutive arrived
    aircraft in the collection, [n_agents_control] removes the first and
    leaves the second, which was in the collection beforehand and
    satisfies [arrival]. *)
Theorem n_agents_control_leaves_arrived (g : RandomState) :
  constant_n_agents env_two_arrived = false
  /\ arrival arrived_first = true
  /\ arrival arrived_second = true
  /\ n_agents_control env_two_arrived g
     = Ret (set_aircraft env_two_arrived [arrived_second], g).
Proof.
  assert (H1 : arrival arrived_first = true)
    by (apply arrival_true; simpl; lra).
  assert (H2 : arrival arrived_second = true)
    by (apply arrival_true; simpl; lra).
  repeat split; try assumption.
  rewrite n_agents_control_removal by reflexivity.
  simpl. rewrite H1. reflexivity.
Qed.

(** ** The quicksort of intruders *)

Lemma range2_nil (lo hi : Z) : (hi <= lo)%Z -> range2 lo hi = [].
Proof.
  intros H. unfold range2. replace (Z.to_nat (hi - lo)) with 0%nat by lia.
  reflexivity.
Qed.

Lemma range2_cons (lo hi : Z) :
  (lo < hi)%Z -> range2 lo hi = lo :: range2 (lo + 1) hi.
Proof.
  intros H. unfold range2.
  replace (Z.to_nat (hi - lo)) with (S (Z.to_nat (hi - (lo + 1)))) by lia.
  simpl. f_equal; [lia|].
  rewrite <- seq_shift, map_map. apply map_ext. intros k. lia.
Qed.

Lemma range2_snoc (lo hi : Z) :
  (lo <= hi)%Z -> range2 lo (hi + 1) = range2 lo hi ++ [hi].
Proof.
  intros H. unfold range2.
  replace (Z.to_nat (hi + 1 - lo)) with (Z.to_nat (hi - lo) + 1)%nat by lia.
  rewrite seq_app, map_app. simpl. do 2 f_equal. lia.
Qed.

Lemma for_each_app {A S : Type} (xs ys : list A) (body : A -> S -> res S)
    (s : S) :
  for_each (xs ++ ys) body s = (for_each xs body s ≫= for_each ys body).
Proof.
  revert s. induction xs as [|a xs IH]; intros s; simpl.
  - reflexivity.
  - destruct (body a s) as [s'|e]; simpl; [apply IH | reflexivity].
Qed.

Section SwapFacts.
Context {A : Type}.

Lemma swap_same (arr : list A) (k : nat) :
  (k < length arr)%nat -> swap arr (Z.of_nat k) (Z.of_nat k) = Ret arr.
Proof.
  intros Hk. destruct (lookup_lt_is_Some_2 arr k Hk) as [a Ha].
  unfold swap. rewrite (getitem_of_nat _ _ _ Ha). cbn [mbind res_bind].
  rewrite setitem_of_nat by done. cbn [mbind res_bind].
  rewrite setitem_of_nat by (by rewrite length_insert).
  rewrite list_insert_insert_eq, list_insert_id; done.
Qed.

Lemma swap_middle (l1 l2 l3 : list A) (a b : A) :
  swap (l1 ++ a :: l2 ++ b :: l3) (Z.of_nat (length l1))
       (Z.of_nat (length l1 + S (length l2)))
  = Ret (l1 ++ b :: l2 ++ a :: l3).
Proof.
  assert (Hb : (l1 ++ a :: l2 ++ b :: l3) !! (length l1 + S (length l2))%nat
               = Some b).
  { rewrite lookup_app_r by lia.
    replace (length l1 + S (length l2) - length l1)%nat
      with (S (length l2)) by lia.
    simpl. by apply list_lookup_middle. }
  assert (Ha : (l1 ++ a :: l2 ++ b :: l3) !! length l1 = Some a)
    by (by apply list_lookup_middle).
  unfold swap.
  rewrite (getitem_of_nat _ _ _ Hb), (getitem_of_nat _ _ _ Ha).
  cbn [mbind res_bind].
  rewrite setitem_of_nat by (rewrite length_app; simpl; lia).
  cbn [mbind res_bind].
  rewrite setitem_of_nat
    by (rewrite length_insert, length_app; simpl; rewrite length_app; simpl; lia).
  f_equal.
  replace (length l1) with (length l1 + 0)%nat at 2 by lia.
  rewrite insert_app_r. simpl.
  rewrite insert_app_r. simpl.
  replace (length l2) with (length l2 + 0)%nat at 1 by lia.
  rewrite insert_app_r. reflexivity.
Qed.

End SwapFacts.

Section SortFacts.
Context {A : Type} (closer : A -> A -> bool).

Local Abbreviation smaller pivot := (Forall (fun a => closer a pivot = true)).
Local Abbreviation larger pivot := (Forall (fun a => closer a pivot = false)).

(** The invariant of the partition loop.  Before the iteration at [j]
    the array reads [pre ++ Sm ++ Lg ++ rest ++ post]: [Sm] holds the
    elements found closer than the pivot, [Lg] the others, [rest] what is
    still to be examined; [i + 1] is the position where [Lg] starts. *)
Lemma partition_loop_spec (pivot : A) (pre post rest Sm Lg : list A) :
  smaller pivot Sm -> larger pivot Lg ->
  exists Sm' Lg',
    for_each
      (range2 (Z.of_nat (length pre + length Sm + length Lg))
              (Z.of_nat (length pre + length Sm + length Lg + length rest)))
      (Sort.partition_body closer pivot)
      ((Z.of_nat (length pre + length Sm) - 1)%Z,
       pre ++ Sm ++ Lg ++ rest ++ post)
    = Ret ((Z.of_nat (length pre + length Sm') - 1)%Z,
           pre ++ Sm' ++ Lg' ++ post)
    /\ Sm' ++ Lg' ≡ₚ Sm ++ Lg ++ rest
    /\ smaller pivot Sm' /\ larger pivot Lg'.
Proof.
  revert Sm Lg. induction rest as [|aj rest IH]; intros Sm Lg HS HL.
  - exists Sm, Lg. rewrite range2_nil by (simpl; lia). simpl.
    rewrite app_nil_r. done.
  - rewrite range2_cons by (simpl; lia). cbn [for_each Sort.partition_body].
    replace (pre ++ Sm ++ Lg ++ (aj :: rest) ++ post)
      with ((pre ++ Sm ++ Lg) ++ aj :: rest ++ post)
      by reassoc.
    replace (Z.of_nat (length pre + length Sm + length Lg))
      with (Z.of_nat (length (pre ++ Sm ++ Lg)))
      by (rewrite !length_app; lia).
    rewrite getitem_middle. cbn [mbind res_bind].
    destruct (closer aj pivot) eqn:Haj.
    + (* aj joins Sm: it is exchanged with the first element of Lg *)
      assert (Hswap :
        exists L1, L1 ≡ₚ Lg /\
          swap ((pre ++ Sm ++ Lg) ++ aj :: rest ++ post)
               (Z.of_nat (length pre + length Sm) - 1 + 1)
               (Z.of_nat (length (pre ++ Sm ++ Lg)))
          = Ret (pre ++ (Sm ++ [aj]) ++ L1 ++ rest ++ post)).
      { destruct Lg as [|l0 L0].
        - exists []. split; [done|].
          replace (Z.of_nat (length pre + length Sm) - 1 + 1)%Z
            with (Z.of_nat (length (pre ++ Sm ++ [])))
            by (rewrite !length_app; simpl; lia).
          rewrite swap_same by (rewrite !length_app; simpl; lia).
          f_equal. rewrite !app_nil_r. reassoc.
        - exists (L0 ++ [l0]).
          split; [symmetry; apply Permutation_cons_append|].
          replace ((pre ++ Sm ++ l0 :: L0) ++ aj :: rest ++ post)
            with ((pre ++ Sm) ++ l0 :: L0 ++ aj :: rest ++ post)
            by reassoc.
          replace (Z.of_nat (length pre + length Sm) - 1 + 1)%Z
            with (Z.of_nat (length (pre ++ Sm)))
            by (rewrite !length_app; lia).
          replace (Z.of_nat (length (pre ++ Sm ++ l0 :: L0)))
            with (Z.of_nat (length (pre ++ Sm) + S (length L0)))
            by (rewrite !length_app; simpl; lia).
          rewrite swap_middle. f_equal. reassoc. }
      destruct Hswap as (L1 & HL1 & ->). cbn [mbind res_bind].
      destruct (IH (Sm ++ [aj]) L1) as (Sm' & Lg' & Hrun & Hperm & HS' & HL').
      { apply Forall_app. split; [done|]. by constructor. }
      { by rewrite HL1. }
      exists Sm', Lg'. split; [|split; [|done]].
      * rewrite <- Hrun.
        f_equal; [f_equal; rewrite !length_app, (Permutation_length HL1);
                  simpl; lia|].
        apply (f_equal2 pair); [rewrite !length_app; simpl; lia | reassoc].
      * rewrite Hperm, HL1. rewrite <- !app_assoc. simpl.
        apply Permutation_app_head. apply Permutation_middle.
    + (* aj stays where it is and becomes the last element of Lg *)
      destruct (IH Sm (Lg ++ [aj])) as (Sm' & Lg' & Hrun & Hperm & HS' & HL').
      { done. }
      { apply Forall_app. split; [done|]. by constructor. }
      exists Sm', Lg'. split; [|split; [|done]].
      * rewrite bind_Ret, <- Hrun.
        f_equal; [f_equal; rewrite !length_app; simpl; lia|].
        apply (f_equal2 pair); [reflexivity | reassoc].
      * rewrite Hperm. rewrite <- ?app_assoc. reflexivity.
Qed.

(** [partition] on the segment [seg ++ [pivot]] that follows [pre]: the
    pivot ends between the closer elements and the others, and its
    position is returned. *)
Lemma partition_spec (pre seg post : list A) (pivot : A) :
  exists Sm Lg,
    Sort.partition closer (pre ++ seg ++ pivot :: post)
      (Z.of_nat (length pre)) (Z.of_nat (length pre + length seg))
    = Ret (Z.of_nat (length pre + length Sm),
           pre ++ Sm ++ pivot :: Lg ++ post)
    /\ Sm ++ Lg ≡ₚ seg /\ smaller pivot Sm /\ larger pivot Lg.
Proof.
  destruct (partition_loop_spec pivot pre (pivot :: post) seg [] [])
    as (Sm & Lg & Hrun & Hperm & HS & HL); [done..|].
  simpl in Hrun, Hperm. rewrite !Nat.add_0_r in Hrun.
  assert (Hswap :
    exists L1, L1 ≡ₚ Lg /\
      swap (pre ++ Sm ++ Lg ++ pivot :: post)
           (Z.of_nat (length pre + length Sm) - 1 + 1)
           (Z.of_nat (length pre + length seg))
      = Ret (pre ++ Sm ++ pivot :: L1 ++ post)).
  { assert (Hlen : (length seg = length Sm + length Lg)%nat)
      by (rewrite <- (Permutation_length Hperm), length_app; lia).
    destruct Lg as [|l0 L0].
    - exists []. split; [done|]. simpl in *.
      replace (Z.of_nat (length pre + length Sm) - 1 + 1)%Z
        with (Z.of_nat (length pre + length seg)) by lia.
      rewrite swap_same by (rewrite !length_app; simpl; lia).
      reflexivity.
    - exists (L0 ++ [l0]). split; [symmetry; apply Permutation_cons_append|].
      replace (pre ++ Sm ++ (l0 :: L0) ++ pivot :: post)
        with ((pre ++ Sm) ++ l0 :: L0 ++ pivot :: post) by reassoc.
      replace (Z.of_nat (length pre + length Sm) - 1 + 1)%Z
        with (Z.of_nat (length (pre ++ Sm)))
        by (rewrite !length_app; lia).
      replace (Z.of_nat (length pre + length seg))
        with (Z.of_nat (length (pre ++ Sm) + S (length L0)))
        by (rewrite !length_app; simpl in Hlen; lia).
      rewrite swap_middle. f_equal. reassoc. }
  destruct Hswap as (L1 & HL1 & Hswap).
  exists Sm, L1. split; [|split; [by rewrite HL1|split; [done|by rewrite HL1]]].
  unfold Sort.partition.
  replace (pre ++ seg ++ pivot :: post) with ((pre ++ seg) ++ pivot :: post)
    by reassoc.
  replace (Z.of_nat (length pre + length seg))
    with (Z.of_nat (length (pre ++ seg))) by (by rewrite length_app).
  rewrite getitem_middle. rewrite bind_Ret.
  replace ((pre ++ seg) ++ pivot :: post) with (pre ++ seg ++ pivot :: post)
    by reassoc.
  rewrite length_app, Hrun. rewrite bind_Ret.
  rewrite Hswap. rewrite bind_Ret. do 2 f_equal. lia.
Qed.

(** [closer] is a total preorder whenever it compares a key. *)
Hypothesis closer_total : forall a b, closer a b = false -> closer b a = true.
Hypothesis closer_trans :
  forall a b c, closer a b = true -> closer b c = true -> closer a c = true.

Local Abbreviation ascending := (StronglySorted (fun a b => closer a b = true)).

Lemma ascending_around_pivot (Sm Lg : list A) (pivot : A) :
  ascending Sm -> ascending Lg -> smaller pivot Sm -> larger pivot Lg ->
  ascending (Sm ++ pivot :: Lg).
Proof.
  intros HSm HLg Hs Hl.
  assert (Hpl : Forall (fun a => closer pivot a = true) Lg)
    by (eapply Forall_impl; [exact Hl|]; simpl; auto).
  apply StronglySorted_app_2; [|done|by apply SSorted_cons].
  intros a b Ha Hb.
  rewrite Forall_forall in Hs. specialize (Hs a Ha). simpl in Hs.
  apply elem_of_cons in Hb as [->|Hb]; [done|].
  rewrite Forall_forall in Hpl. eauto.
Qed.

(** [sort_agents] on the segment [seg] that follows [pre]: with a depth
    bound of at least the length of the segment it returns, only the
    segment is rearranged, and it comes out in ascending order. *)
Lemma sort_agents_spec (depth : nat) (pre seg post : list A) :
  (length seg <= depth)%nat ->
  exists seg',
    Sort.sort_agents closer depth (pre ++ seg ++ post)
      (Z.of_nat (length pre)) (Z.of_nat (length pre + length seg) - 1)
    = Ret (pre ++ seg' ++ post)
    /\ seg' ≡ₚ seg /\ ascending seg'.
Proof.
  revert pre seg post.
  induction depth as [|d IH]; intros pre seg post Hdepth.
  - destruct seg; [|simpl in Hdepth; lia]. exists []. simpl.
    destruct (Z.ltb_spec (Z.of_nat (length pre))
                (Z.of_nat (length pre + 0) - 1)); [lia|].
    repeat split; constructor.
  - destruct (decide (length seg <= 1)%nat) as [Hshort|Hlong].
    + exists seg. cbn [Sort.sort_agents].
      destruct (Z.ltb_spec (Z.of_nat (length pre))
                  (Z.of_nat (length pre + length seg) - 1)); [lia|].
      split; [reflexivity|]. split; [reflexivity|].
      destruct seg as [|a [|b seg]]; [constructor | | simpl in Hshort; lia].
      apply SSorted_cons; constructor.
    + destruct seg as [|a0 seg0] using rev_ind; [simpl in Hlong; lia|].
      clear IHseg0. rename a0 into pivot.
      rewrite length_app in Hdepth, Hlong. simpl in Hdepth, Hlong.
      cbn [Sort.sort_agents].
      destruct (Z.ltb_spec (Z.of_nat (length pre))
                  (Z.of_nat (length pre + length (seg0 ++ [pivot])) - 1))
        as [_|Hge]; [|rewrite length_app in Hge; simpl in Hge; lia].
      destruct (partition_spec pre seg0 post pivot)
        as (Sm & Lg & Hpart & Hperm & HS & HL).
      assert (Hlen : (length seg0 = length Sm + length Lg)%nat)
        by (rewrite <- (Permutation_length Hperm), length_app; lia).
      replace (pre ++ (seg0 ++ [pivot]) ++ post)
        with (pre ++ seg0 ++ pivot :: post) by reassoc.
      replace (Z.of_nat (length pre + length (seg0 ++ [pivot])) - 1)%Z
        with (Z.of_nat (length pre + length seg0))
        by (rewrite length_app; simpl; lia).
      rewrite Hpart, bind_Ret.
      destruct (IH pre Sm (pivot :: Lg ++ post))
        as (Sm' & Hrun1 & Hperm1 & Hsorted1); [lia|].
      rewrite Hrun1, bind_Ret.
      destruct (IH (pre ++ Sm' ++ [pivot]) Lg post)
        as (Lg' & Hrun2 & Hperm2 & Hsorted2); [lia|].
      pose proof (Permutation_length Hperm1) as Hlen1.
      replace (pre ++ Sm' ++ pivot :: Lg ++ post)
        with ((pre ++ Sm' ++ [pivot]) ++ Lg ++ post) by reassoc.
      replace (Z.of_nat (length pre + length Sm) + 1)%Z
        with (Z.of_nat (length (pre ++ Sm' ++ [pivot])))
        by (rewrite !length_app; simpl; lia).
      replace (Z.of_nat (length pre + length seg0))
        with (Z.of_nat (length (pre ++ Sm' ++ [pivot]) + length Lg) - 1)%Z
        by (rewrite !length_app; simpl; lia).
      rewrite Hrun2.
      exists (Sm' ++ pivot :: Lg'). split; [f_equal; reassoc|]. split.
      * rewrite Hperm1, Hperm2, <- Hperm.
        rewrite <- Permutation_middle, Permutation_cons_append.
        by rewrite <- app_assoc.
      * apply ascending_around_pivot; [done|done| |].
        -- by rewrite Hperm1.
        -- by rewrite Hperm2.
Qed.

End SortFacts.

(** ** Observations *)

Lemma intruder_slots_S (self : Aircraft) (intruders : list Aircraft) (k : nat) :
  intruder_slots self intruders (S k)
  = intruder_slots self intruders k
    ++ match intruders !! k with
       | Some intr => get_pairwise_obs self intr
       | None => TERM_PAIRWISE_OBS
       end.
Proof.
  unfold intruder_slots. destruct (intruders !! k) as [intr|] eqn:Hk.
  - pose proof (lookup_lt_Some _ _ _ Hk) as Hlt.
    rewrite (take_S_r _ _ _ Hk), map_app, concat_app.
    replace (S k - length intruders)%nat with 0%nat by lia.
    replace (k - length intruders)%nat with 0%nat by lia.
    simpl. by rewrite !app_nil_r.
  - apply lookup_ge_None in Hk.
    rewrite !take_ge by lia.
    replace (S k - length intruders)%nat
      with (S (k - length intruders)) by lia.
    rewrite replicate_S_end, concat_app. simpl.
    by rewrite app_assoc.
Qed.

Lemma intruder_slots_length (self : Aircraft) (intruders : list Aircraft)
    (k : nat) :
  length (intruder_slots self intruders k) = (4 * k)%nat.
Proof.
  induction k as [|k IH]; [reflexivity|].
  rewrite intruder_slots_S, length_app, IH.
  destruct (intruders !! k); simpl; lia.
Qed.

(** The loop over the sensor slots. *)
Lemma closest_loop_spec (self : Aircraft) (intruders : list Aircraft)
    (k : nat) (o : list R) :
  for_each (range (Z.of_nat k)) (closest_body self intruders) o
  = Ret (o ++ intruder_slots self intruders k).
Proof.
  induction k as [|k IH].
  - simpl. unfold intruder_slots. simpl. by rewrite app_nil_r.
  - unfold range in *.
    replace (Z.of_nat (S k)) with (Z.of_nat k + 1)%Z by lia.
    rewrite range2_snoc, for_each_app, IH by lia.
    rewrite bind_Ret. cbn [for_each]. unfold closest_body.
    rewrite intruder_slots_S.
    destruct (Z.ltb_spec (Z.of_nat k) (Z.of_nat (length intruders)))
      as [Hlt|Hge].
    + destruct (lookup_lt_is_Some_2 intruders k) as [intr Hk]; [lia|].
      rewrite (getitem_of_nat _ _ _ Hk), Hk. simpl. by rewrite app_assoc.
    + rewrite (proj2 (lookup_ge_None intruders k)) by lia.
      simpl. by rewrite app_assoc.
Qed.

Lemma closer_total (self a b : Aircraft) :
  closer a b self = false -> closer b a self = true.
Proof.
  unfold closer.
  destruct (Rleb (agent_dist a self) (agent_dist b self)) eqn:E1;
    [discriminate|].
  destruct (Rleb (agent_dist b self) (agent_dist a self)) eqn:E2; [done|].
  apply Rleb_false in E1, E2. lra.
Qed.

Lemma closer_true (self a b : Aircraft) :
  closer a b self = true <-> agent_dist a self <= agent_dist b self.
Proof.
  unfold closer.
  destruct (Rleb (agent_dist a self) (agent_dist b self)) eqn:E.
  - apply Rleb_true in E. tauto.
  - apply Rleb_false in E. split; [discriminate | lra].
Qed.

Lemma closer_trans (self a b c : Aircraft) :
  closer a b self = true -> closer b c self = true -> closer a c self = true.
Proof. rewrite !closer_true. lra. Qed.

(** Sorting the intruders of [self]: the call made by [get_observation]
    returns a permutation in ascending distance from [self]. *)
Lemma sort_intruders (self : Aircraft) (intruders : list Aircraft) :
  exists ranked,
    Sort.sort_agents (fun a b => closer a b self) (length intruders)
      intruders 0 (Z.of_nat (length intruders) - 1)
    = Ret ranked
    /\ ranked ≡ₚ intruders
    /\ StronglySorted (fun a b => agent_dist a self <= agent_dist b self)
                      ranked.
Proof.
  destruct (sort_agents_spec (fun a b => closer a b self)
              (closer_total self) (closer_trans self)
              (length intruders) [] intruders [])
    as (ranked & Hrun & Hperm & Hsorted); [lia|].
  simpl in Hrun. rewrite !app_nil_r in Hrun.
  exists ranked. split; [exact Hrun|]. split; [exact Hperm|].
  clear Hrun Hperm.
  induction Hsorted as [|a l _ IH Hall]; [constructor|].
  constructor; [exact IH|].
  eapply Forall_impl; [exact Hall|]. simpl. intros b. apply closer_true.
Qed.

(** In 'closest' mode with [k >= 0] sensor slots [get_observation]
    returns a vector of length [4 + 4 k]: the own-state block, then the
    pairwise blocks of the [k] closest intruders in ascending distance
    (all of them when there are fewer than [k]), then the sentinel block
    [[1,1,1,1]] in every slot that is left.  The intruders are the
    aircraft of the environment at a distance in (0, SENSING_RANGE]. *)
Lemma get_observation_closest_spec (env : Env) (self : Aircraft) :
  sensor_mode env = "closest" -> (0 <= sensor_capacity env)%Z ->
  exists (o : list R) (ranked : list Aircraft),
    get_observation env self = Ret o
    /\ Z.of_nat (length o) = (4 + 4 * sensor_capacity env)%Z
    /\ ranked ≡ₚ intruders_of env self
    /\ (forall a, a ∈ ranked <->
          a ∈ aircraft env /\ 0 < agent_dist self a <= SENSING_RANGE)
    /\ StronglySorted (fun a b => agent_dist a self <= agent_dist b self)
                      ranked
    /\ o = own_obs self
           ++ concat (map (get_pairwise_obs self)
                          (take (Z.to_nat (sensor_capacity env)) ranked))
           ++ concat (replicate
                        (Z.to_nat (sensor_capacity env) - length ranked)
                        [1; 1; 1; 1]).
Proof.
  intros Hmode Hk.
  destruct (sort_intruders self (intruders_of env self))
    as (ranked & Hsort & Hperm & Hsorted).
  exists (own_obs self
          ++ intruder_slots self ranked (Z.to_nat (sensor_capacity env))),
         ranked.
  assert (Hlen : Z.of_nat (length (own_obs self ++ intruder_slots self ranked
                   (Z.to_nat (sensor_capacity env))))
                 = (4 + 4 * sensor_capacity env)%Z).
  { rewrite length_app, intruder_slots_length. simpl. lia. }
  split; [|split; [exact Hlen|split; [exact Hperm|split; [|split;
    [exact Hsorted|reflexivity]]]]].
  - unfold get_observation. rewrite Hmode. simpl String.eqb. cbv iota.
    set (k := sensor_capacity env) in *.
    assert (Hloop :
      (if (0 <? length (intruders_of env self))%nat
       then intruders ← Sort.sort_agents (fun a b => closer a b self)
                          (length (intruders_of env self))
                          (intruders_of env self) 0
                          (Z.of_nat (length (intruders_of env self)) - 1)%Z;
            for_each (range k) (closest_body self intruders) (own_obs self)
       else Ret (own_obs self
                 ++ concat (replicate (Z.to_nat k) TERM_PAIRWISE_OBS)))
      = Ret (own_obs self ++ intruder_slots self ranked (Z.to_nat k))).
    { destruct (Nat.ltb_spec 0 (length (intruders_of env self))) as [Hpos|Hz].
      - rewrite Hsort, bind_Ret.
        replace k with (Z.of_nat (Z.to_nat k)) at 1 by lia.
        apply closest_loop_spec.
      - assert (Hnil : intruders_of env self = [])
          by (apply length_zero_iff_nil; lia).
        rewrite Hnil in Hperm. apply Permutation_nil_r in Hperm. subst ranked.
        unfold intruder_slots. rewrite take_nil. simpl.
        by rewrite Nat.sub_0_r. }
    rewrite Hloop, bind_Ret. unfold assert.
    rewrite Hlen, Z.eqb_refl. reflexivity.
  - intros a. rewrite Hperm. unfold intruders_of.
    rewrite list_elem_of_In, filter_In, <- list_elem_of_In.
    unfold in_range. rewrite andb_true_iff, Rltb_true, Rleb_true. tauto.
Qed.

(** C8.  In 'closest' mode with [k >= 0] sensor slots [get_observation]
    returns a vector of length [4 + 4 k]: the own-state block, then the
    pairwise blocks of the [k] closest intruders in ascending distance
    (all of them when there are fewer than [k]), then the sentinel block
    [[1,1,1,1]] in every slot that is left.  The intruders are the
    aircraft of the environment at a distance in (0, SENSING_RANGE]. *)
Theorem get_observation_closest (env : Env) (self : Aircraft) :
  sensor_mode env = "closest" -> (0 <= sensor_capacity env)%Z ->
  exists (o : list R) (ranked : list Aircraft),
    get_observation env self = Ret o
    /\ Z.of_nat (length o) = (4 + 4 * sensor_capacity env)%Z
    /\ ranked ≡ₚ intruders_of env self
    /\ (forall a, a ∈ ranked <->
          a ∈ aircraft env /\ 0 < agent_dist self a <= SENSING_RANGE)
    /\ StronglySorted (fun a b => agent_dist a self <= agent_dist b self)
                      ranked
    /\ o = own_obs self
           ++ concat (map (get_pairwise_obs self)
                          (take (Z.to_nat (sensor_capacity env)) ranked))
           ++ concat (replicate
                        (Z.to_nat (sensor_capacity env) - length ranked)
                        [1; 1; 1; 1]).
Proof. apply get_observation_closest_spec. Qed.

Lemma get_observation_closest_witness :
  exists o, get_observation sample_env sample_aircraft = Ret o
            /\ length o = 20%nat.
Proof.
  destruct (get_observation_closest sample_env sample_aircraft)
    as (o & ranked & Hrun & Hlen & _).
  - reflexivity.
  - change (sensor_capacity sample_env) with 4%Z. lia.
  - exists o. split; [exact Hrun|].
    change (sensor_capacity sample_env) with 4%Z in Hlen. lia.
Defined.

(** ** Stepping the environment *)

Lemma for_each_preserves {A S : Type} (Q : S -> Prop) (xs : list A)
    (body : A -> S -> res S) (s s' : S) :
  (forall a s1 s2, Q s1 -> body a s1 = Ret s2 -> Q s2) ->
  Q s -> for_each xs body s = Ret s' -> Q s'.
Proof.
  intros Hbody. revert s. induction xs as [|a xs IH]; intros s Hs Hrun.
  - simpl in Hrun. by injection Hrun as <-.
  - simpl in Hrun. apply bind_inv in Hrun as (s1 & H1 & Hrun). eauto.
Qed.

Lemma for_each_range_ind {S : Type} (P : nat -> S -> Prop)
    (body : Z -> S -> res S) (n : nat) (s : S) :
  P 0%nat s ->
  (forall i s1, (i < n)%nat -> P i s1 ->
     exists s2, body (Z.of_nat i) s1 = Ret s2 /\ P (Datatypes.S i) s2) ->
  exists s', for_each (range (Z.of_nat n)) body s = Ret s' /\ P n s'.
Proof.
  intros H0 Hstep. induction n as [|n IH].
  - exists s. auto.
  - destruct IH as (s1 & Hrun & Hn); [intros; apply Hstep; (lia || done)|].
    destruct (Hstep n s1) as (s2 & Hbody & HSn); [lia|done|].
    exists s2. split; [|done]. unfold range in *.
    replace (Z.of_nat (Datatypes.S n)) with (Z.of_nat n + 1)%Z by lia.
    rewrite range2_snoc, for_each_app, Hrun by lia.
    rewrite bind_Ret. simpl. by rewrite Hbody.
Qed.

(** The flag returned by [step] compares the clock with the module
    constant [MAX_TIME_STEPS]; the environment's own [max_time_steps] is
    not read. *)
Lemma step_done_flag (env env' : Env) (actions : list R) (r : StepResult) :
  step env actions = Ret (r, env') ->
  step_done r
  = (Z.of_nat (length (aircraft env)) =? 0)%Z || (t env >? MAX_TIME_STEPS)%Z.
Proof.
  unfold step. intros H.
  apply bind_inv in H as (_ & _ & H).
  apply bind_inv in H as (act_vec & _ & H).
  apply bind_inv in H as (acs & Happly & H).
  assert (Hlen : length acs = length (aircraft env)).
  { eapply (for_each_preserves
              (fun l : list Aircraft => length l = length (aircraft env)));
      [| reflexivity | exact Happly].
    intros i s1 s2 Hs1 Hbody. simpl in Hbody.
    apply bind_inv in Hbody as (a & _ & Hbody).
    apply bind_inv in Hbody as (act & _ & Hbody).
    apply bind_inv in Hbody as (a' & _ & Hbody).
    apply setitem_length in Hbody. congruence. }
  apply bind_inv in H as ([acs' o] & _ & H).
  apply bind_inv in H as (_ & _ & H).
  apply bind_inv in H as (rewards & _ & H).
  rewrite <- Hlen.
  destruct (String.eqb _ _); by injection H as <- _.
Qed.

Lemma map_res_total {A B : Type} (f : A -> res B) (l : list A) :
  Forall (fun a => exists b, f a = Ret b) l -> exists bs, map_res f l = Ret bs.
Proof.
  induction 1 as [|a l [b Hb] _ [bs Hbs]]; simpl; [eauto|].
  rewrite Hb, bind_Ret, Hbs. eauto.
Qed.

Lemma elem_of_range (n i : Z) : i ∈ range n -> (0 <= i < n)%Z.
Proof.
  unfold range, range2. rewrite list_elem_of_fmap.
  intros (k & -> & Hk). apply elem_of_seq in Hk. lia.
Qed.

(** [nmac] returns on an observation of the asserted length. *)
Lemma nmac_total (env : Env) (self : Aircraft) :
  (0 <= sensor_capacity env)%Z ->
  Z.of_nat (length (obs self)) = (4 + 4 * sensor_capacity env)%Z ->
  exists nm, nmac env self = Ret nm.
Proof.
  intros Hk Hlen. unfold nmac.
  destruct (map_res_total (getitem (obs self))
              (map (fun i => (4 * (i + 1))%Z) (range (sensor_capacity env))))
    as [ds Hds].
  - rewrite Forall_map. apply Forall_forall. intros i Hi. simpl.
    apply elem_of_range in Hi. apply getitem_total. lia.
  - rewrite Hds. simpl. eauto.
Qed.

Lemma reward_total (env : Env) (self : Aircraft) :
  (0 <= sensor_capacity env)%Z ->
  Z.of_nat (length (obs self)) = (4 + 4 * sensor_capacity env)%Z ->
  exists r, reward env self = Ret r.
Proof.
  intros Hk Hlen. destruct (nmac_total env self Hk Hlen) as [nm Hnm].
  rewrite (reward_additive env self nm Hnm). eauto.
Qed.

Lemma chunks_rows (n : nat) (a : list R) :
  length a = (2 * n)%nat ->
  length (chunks n 2 a) = n
  /\ Forall (fun row => length row = 2%nat) (chunks n 2 a).
Proof.
  revert a. induction n as [|n IH]; intros a Ha; simpl.
  - split; [reflexivity | constructor].
  - destruct (IH (drop 2 a)) as [IH1 IH2]; [rewrite length_drop; lia|].
    split; [by rewrite IH1|]. constructor; [|exact IH2].
    rewrite length_take. lia.
Qed.

Lemma apply_action_total (self : Aircraft) (action : list R) :
  length action = 2%nat -> exists self', apply_action self action = Ret self'.
Proof.
  intros H. destruct action as [|a0 [|a1 [|]]]; try discriminate.
  unfold apply_action.
  change ACTION_IND_ACC with (Z.of_nat 0).
  change ACTION_IND_TURN with (Z.of_nat 1).
  rewrite (getitem_of_nat _ 0 a0), (getitem_of_nat _ 1 a1) by reflexivity.
  simpl. eauto.
Qed.

(** With one action pair per configured agent, at least that many
    aircraft, the 'closest' sensor and rendering off, [step] returns. *)
Lemma step_returns (env : Env) (actions : list R) (n : nat) :
  n_agents env = Z.of_nat n ->
  (n <= length (aircraft env))%nat ->
  length actions = (2 * n)%nat ->
  sensor_mode env = "closest" ->
  (0 <= sensor_capacity env)%Z ->
  render_option env = false ->
  exists r env', step env actions = Ret (r, env').
Proof.
  intros Hn Hpop Hact Hmode Hk Hrender. unfold step. rewrite Hn.
  destruct (Z.ltb_spec (Z.of_nat n) 0) as [|_]; [lia|]. rewrite bind_Ret.
  destruct (chunks_rows n actions Hact) as [Hrows Hrow].
  unfold np_reshape, ACTION_DIM.
  replace (Z.of_nat (length actions) =? Z.of_nat n * 2)%Z with true
    by (symmetry; apply Z.eqb_eq; lia).
  replace (0 <=? Z.of_nat n)%Z with true by (symmetry; apply Z.leb_le; lia).
  cbn [andb Z.leb Z.compare]. rewrite bind_Ret, Nat2Z.id.
  change (Z.to_nat 2) with 2%nat.
  (* the dynamics *)
  edestruct (for_each_range_ind
    (fun (_ : nat) (acs : list Aircraft) =>
       length acs = length (aircraft env))) as (acs & -> & Hlen);
    [reflexivity| |].
  { intros i acs Hi Hlen.
    destruct (getitem_total acs (Z.of_nat i)) as [a Ha]; [lia|].
    destruct (getitem_total (chunks n 2 actions) (Z.of_nat i))
      as [act Hact_i]; [lia|].
    assert (Hact2 : length act = 2%nat).
    { unfold getitem in Hact_i. rewrite py_index_of_nat in Hact_i by lia.
      simpl in Hact_i.
      destruct (chunks n 2 actions !! i) as [row|] eqn:Ei; [|discriminate].
      injection Hact_i as <-.
      rewrite Forall_forall in Hrow. apply Hrow.
      eapply list_elem_of_lookup_2, Ei. }
    destruct (apply_action_total a act Hact2) as [a' Ha'].
    rewrite Ha, bind_Ret, Hact_i, bind_Ret, Ha', bind_Ret.
    rewrite setitem_of_nat by lia.
    eexists. split; [reflexivity|]. by rewrite length_insert. }
  rewrite bind_Ret.
  (* the observations *)
  edestruct (for_each_range_ind
    (fun (i : nat) (s : list Aircraft * list (list R)) =>
       length s.1 = length (aircraft env)
       /\ forall j a, (j < i)%nat -> s.1 !! j = Some a ->
            Z.of_nat (length (obs a)) = (4 + 4 * sensor_capacity env)%Z))
    as ([acs' o] & -> & Hlen' & Hobs);
    [split; [exact Hlen | intros; lia] | |].
  { intros i [acs1 o1] Hi [Hlen1 Hobs1]. simpl in Hlen1, Hobs1.
    destruct (getitem_total acs1 (Z.of_nat i)) as [a Ha]; [lia|].
    destruct (get_observation_closest_spec (set_aircraft env acs1) a)
      as (agent_obs & _ & Hrun & Hobs_len & _); [done..|].
    rewrite Ha, bind_Ret, Hrun, bind_Ret.
    rewrite setitem_of_nat by lia. rewrite bind_Ret.
    eexists. split; [reflexivity|]. simpl.
    split; [by rewrite length_insert|].
    intros j b Hj Hb. destruct (decide (j = i)) as [->|Hne].
    - rewrite list_lookup_insert_eq in Hb by lia.
      injection Hb as <-. exact Hobs_len.
    - rewrite list_lookup_insert_ne in Hb by done.
      apply (Hobs1 j); [lia | done]. }
  rewrite bind_Ret. simpl in Hlen', Hobs.
  cbn [render_option set_aircraft]. rewrite Hrender, bind_Ret.
  (* the rewards *)
  edestruct (for_each_range_ind
    (fun (_ : nat) (rewards : list R) => length rewards = n))
    as (rewards & -> & _); [by rewrite repeat_length| |].
  { intros i rewards Hi Hrew.
    destruct (getitem_total acs' (Z.of_nat i)) as [a Ha]; [lia|].
    assert (Hlook : acs' !! i = Some a).
    { unfold getitem in Ha. rewrite py_index_of_nat in Ha by lia.
      simpl in Ha. destruct (acs' !! i); [|discriminate]. congruence. }
    destruct (reward_total (set_aircraft env acs') a) as [r Hr];
      [done | by apply (Hobs i a); [lia|] |].
    rewrite Ha, bind_Ret, Hr, bind_Ret.
    rewrite setitem_of_nat by lia.
    eexists. split; [reflexivity|]. by rewrite length_insert. }
  rewrite bind_Ret.
  destruct (String.eqb _ _); eauto.
Qed.

(** C4.  Whenever [step] returns, its flag is true exactly when the
    collection is empty or the clock exceeds the constant 2000.  In an
    environment configured with [max_time_steps = 100] whose clock reads
    150 and which holds one aircraft, [step] returns with the flag
    false. *)
Theorem step_done_uses_module_constant :
  (forall env actions r env',
     step env actions = Ret (r, env') ->
     step_done r = true
     <-> (aircraft env = [] \/ (t env > 2000)%Z))
  /\ max_time_steps env_late = 100%Z
  /\ t env_late = 150%Z
  /\ aircraft env_late = [sample_observed]
  /\ exists r env',
       step env_late [0; 0] = Ret (r, env') /\ step_done r = false.
Proof.
  split; [|repeat split].
  - intros env actions r env' Hstep.
    rewrite (step_done_flag _ _ _ _ Hstep), orb_true_iff.
    unfold MAX_TIME_STEPS. rewrite Z.eqb_eq, Z.gtb_gt.
    destruct (aircraft env); simpl; split; intros [H|H]; auto; try lia;
      discriminate.
  - assert (Hk : (0 <= sensor_capacity env_late)%Z)
      by (change (sensor_capacity env_late) with 4%Z; lia).
    destruct (step_returns env_late [0; 0] 1) as (r & env' & Hstep);
      [reflexivity | simpl; lia | reflexivity | reflexivity | exact Hk
      | reflexivity |].
    exists r, env'. split; [exact Hstep|].
    by rewrite (step_done_flag _ _ _ _ Hstep).
Qed.

(** ** Further properties of the geometry and of the aircraft *)

Lemma py_mod_add_period (a b : R) (k : Z) :
  b <> 0 -> py_mod (a + IZR k * b) b = py_mod a b.
Proof.
  intros Hb. unfold py_mod.
  replace ((a + IZR k * b) / b) with (a / b + IZR k) by (field; exact Hb).
  rewrite Zfloor_addz, plus_IZR. ring.
Qed.

(** X1.  [norm_angle] takes its values in [[-pi, pi)] and has period
    [2 pi]. *)
Theorem norm_angle_range_and_period (angle : R) :
  - PI <= norm_angle angle < PI
  /\ forall k : Z, norm_angle (angle + 2 * PI * IZR k) = norm_angle angle.
Proof.
  split; [apply norm_angle_bounds|].
  intros k. unfold norm_angle. pose proof PI_RGT_0.
  replace (angle + 2 * PI * IZR k + PI)
    with (angle + PI + IZR k * (2 * PI)) by ring.
  rewrite py_mod_add_period by lra. reflexivity.
Qed.

(** X2.  [sort_agents(ref, arr, 0, len(arr) - 1)] returns for every list of
    aircraft and every reference, and leaves a permutation of [arr] in
    non-decreasing distance from [ref]. *)
Theorem sort_agents_sorts (ref : Aircraft) (arr : list Aircraft) :
  exists ranked,
    Sort.sort_agents (fun a b => closer a b ref) (length arr) arr 0
                     (Z.of_nat (length arr) - 1)
    = Ret ranked
    /\ ranked ≡ₚ arr
    /\ StronglySorted (fun a b => agent_dist a ref <= agent_dist b ref) ranked.
Proof. apply sort_intruders. Qed.

(** ** The constant-population branch of [n_agents_control] *)

Lemma Aircraft_init_total (env : Env) (g : RandomState) :
  scenario_ready env -> (0 <= sensor_capacity env)%Z ->
  exists a g', Aircraft_init env g = Ret (a, g').
Proof.
  intros Hready Hk. unfold Aircraft_init.
  assert (Hassert : forall o4 : list R, length o4 = 4%nat ->
            assert (Z.of_nat (length (o4 ++ repeat 1%R
                      (Z.to_nat (4 * sensor_capacity env))))
                    =? 4 + 4 * sensor_capacity env)%Z = Ret tt).
  { intros o4 H4. rewrite length_app, repeat_length, H4.
    replace (Z.of_nat (4 + Z.to_nat (4 * sensor_capacity env)))
      with (4 + 4 * sensor_capacity env)%Z by lia.
    by rewrite Z.eqb_refl. }
  destruct Hready as [[Hmode Hr] | [Hmode | Hmode]]; rewrite Hmode;
    simpl String.eqb; cbv iota; unfold random_uniform.
  - destruct (circle_radius env) as [r|]; [|done].
    cbv beta iota zeta. rewrite bind_Ret. cbv beta iota.
    rewrite Hassert by reflexivity. rewrite bind_Ret. eauto.
  - cbv beta iota zeta. rewrite bind_Ret. cbv beta iota.
    rewrite Hassert by reflexivity. rewrite bind_Ret. eauto.
  - cbv beta iota zeta. rewrite bind_Ret. cbv beta iota.
    rewrite Hassert by reflexivity. rewrite bind_Ret. eauto.
Qed.

Lemma list_insert_at_delete {A : Type} (arr : list A) (i : nat) (a : A) :
  (i < length arr)%nat ->
  list_insert_at (delete i arr) (Z.of_nat i) a = <[i:=a]> arr.
Proof.
  intros Hi. unfold list_insert_at.
  destruct (Z.ltb_spec (Z.of_nat i) 0) as [|_]; [lia|].
  rewrite length_delete by (by apply lookup_lt_is_Some_2).
  replace (Z.to_nat (Z.min (Z.of_nat i) (Z.of_nat (length arr - 1))))
    with i by lia.
  rewrite delete_take_drop, insert_take_drop by done.
  rewrite take_app_le, drop_app_ge by (rewrite length_take; lia).
  rewrite take_take, length_take.
  replace (i `min` i)%nat with i by lia.
  replace (i - i `min` length arr)%nat with 0%nat by lia.
  reflexivity.
Qed.

Lemma delitem_of_nat {A : Type} (arr : list A) (i : nat) :
  (i < length arr)%nat -> delitem arr (Z.of_nat i) = Ret (delete i arr).
Proof. intros Hi. unfold delitem. by rewrite py_index_of_nat. Qed.

(** The replacement loop: every position keeps its aircraft when that
    has not arrived and receives a freshly constructed one when it
    has. *)
Lemma replace_loop_spec (env : Env) (g : RandomState) :
  scenario_ready env -> (0 <= sensor_capacity env)%Z ->
  exists acs g',
    for_each (range (Z.of_nat (length (aircraft env))))
             (replace_body env) (aircraft env, g)
    = Ret (acs, g')
    /\ length acs = length (aircraft env)
    /\ forall j a, aircraft env !! j = Some a ->
         if arrival a
         then exists a', acs !! j = Some a' /\ freshly_constructed env a'
         else acs !! j = Some a.
Proof.
  intros Hready Hk.
  destruct (for_each_range_ind
    (fun (i : nat) (s : list Aircraft * RandomState) =>
       length s.1 = length (aircraft env)
       /\ (forall j, (i <= j)%nat -> s.1 !! j = aircraft env !! j)
       /\ (forall j a, (j < i)%nat -> aircraft env !! j = Some a ->
             if arrival a
             then exists a', s.1 !! j = Some a' /\ freshly_constructed env a'
             else s.1 !! j = Some a))
    (replace_body env) (length (aircraft env)) (aircraft env, g))
    as ([acs g'] & Hrun & Hlen & _ & Hdone).
  - simpl. split; [done|]. split; [done|]. intros; lia.
  - intros i [acs1 g1] Hi (Hlen1 & Hrest & Hdone). simpl in *.
    destruct (lookup_lt_is_Some_2 (aircraft env) i Hi) as [a Ha].
    assert (Ha1 : acs1 !! i = Some a) by (rewrite Hrest; [done|lia]).
    rewrite (getitem_of_nat _ _ _ Ha1), bind_Ret.
    destruct (arrival a) eqn:Harr.
    + rewrite delitem_of_nat, bind_Ret by lia.
      destruct (Aircraft_init_total (set_aircraft env (delete i acs1)) g1)
        as (fresh & g2 & Hinit); [done..|].
      rewrite Hinit, bind_Ret. rewrite list_insert_at_delete by lia.
      eexists. split; [reflexivity|]. simpl.
      split; [by rewrite length_insert|]. split.
      * intros j Hj. rewrite list_lookup_insert_ne by lia. apply Hrest. lia.
      * intros j b Hj Hb. destruct (decide (j = i)) as [->|Hne].
        -- assert (b = a) as -> by congruence. rewrite Harr.
           exists fresh. split; [apply list_lookup_insert_eq; lia|].
           by exists (delete i acs1), g1, g2.
        -- pose proof (Hdone j b ltac:(lia) Hb) as Hj'.
           destruct (arrival b).
           ++ destruct Hj' as (a' & Ha' & Hfresh). exists a'.
              by rewrite list_lookup_insert_ne by done.
           ++ by rewrite list_lookup_insert_ne by done.
    + eexists. split; [reflexivity|]. simpl.
      split; [done|]. split.
      * intros j Hj. apply Hrest. lia.
      * intros j b Hj Hb. destruct (decide (j = i)) as [->|Hne].
        -- assert (b = a) as -> by congruence. by rewrite Harr.
        -- apply Hdone; [lia|done].
  - exists acs, g'. split; [exact Hrun|]. split; [exact Hlen|].
    intros j a Ha. apply Hdone; [|done]. by eapply lookup_lt_Some.
Qed.

(** X3.  When the population is held constant and the scenario attributes are
    in place, [n_agents_control] returns; the collection keeps its
    length, every aircraft that has not arrived stays at its position,
    and every arrived one is replaced at its position by a freshly
    constructed aircraft. *)
Theorem n_agents_control_constant (env : Env) (g : RandomState) :
  constant_n_agents env = true ->
  scenario_ready env -> (0 <= sensor_capacity env)%Z ->
  exists env' g',
    n_agents_control env g = Ret (env', g')
    /\ length (aircraft env') = length (aircraft env)
    /\ forall j a, aircraft env !! j = Some a ->
         if arrival a
         then exists a', aircraft env' !! j = Some a'
                         /\ freshly_constructed env a'
         else aircraft env' !! j = Some a.
Proof.
  intros Hc Hready Hk. unfold n_agents_control. rewrite Hc.
  destruct (replace_loop_spec env g Hready Hk)
    as (acs & g' & Hrun & Hlen & Hspec).
  rewrite Hrun, bind_Ret. exists (set_aircraft env acs), g'.
  split; [reflexivity|]. split; [exact Hlen | exact Hspec].
Qed.

Lemma n_agents_control_constant_witness :
  exists env' g',
    n_agents_control env_constant sample_random = Ret (env', g')
    /\ length (aircraft env') = 2%nat.
Proof.
  destruct (n_agents_control_constant env_constant sample_random)
    as (env' & g' & Hrun & Hlen & _).
  - reflexivity.
  - right. right. reflexivity.
  - change (sensor_capacity env_constant) with 4%Z. lia.
  - exists env', g'. split; [exact Hrun | exact Hlen].
Defined.

(** ** Further properties of [step], [nmac] and the standardizer *)

(** X5.  A step that returns has advanced the clock by one and has kept the
    size of the collection and the configured limits. *)
Theorem step_advances_clock (env env' : Env) (actions : list R)
    (r : StepResult) :
  step env actions = Ret (r, env') ->
  t env' = (t env + 1)%Z
  /\ length (aircraft env') = length (aircraft env)
  /\ n_agents env' = n_agents env
  /\ max_time_steps env' = max_time_steps env.
Proof.
  unfold step. intros H.
  apply bind_inv in H as (_ & _ & H).
  apply bind_inv in H as (act_vec & _ & H).
  apply bind_inv in H as (acs & Happly & H).
  assert (Hlen : length acs = length (aircraft env)).
  { eapply (for_each_preserves
              (fun l : list Aircraft => length l = length (aircraft env)));
      [| reflexivity | exact Happly].
    intros i s1 s2 Hs1 Hbody. simpl in Hbody.
    apply bind_inv in Hbody as (a & _ & Hbody).
    apply bind_inv in Hbody as (act & _ & Hbody).
    apply bind_inv in Hbody as (a' & _ & Hbody).
    apply setitem_length in Hbody. congruence. }
  apply bind_inv in H as ([acs' o] & Hobs & H).
  assert (Hlen' : length acs' = length (aircraft env)).
  { apply (for_each_preserves
             (fun s : list Aircraft * list (list R) =>
                length s.1 = length (aircraft env))) in Hobs; [done| |done].
    intros i [l1 o1] [l2 o2] Hs1 Hbody. simpl in *.
    apply bind_inv in Hbody as (a & _ & Hbody).
    apply bind_inv in Hbody as (ao & _ & Hbody).
    apply bind_inv in Hbody as (l3 & Hset & Hbody).
    injection Hbody as <- _.
    apply setitem_length in Hset. congruence. }
  apply bind_inv in H as (_ & _ & H).
  apply bind_inv in H as (rewards & _ & H).
  destruct (String.eqb _ _); injection H as _ <-; simpl; auto.
Qed.

Lemma step_advances_clock_witness :
  exists r env', step env_late [0; 0] = Ret (r, env') /\ t env' = 151%Z.
Proof.
  assert (Hk : (0 <= sensor_capacity env_late)%Z)
    by (change (sensor_capacity env_late) with 4%Z; lia).
  destruct (step_returns env_late [0; 0] 1) as (r & env' & Hstep);
    [reflexivity | simpl; lia | reflexivity | reflexivity | exact Hk
    | reflexivity |].
  exists r, env'. split; [exact Hstep|].
  destruct (step_advances_clock env_late env' [0; 0] r Hstep) as [Ht _].
  exact Ht.
Defined.

Lemma map_res_inv {A B : Type} (f : A -> res B) (l : list A) (bs : list B) :
  map_res f l = Ret bs -> Forall2 (fun a b => f a = Ret b) l bs.
Proof.
  revert bs. induction l as [|a l IH]; intros bs H; simpl in H.
  - injection H as <-. constructor.
  - apply bind_inv in H as (b & Hb & H).
    apply bind_inv in H as (bs' & Hbs & H). injection H as <-.
    constructor; auto.
Qed.

(** X6.  [nmac] is true exactly when one of the [sensor_capacity] intruder
    distance entries of the observation, at the positions [4 (i + 1)], is
    below [150 / 1000]. *)
Theorem nmac_threshold (env : Env) (self : Aircraft) (nm : bool) :
  nmac env self = Ret nm ->
  nm = true <->
  exists i d, (0 <= i < sensor_capacity env)%Z
              /\ getitem (obs self) (4 * (i + 1))%Z = Ret d
              /\ d < 150 / 1000.
Proof.
  unfold nmac. intros H. apply bind_inv in H as (ds & Hds & H).
  injection H as <-. apply map_res_inv in Hds.
  rewrite existsb_exists. unfold NMAC_RANGE, SENSING_RANGE. split.
  - intros (d & Hin & Hlt). apply Rltb_true in Hlt.
    apply list_elem_of_In, list_elem_of_lookup in Hin as [n Hn].
    destruct (Forall2_lookup_r _ _ _ _ _ Hds Hn) as (j & Hj & Hget).
    apply list_lookup_fmap_Some in Hj as (i & -> & Hi).
    exists i, d. split; [|done].
    apply elem_of_range. by eapply list_elem_of_lookup_2.
  - intros (i & d & Hi & Hget & Hlt).
    assert (Hin : (4 * (i + 1))%Z
                  ∈ map (fun i => (4 * (i + 1))%Z) (range (sensor_capacity env))).
    { apply list_elem_of_fmap. exists i. split; [done|].
      unfold range, range2. apply list_elem_of_fmap.
      exists (Z.to_nat i). split; [lia|]. apply elem_of_seq. lia. }
    apply list_elem_of_lookup in Hin as [n Hn].
    destruct (Forall2_lookup_l _ _ _ _ _ Hds Hn) as (d' & Hd' & Hget').
    assert (d' = d) as -> by congruence.
    exists d. split; [|by apply Rltb_true].
    apply list_elem_of_In. by eapply list_elem_of_lookup_2.
Qed.

Lemma nmac_threshold_witness :
  false = true <->
  exists i d, (0 <= i < sensor_capacity sample_env)%Z
              /\ getitem (obs sample_observed) (4 * (i + 1))%Z = Ret d
              /\ d < 150 / 1000.
Proof. exact (nmac_threshold sample_env sample_observed false nmac_sample). Defined.

Section StandardizerUpdate.
Import Standardizer.



End StandardizerUpdate.


(** ** The removal branch of [n_agents_control] *)

Lemma skip_removal_filter_aux (l : list Aircraft) :
  (no_adjacent_arrived l ->
   skip_removal l = List.filter (fun a => negb (arrival a)) l)
  /\ (forall a, no_adjacent_arrived (a :: l) ->
        skip_removal (a :: l)
        = List.filter (fun a => negb (arrival a)) (a :: l)).
Proof.
  induction l as [|b l [IH1 IH2]].
  - split; [reflexivity|]. intros a _. simpl. by destruct (arrival a).
  - split; [apply IH2|].
    intros a [Hab Hrest]. pose proof Hrest as [_ Hl].
    cbn [skip_removal List.filter]. destruct (arrival a) eqn:Ha; simpl.
    + rewrite (Hab eq_refl). simpl. f_equal. by apply IH1.
    + f_equal. by apply IH2.
Qed.

(** X4.  Without a constant population [n_agents_control] always returns.
    When no two neighbours of the collection have both arrived, what is
    left is the collection without its arrived aircraft, in order. *)
Theorem n_agents_control_removes_isolated (env : Env) (g : RandomState) :
  constant_n_agents env = false ->
  no_adjacent_arrived (aircraft env) ->
  n_agents_control env g
  = Ret (set_aircraft env
           (List.filter (fun a => negb (arrival a)) (aircraft env)), g).
Proof.
  intros Hc Hiso. rewrite n_agents_control_removal by done.
  by rewrite (proj1 (skip_removal_filter_aux (aircraft env))).
Qed.

Lemma n_agents_control_removes_isolated_witness :
  n_agents_control env_one_arrived sample_random
  = Ret (set_aircraft env_one_arrived
           (List.filter (fun a => negb (arrival a))
                        (aircraft env_one_arrived)), sample_random).
Proof.
  apply n_agents_control_removes_isolated; [reflexivity|].
  assert (H : arrival sample_aircraft = false)
    by (apply arrival_false; simpl; lra).
  simpl. repeat split; auto. intros H'. rewrite H in H'. discriminate.
Defined.

(** ** The TD targets of a whole batch *)

(** X8.  When the target network returns one Q-value per row of the batch,
    the targets are computed without error and the target of row [k] is
    [rewards_B[k] + discount * done_B[k] * Q[k]]. *)
Theorem td_targets_formula {feat qactions : Type}
    (target_compute_qactions : Z -> feat -> qactions)
    (target_compute_qvals : feat -> qactions -> list R)
    (obsfeat_fn : list (list R) -> feat) (batch_size : Z) (discount : R)
    (b : DQN.Batch) :
  length (DQN.done_B b) = length (DQN.rewards_B b) ->
  length (DQN.target_qvals target_compute_qactions target_compute_qvals
            obsfeat_fn batch_size b) = length (DQN.rewards_B b) ->
  DQN.qtargets target_compute_qactions target_compute_qvals obsfeat_fn
               batch_size discount b
  = Ret (zip_with Rplus (DQN.rewards_B b)
           (zip_with (fun d q => discount * d * q) (DQN.done_B b)
              (DQN.target_qvals target_compute_qactions target_compute_qvals
                 obsfeat_fn batch_size b))).
Proof. apply qtargets_pointwise. Qed.

Lemma td_targets_formula_witness :
  DQN.qtargets (fun _ (_ : list (list R)) => tt) (fun _ _ => [10; 20])
               (fun o => o) 2 0.5 sample_batch
  = Ret [3 + 0.5 * 1 * 10; 4 + 0.5 * 0 * 20].
Proof.
  apply (td_targets_formula (fun _ (_ : list (list R)) => tt)
           (fun _ _ => [10; 20]) (fun o => o) 2 0.5 sample_batch);
    reflexivity.
Defined.

(** ** Sensor modes other than 'closest' *)

(** X9.  With a sensor mode other than 'closest' (the unimplemented
    'sector' included) no intruder slot is written: the length assertion
    fails unless [sensor_capacity] is zero, in which case the own-state
    block alone is returned. *)
Theorem get_observation_other_modes (env : Env) (self : Aircraft) :
  sensor_mode env <> "closest" ->
  (sensor_capacity env <> 0%Z ->
   get_observation env self = Raise AssertionError)
  /\ (sensor_capacity env = 0%Z ->
      get_observation env self = Ret (own_obs self)).
Proof.
  intros Hmode.
  assert (Hrun : get_observation env self
                 = (_ ← assert (4 =? 4 + 4 * sensor_capacity env)%Z;
                    Ret (own_obs self))).
  { unfold get_observation.
    destruct (String.eqb (sensor_mode env) "sector"); [reflexivity|].
    destruct (String.eqb_spec (sensor_mode env) "closest"); [done|].
    reflexivity. }
  rewrite Hrun. split; intros Hk.
  - destruct (Z.eqb_spec 4 (4 + 4 * sensor_capacity env)); [lia|].
    reflexivity.
  - rewrite Hk. reflexivity.
Qed.

Lemma get_observation_other_modes_witness :
  get_observation env_sector sample_aircraft = Raise AssertionError.
Proof.
  apply (get_observation_other_modes env_sector sample_aircraft);
    discriminate.
Defined.

(** ** What [step] returns, and when it raises *)

(** The dynamics loop over the first [m] aircraft, for [m] at most the
    number of aircraft and of action pairs. *)
Lemma apply_loop_returns (acs : list Aircraft) (act_vec : list (list R))
    (m : nat) :
  (m <= length acs)%nat -> (m <= length act_vec)%nat ->
  Forall (fun row => length row = 2%nat) act_vec ->
  exists acs',
    for_each (range (Z.of_nat m))
      (fun i acs =>
         a ← getitem acs i;
         act ← getitem act_vec i;
         a' ← apply_action a act;
         setitem acs i a')
      acs
    = Ret acs'
    /\ length acs' = length acs.
Proof.
  intros Hm Hm' Hrow.
  apply (for_each_range_ind
           (fun (_ : nat) (l : list Aircraft) => length l = length acs));
    [reflexivity|].
  intros i acs1 Hi Hlen.
  destruct (getitem_total acs1 (Z.of_nat i)) as [a Ha]; [lia|].
  destruct (getitem_total act_vec (Z.of_nat i)) as [act Hact_i]; [lia|].
  assert (Hact2 : length act = 2%nat).
  { unfold getitem in Hact_i. rewrite py_index_of_nat in Hact_i by lia.
    simpl in Hact_i.
    destruct (act_vec !! i) as [row|] eqn:Ei; [|discriminate].
    injection Hact_i as <-.
    rewrite Forall_forall in Hrow. apply Hrow.
    eapply list_elem_of_lookup_2, Ei. }
  destruct (apply_action_total a act Hact2) as [a' Ha'].
  rewrite Ha, bind_Ret, Hact_i, bind_Ret, Ha', bind_Ret.
  rewrite setitem_of_nat by lia.
  eexists. split; [reflexivity|]. by rewrite length_insert.
Qed.

Lemma getitem_out_of_range {A : Type} (arr : list A) :
  getitem arr (Z.of_nat (length arr)) = Raise IndexError.
Proof.
  unfold getitem, py_index.
  destruct (Z.leb_spec 0 (Z.of_nat (length arr))); [|lia].
  destruct (Z.ltb_spec (Z.of_nat (length arr)) (Z.of_nat (length arr)));
    [lia|].
  destruct (Z.ltb_spec (Z.of_nat (length arr)) 0); [lia|].
  rewrite !andb_false_r. reflexivity.
Qed.

Lemma range_split (m n : nat) :
  (m < n)%nat ->
  range (Z.of_nat n)
  = range (Z.of_nat m) ++ Z.of_nat m :: range2 (Z.of_nat m + 1) (Z.of_nat n).
Proof.
  intros Hmn. unfold range.
  induction m as [|m IH].
  - simpl. rewrite range2_cons by lia. reflexivity.
  - rewrite IH by lia.
    replace (Z.of_nat (S m)) with (Z.of_nat m + 1)%Z by lia.
    rewrite range2_snoc by lia. rewrite <- app_assoc. simpl.
    f_equal. f_equal. rewrite (range2_cons (Z.of_nat m + 1)) by lia.
    reflexivity.
Qed.

(** X10.  [step] raises [ValueError] when [n_agents] is negative or the
    action array does not hold exactly two entries per configured agent,
    and [IndexError] when the actions fit but the collection holds fewer
    than [n_agents] aircraft. *)
Theorem step_raises (env : Env) (actions : list R) :
  ((n_agents env < 0)%Z
   \/ Z.of_nat (length actions) <> (2 * n_agents env)%Z ->
   step env actions = Raise ValueError)
  /\ (Z.of_nat (length actions) = (2 * n_agents env)%Z ->
      (Z.of_nat (length (aircraft env)) < n_agents env)%Z ->
      step env actions = Raise IndexError).
Proof.
  split.
  - intros H. unfold step.
    destruct (Z.ltb_spec (n_agents env) 0) as [Hneg|Hpos]; [reflexivity|].
    rewrite bind_Ret. unfold np_reshape, ACTION_DIM.
    destruct H as [H|H]; [lia|].
    destruct (Z.eqb_spec (Z.of_nat (length actions)) (n_agents env * 2));
      [lia|].
    reflexivity.
  - intros Hact Hpop. unfold step.
    destruct (Z.ltb_spec (n_agents env) 0) as [Hneg|Hpos]; [lia|].
    rewrite bind_Ret. unfold np_reshape, ACTION_DIM.
    replace (Z.of_nat (length actions) =? n_agents env * 2)%Z with true
      by (symmetry; apply Z.eqb_eq; lia).
    replace (0 <=? n_agents env)%Z with true
      by (symmetry; apply Z.leb_le; lia).
    cbn [andb Z.leb Z.compare]. rewrite bind_Ret.
    change (Z.to_nat 2) with 2%nat.
    set (n := Z.to_nat (n_agents env)).
    set (m := length (aircraft env)).
    destruct (chunks_rows n actions) as [Hrows Hrow]; [lia|].
    replace (n_agents env) with (Z.of_nat n) at 1 by lia.
    rewrite (range_split m n) by lia.
    rewrite for_each_app.
    destruct (apply_loop_returns (aircraft env) (chunks n 2 actions) m)
      as (acs' & Hrun & Hlen); [lia|lia|done|].
    rewrite Hrun, bind_Ret. cbn [for_each].
    replace (Z.of_nat m) with (Z.of_nat (length acs')) by lia.
    rewrite getitem_out_of_range. reflexivity.
Qed.

Lemma step_returns_shapes (env : Env) (actions : list R) (n : nat) :
  n_agents env = Z.of_nat n ->
  (n <= length (aircraft env))%nat ->
  length actions = (2 * n)%nat ->
  sensor_mode env = "closest" ->
  (0 <= sensor_capacity env)%Z ->
  render_option env = false ->
  exists r env',
    step env actions = Ret (r, env')
    /\ length (step_obs r) = n
    /\ length (step_rewards r) = n
    /\ (forall j a, (j < n)%nat -> aircraft env' !! j = Some a ->
          step_obs r !! j = Some (obs a)
          /\ Z.of_nat (length (obs a)) = (4 + 4 * sensor_capacity env)%Z)
    /\ (_reward_mech env <> "local" ->
        exists mean, step_rewards r = repeat mean n)
    /\ t env' = (t env + 1)%Z
    /\ length (aircraft env') = length (aircraft env)
    /\ training_mode env' = training_mode env
    /\ circle_radius env' = circle_radius env.
Proof.
  intros Hn Hpop Hact Hmode Hk Hrender. unfold step. rewrite Hn.
  destruct (Z.ltb_spec (Z.of_nat n) 0) as [|_]; [lia|]. rewrite bind_Ret.
  destruct (chunks_rows n actions Hact) as [Hrows Hrow].
  unfold np_reshape, ACTION_DIM.
  replace (Z.of_nat (length actions) =? Z.of_nat n * 2)%Z with true
    by (symmetry; apply Z.eqb_eq; lia).
  replace (0 <=? Z.of_nat n)%Z with true by (symmetry; apply Z.leb_le; lia).
  cbn [andb Z.leb Z.compare]. rewrite bind_Ret, Nat2Z.id.
  change (Z.to_nat 2) with 2%nat.
  destruct (apply_loop_returns (aircraft env) (chunks n 2 actions) n)
    as (acs & -> & Hlen); [lia|lia|done|].
  rewrite bind_Ret.
  edestruct (for_each_range_ind
    (fun (i : nat) (s : list Aircraft * list (list R)) =>
       length s.1 = length (aircraft env)
       /\ length s.2 = i
       /\ forall j a, (j < i)%nat -> s.1 !! j = Some a ->
            s.2 !! j = Some (obs a)
            /\ Z.of_nat (length (obs a)) = (4 + 4 * sensor_capacity env)%Z))
    as ([acs' o] & -> & Hlen' & Ho & Hobs);
    [split; [exact Hlen | split; [reflexivity | intros; lia]] | |].
  { intros i [acs1 o1] Hi (Hlen1 & Ho1 & Hobs1). simpl in Hlen1, Ho1, Hobs1.
    destruct (getitem_total acs1 (Z.of_nat i)) as [a Ha]; [lia|].
    destruct (get_observation_closest_spec (set_aircraft env acs1) a)
      as (agent_obs & _ & Hrun & Hobs_len & _); [done..|].
    rewrite Ha, bind_Ret, Hrun, bind_Ret.
    rewrite setitem_of_nat by lia. rewrite bind_Ret.
    eexists. split; [reflexivity|]. simpl.
    split; [by rewrite length_insert|].
    split; [rewrite length_app; simpl; lia|].
    intros j b Hj Hb. destruct (decide (j = i)) as [->|Hne].
    - rewrite list_lookup_insert_eq in Hb by lia.
      injection Hb as <-. simpl. split; [|exact Hobs_len].
      rewrite lookup_app_r by lia.
      replace (i - length o1)%nat with 0%nat by lia. reflexivity.
    - rewrite list_lookup_insert_ne in Hb by done.
      destruct (Hobs1 j b) as [Hj1 Hj2]; [lia|done|].
      split; [|done]. by apply lookup_app_l_Some. }
  rewrite bind_Ret. simpl in Hlen', Ho, Hobs.
  cbn [render_option set_aircraft]. rewrite Hrender, bind_Ret.
  edestruct (for_each_range_ind
    (fun (_ : nat) (rewards : list R) => length rewards = n))
    as (rewards & -> & Hrew); [by rewrite repeat_length| |].
  { intros i rewards Hi Hrew.
    destruct (getitem_total acs' (Z.of_nat i)) as [a Ha]; [lia|].
    assert (Hlook : acs' !! i = Some a).
    { unfold getitem in Ha. rewrite py_index_of_nat in Ha by lia.
      simpl in Ha. destruct (acs' !! i); [|discriminate]. congruence. }
    destruct (reward_total (set_aircraft env acs') a) as [r Hr];
      [done | by apply (Hobs i a); [lia|] |].
    rewrite Ha, bind_Ret, Hr, bind_Ret.
    rewrite setitem_of_nat by lia.
    eexists. split; [reflexivity|]. by rewrite length_insert. }
  rewrite bind_Ret. cbn [_reward_mech set_t set_aircraft].
  destruct (String.eqb_spec (_reward_mech env) "local") as [Hlocal|Hglobal].
  - eexists _, _. split; [reflexivity|]. simpl.
    split; [done|]. split; [done|]. split; [exact Hobs|]. done.
  - eexists _, _. split; [reflexivity|]. simpl.
    rewrite repeat_length.
    split; [done|]. split; [done|]. split; [exact Hobs|].
    split; [eauto|]. done.
Qed.

(** X11.  With one action pair per configured agent, at least that many
    aircraft, the 'closest' sensor with [k >= 0] slots and rendering off,
    [step] returns one observation of length [4 + 4 k] and one reward per
    configured agent; each observation is also stored in its aircraft;
    and unless the reward mechanism is 'local' every agent receives the
    same reward. *)
Theorem step_result_shapes (env : Env) (actions : list R) (n : nat) :
  n_agents env = Z.of_nat n ->
  (n <= length (aircraft env))%nat ->
  length actions = (2 * n)%nat ->
  sensor_mode env = "closest" ->
  (0 <= sensor_capacity env)%Z ->
  render_option env = false ->
  exists r env',
    step env actions = Ret (r, env')
    /\ length (step_obs r) = n
    /\ length (step_rewards r) = n
    /\ (forall j a, (j < n)%nat -> aircraft env' !! j = Some a ->
          step_obs r !! j = Some (obs a)
          /\ Z.of_nat (length (obs a)) = (4 + 4 * sensor_capacity env)%Z)
    /\ (_reward_mech env <> "local" ->
        exists mean, step_rewards r = repeat mean n).
Proof.
  intros Hn Hpop Hact Hmode Hk Hrender.
  destruct (step_returns_shapes env actions n Hn Hpop Hact Hmode Hk Hrender)
    as (r & env' & H1 & H2 & H3 & H4 & H5 & _).
  exists r, env'. auto.
Qed.

Lemma step_result_shapes_witness :
  exists r env',
    step env_late [0; 0] = Ret (r, env') /\ length (step_obs r) = 1%nat.
Proof.
  assert (Hk : (0 <= sensor_capacity env_late)%Z)
    by (change (sensor_capacity env_late) with 4%Z; lia).
  destruct (step_result_shapes env_late [0; 0] 1)
    as (r & env' & Hstep & Hobs & _);
    [reflexivity | simpl; lia | reflexivity | reflexivity | exact Hk
    | reflexivity |].
  exists r, env'. split; [exact Hstep | exact Hobs].
Defined.

(** ** Freshly constructed aircraft *)

Lemma dist_opposite (r1 r2 c s : R) :
  c ^ 2 + s ^ 2 = 1 ->
  sqrt ((r2 * - s - r1 * s) ^ 2 + (r2 * - c - r1 * c) ^ 2) = Rabs (r1 + r2).
Proof.
  intros Hcs.
  replace ((r2 * - s - r1 * s) ^ 2 + (r2 * - c - r1 * c) ^ 2)
    with ((r1 + r2) ^ 2 * (c ^ 2 + s ^ 2)) by ring.
  rewrite Hcs, Rmult_1_r.
  replace ((r1 + r2) ^ 2) with (Rsqr (r1 + r2)) by (unfold Rsqr; ring).
  apply sqrt_Rsqr_abs.
Qed.

Lemma cos2_sin2 (a : R) : cos a ^ 2 + sin a ^ 2 = 1.
Proof. pose proof (sin2_cos2 a) as H. unfold Rsqr in H. lra. Qed.

Lemma Aircraft_init_spec (env : Env) (g : RandomState) :
  scenario_ready env -> (0 <= sensor_capacity env)%Z ->
  exists a g',
    Aircraft_init env g = Ret (a, g')
    /\ v a = 15 /\ turn_rate a = 0
    /\ - PI <= heading a < PI
    /\ dist_to_dest a = sqrt ((dest_y a - y a) ^ 2 + (dest_x a - x a) ^ 2)
    /\ init_dist_to_dest a = dist_to_dest a
    /\ prev_dist_to_dest a = dist_to_dest a
    /\ Z.of_nat (length (obs a)) = (4 + 4 * sensor_capacity env)%Z
    /\ (forall r, training_mode env = "circle" -> circle_radius env = Some r ->
          dist_to_dest a = 2 * Rabs r)
    /\ (training_mode env = "annulus" ->
        (forall n, 0 <= samples g n <= 1) ->
        4000 <= dist_to_dest a <= 8000).
Proof.
  intros Hready Hk. unfold Aircraft_init.
  assert (Hlen : forall o4 : list R, length o4 = 4%nat ->
            Z.of_nat (length (o4 ++ repeat 1%R
                      (Z.to_nat (4 * sensor_capacity env))))
            = (4 + 4 * sensor_capacity env)%Z).
  { intros o4 H4. rewrite length_app, repeat_length, H4. lia. }
  assert (Hassert : forall o4 : list R, length o4 = 4%nat ->
            assert (Z.of_nat (length (o4 ++ repeat 1%R
                      (Z.to_nat (4 * sensor_capacity env))))
                    =? 4 + 4 * sensor_capacity env)%Z = Ret tt).
  { intros o4 H4. rewrite (Hlen o4 H4). by rewrite Z.eqb_refl. }
  destruct Hready as [[Hmode Hr] | [Hmode | Hmode]]; rewrite Hmode;
    simpl String.eqb; cbv iota; unfold random_uniform.
  - destruct (circle_radius env) as [r|] eqn:Hrad; [|done].
    cbv beta iota zeta. rewrite bind_Ret. cbv beta iota.
    rewrite Hassert by reflexivity. rewrite bind_Ret.
    eexists _, _. split; [reflexivity|]. cbn [v turn_rate heading
      dist_to_dest init_dist_to_dest prev_dist_to_dest obs x y dest_x dest_y].
    split; [reflexivity|]. split; [reflexivity|].
    split; [apply norm_angle_bounds|]. split; [reflexivity|].
    split; [reflexivity|]. split; [reflexivity|].
    split; [by apply Hlen|]. split; [|intros; discriminate].
    intros r' _ [= <-]. rewrite neg_cos, neg_sin.
    rewrite dist_opposite by apply cos2_sin2.
    replace (r + r) with (2 * r) by ring.
    rewrite Rabs_mult, (Rabs_pos_eq 2) by lra. reflexivity.
  - cbv beta iota zeta. rewrite bind_Ret. cbv beta iota.
    rewrite Hassert by reflexivity. rewrite bind_Ret.
    eexists _, _. split; [reflexivity|]. cbn [v turn_rate heading
      dist_to_dest init_dist_to_dest prev_dist_to_dest obs x y dest_x dest_y
      samples cursor].
    split; [reflexivity|]. split; [reflexivity|].
    split; [apply norm_angle_bounds|]. split; [reflexivity|].
    split; [reflexivity|]. split; [reflexivity|].
    split; [by apply Hlen|]. split; [intros; discriminate|].
    intros _ Hu. rewrite neg_cos, neg_sin.
    rewrite dist_opposite by apply cos2_sin2.
    unfold INNER_RADIUS, OUTTER_RADIUS.
    pose proof (Hu (cursor g)). pose proof (Hu (S (cursor g))).
    rewrite Rabs_pos_eq by nra. nra.
  - cbv beta iota zeta. rewrite bind_Ret. cbv beta iota.
    rewrite Hassert by reflexivity. rewrite bind_Ret.
    eexists _, _. split; [reflexivity|]. cbn [v turn_rate heading
      dist_to_dest init_dist_to_dest prev_dist_to_dest obs x y dest_x dest_y].
    split; [reflexivity|]. split; [reflexivity|].
    split; [apply norm_angle_bounds|]. split; [reflexivity|].
    split; [reflexivity|]. split; [reflexivity|].
    split; [by apply Hlen|]. split; intros; discriminate.
Qed.

(** X12.  When the scenario attributes are in place and
    [sensor_capacity >= 0], [Aircraft(env)] returns an aircraft at speed
    [MIN_V] with zero turn rate, a heading in [[-pi, pi)], an observation
    of length [4 + 4 k], and its three distance attributes equal to its
    Euclidean distance to the destination.  In the circle scenario that
    distance is twice the circle radius, in the annulus scenario (with
    [random.random()] in [[0, 1]]) it lies in [[4000, 8000]]; so in both
    the new aircraft has not arrived (for a radius of at least 50). *)
Theorem fresh_aircraft (env : Env) (g : RandomState) :
  scenario_ready env -> (0 <= sensor_capacity env)%Z ->
  exists a g',
    Aircraft_init env g = Ret (a, g')
    /\ v a = 15 /\ turn_rate a = 0
    /\ - PI <= heading a < PI
    /\ dist_to_dest a = sqrt ((dest_y a - y a) ^ 2 + (dest_x a - x a) ^ 2)
    /\ init_dist_to_dest a = dist_to_dest a
    /\ prev_dist_to_dest a = dist_to_dest a
    /\ Z.of_nat (length (obs a)) = (4 + 4 * sensor_capacity env)%Z
    /\ (forall r, training_mode env = "circle" -> circle_radius env = Some r ->
          dist_to_dest a = 2 * Rabs r
          /\ (50 <= Rabs r -> arrival a = false))
    /\ (training_mode env = "annulus" ->
        (forall n, 0 <= samples g n <= 1) ->
        4000 <= dist_to_dest a <= 8000 /\ arrival a = false).
Proof.
  intros Hready Hk.
  destruct (Aircraft_init_spec env g Hready Hk)
    as (a & g' & Hrun & Hv & Ht & Hh & Hd & Hi & Hp & Ho & Hc & Ha).
  exists a, g'. repeat (split; [assumption|]). split.
  - intros r Hmode Hrad. pose proof (Hc r Hmode Hrad) as Hdist.
    split; [exact Hdist|]. intros Hr. apply arrival_false. lra.
  - intros Hmode Hu. pose proof (Ha Hmode Hu) as Hdist.
    split; [exact Hdist|]. apply arrival_false. lra.
Qed.

Lemma fresh_aircraft_witness :
  exists a g',
    Aircraft_init env_constant sample_random = Ret (a, g') /\ v a = 15.
Proof.
  destruct (fresh_aircraft env_constant sample_random)
    as (a & g' & Hrun & Hv & _).
  - right. right. reflexivity.
  - change (sensor_capacity env_constant) with 4%Z. lia.
  - exists a, g'. split; [exact Hrun | exact Hv].
Defined.

(** ** Resetting the environment *)

Lemma py_int_choice (u : R) (len : nat) :
  0 <= u < 1 -> (0 < len)%nat ->
  (0 <= py_int (u * INR len) < Z.of_nat len)%Z.
Proof.
  intros Hu Hlen. unfold py_int.
  assert (Hl : 0 < INR len) by (apply lt_0_INR; lia).
  destruct (Rle_dec 0 (u * INR len)) as [_|Hneg]; [|nra].
  destruct (Zfloor_bound (u * INR len)) as [Hlo Hhi]. split.
  - apply Zfloor_lub. simpl. nra.
  - apply lt_IZR. rewrite <- INR_IZR_INZ. nra.
Qed.

Lemma random_choice_total {A : Type} (seq : list A) (g : RandomState) :
  seq <> [] -> 0 <= samples g (cursor g) < 1 ->
  exists a,
    random_choice seq g
    = Ret (a, {| samples := samples g; cursor := S (cursor g) |})
    /\ getitem seq (py_int (samples g (cursor g) * INR (length seq))) = Ret a.
Proof.
  intros Hne Hu. unfold random_choice.
  destruct (getitem_total seq
              (py_int (samples g (cursor g) * INR (length seq))))
    as [a Ha].
  - apply py_int_choice; [done|]. destruct seq; [done|simpl; lia].
  - exists a. by rewrite Ha.
Qed.

Lemma length_range2 (lo hi : Z) : length (range2 lo hi) = Z.to_nat (hi - lo).
Proof. unfold range2. by rewrite length_map, length_seq. Qed.

Lemma getitem_range2 (lo hi i r : Z) :
  getitem (range2 lo hi) i = Ret r -> (0 <= i)%Z ->
  (lo <= r < hi)%Z.
Proof.
  unfold getitem. intros H Hi. apply bind_inv in H as (k & Hk & H).
  destruct (range2 lo hi !! k) as [r'|] eqn:E; [|discriminate].
  injection H as <-. unfold range2 in E.
  apply list_lookup_fmap_Some in E as (j & -> & Hj).
  apply lookup_seq in Hj as [-> Hlt]. lia.
Qed.

Lemma getitem_elem_of {A : Type} (arr : list A) (i : Z) (a : A) :
  getitem arr i = Ret a -> a ∈ arr.
Proof.
  unfold getitem. intros H. apply bind_inv in H as (k & _ & H).
  destruct (arr !! k) eqn:E; [|discriminate]. injection H as <-.
  by eapply list_elem_of_lookup_2.
Qed.

(** The population loop of [reset]. *)
Lemma populate_loop (env : Env) (g : RandomState) (n : nat) :
  scenario_ready env -> (0 <= sensor_capacity env)%Z ->
  exists acs g',
    for_each (range (Z.of_nat n)) (populate_body env) ([], g) = Ret (acs, g')
    /\ length acs = n.
Proof.
  intros Hready Hk.
  destruct (for_each_range_ind
    (fun (i : nat) (s : list Aircraft * RandomState) => length s.1 = i)
    (populate_body env) n ([], g)) as ([acs g'] & Hrun & Hlen).
  - reflexivity.
  - intros i [acs1 g1] _ Hlen1. simpl in Hlen1. unfold populate_body.
    destruct (Aircraft_init_total (set_aircraft env acs1) g1)
      as (a & g2 & Hinit); [done..|].
    rewrite Hinit, bind_Ret. eexists. split; [reflexivity|]. simpl.
    rewrite length_app. simpl. lia.
  - by exists acs, g'.
Qed.

(** X13.  With [n_agents = n >= 0], the 'closest' sensor with [k >= 0]
    slots, rendering off and [random.random()] in [[0, 1)], [reset]
    returns [n] observations of length [4 + 4 k] and leaves a collection
    of [n] aircraft.  The training scenario is redrawn among the three
    scenarios whatever it was, with a circle radius in [[3000, 4000)]
    when it is 'circle'.  The clock is not set back: it is one more than
    before the reset. *)
Theorem reset_populates (env : Env) (g : RandomState) (n : nat) :
  n_agents env = Z.of_nat n ->
  sensor_mode env = "closest" ->
  (0 <= sensor_capacity env)%Z ->
  render_option env = false ->
  (forall i, 0 <= samples g i < 1) ->
  exists observations env' g',
    reset env g = Ret (observations, env', g')
    /\ length observations = n
    /\ Forall (fun o => Z.of_nat (length o) = (4 + 4 * sensor_capacity env)%Z)
              observations
    /\ length (aircraft env') = n
    /\ t env' = (t env + 1)%Z
    /\ training_mode env' ∈ TRAINING_SCENARIOS
    /\ (training_mode env' = "circle" ->
        exists r : Z, circle_radius env' = Some (IZR r)
                      /\ (3000 <= r < 4000)%Z).
Proof.
  intros Hn Hmode Hk Hrender Hu. unfold reset.
  destruct (random_choice_total TRAINING_SCENARIOS g)
    as (mode & Hchoice & Hget); [done | apply Hu |].
  rewrite Hchoice, bind_Ret. apply getitem_elem_of in Hget.
  set (g1 := {| samples := samples g; cursor := S (cursor g) |}) in *.
  set (env1 := set_training_mode (set_aircraft env []) mode).
  assert (Hscen : exists env2 g2,
    (if String.eqb (training_mode env1) "circle"
     then '(r, g0) ← random_choice
                        (range2 MIN_CIRCLE_RADIUS MAX_CIRCLE_RADIUS) g1;
          Ret (set_circle_radius env1 (IZR r), g0)
     else Ret (env1, g1)) = Ret (env2, g2)
    /\ scenario_ready env2
    /\ n_agents env2 = n_agents env /\ sensor_mode env2 = sensor_mode env
    /\ sensor_capacity env2 = sensor_capacity env
    /\ render_option env2 = render_option env /\ t env2 = t env
    /\ training_mode env2 = mode
    /\ (mode = "circle" ->
        exists r : Z, circle_radius env2 = Some (IZR r)
                      /\ (3000 <= r < 4000)%Z)).
  { destruct (String.eqb_spec (training_mode env1) "circle") as [Hc|Hc].
    - destruct (random_choice_total
                  (range2 MIN_CIRCLE_RADIUS MAX_CIRCLE_RADIUS) g1)
        as (r & Hchoice_r & Hget_r); [done | apply Hu |].
      rewrite Hchoice_r, bind_Ret.
      eexists _, _. split; [reflexivity|].
      split; [left; split; [exact Hc | discriminate]|].
      repeat (split; [reflexivity|]).
      intros _. exists r. split; [reflexivity|].
      apply getitem_range2 in Hget_r; [exact Hget_r|].
      apply py_int_choice; [apply Hu|].
      rewrite length_range2. unfold MIN_CIRCLE_RADIUS, MAX_CIRCLE_RADIUS. lia.
    - eexists _, _. split; [reflexivity|].
      split.
      { simpl in Hc. unfold TRAINING_SCENARIOS in Hget.
        rewrite !elem_of_cons in Hget.
        destruct Hget as [->|[->|[->|Hnil]]]; [done| | |].
        - right. left. reflexivity.
        - right. right. reflexivity.
        - by apply elem_of_nil in Hnil. }
      repeat (split; [reflexivity|]). intros Hm. exfalso. apply Hc. exact Hm. }
  destruct Hscen as (env2 & g2 & -> & Hready & Hn2 & Hmode2 & Hk2 & Hrender2
                     & Ht2 & Hmode_res & Hcircle).
  rewrite bind_Ret, Hn2, Hn.
  destruct (populate_loop env2 g2 n) as (acs & g3 & Hpop & Hlen);
    [done | by rewrite Hk2 |].
  rewrite Hpop, bind_Ret.
  destruct (step_returns_shapes (set_aircraft env2 acs)
              (repeat 0 (Z.to_nat (2 * Z.of_nat n))) n)
    as (r & env' & Hstep & Hobs_len & _ & Hobs & _ & Ht & Hpop' & Hmode'
        & Hrad').
  { simpl. congruence. }
  { simpl. lia. }
  { rewrite repeat_length. lia. }
  { simpl. congruence. }
  { simpl. by rewrite Hk2. }
  { simpl. congruence. }
  cbn [n_agents set_aircraft]. rewrite Hn2, Hn, Hstep, bind_Ret.
  exists (step_obs r), env', g3. split; [reflexivity|].
  simpl in Ht, Hpop', Hmode', Hrad', Hobs.
  split; [exact Hobs_len|]. split.
  { apply Forall_forall. intros o Ho.
    apply list_elem_of_lookup in Ho as [j Hj].
    pose proof (lookup_lt_Some _ _ _ Hj) as Hjn.
    destruct (lookup_lt_is_Some_2 (aircraft env') j) as [a Ha]; [lia|].
    destruct (Hobs j a) as [Hoa Hlen_a]; [lia|done|].
    rewrite Hk2 in Hlen_a. congruence. }
  split; [lia|]. split; [lia|]. split; [congruence|].
  intros Hc. rewrite Hrad'. apply Hcircle. congruence.
Qed.

Lemma sample_random_unit (i : nat) : 0 <= samples sample_random i < 1.
Proof.
  simpl. assert (H : 2 <= INR (i + 2)).
  { rewrite plus_INR. simpl. pose proof (pos_INR i). lra. }
  split.
  - left. apply Rinv_0_lt_compat. lra.
  - rewrite <- Rinv_1. apply Rinv_lt_contravar; lra.
Qed.

Lemma reset_populates_witness :
  exists observations env' g',
    reset env_constant sample_random = Ret (observations, env', g')
    /\ length observations = 2%nat.
Proof.
  destruct (reset_populates env_constant sample_random 2)
    as (observations & env' & g' & Hrun & Hlen & _).
  - reflexivity.
  - reflexivity.
  - change (sensor_capacity env_constant) with 4%Z. lia.
  - reflexivity.
  - exact sample_random_unit.
  - exists observations, env', g'. split; [exact Hrun | exact Hlen].
Defined.

(** ** One step of the dynamics *)

Lemma norm_triangle (a b a' b' : R) :
  Rabs (sqrt (a ^ 2 + b ^ 2) - sqrt (a' ^ 2 + b' ^ 2))
  <= sqrt ((a - a') ^ 2 + (b - b') ^ 2).
Proof.
  set (P := sqrt (a ^ 2 + b ^ 2)). set (Q := sqrt (a' ^ 2 + b' ^ 2)).
  set (D := sqrt ((a - a') ^ 2 + (b - b') ^ 2)).
  assert (HP : 0 <= P) by apply sqrt_pos.
  assert (HQ : 0 <= Q) by apply sqrt_pos.
  assert (HD : 0 <= D) by apply sqrt_pos.
  assert (HP2 : P * P = a ^ 2 + b ^ 2)
    by (apply sqrt_sqrt; apply Rplus_le_le_0_compat; apply pow2_ge_0).
  assert (HQ2 : Q * Q = a' ^ 2 + b' ^ 2)
    by (apply sqrt_sqrt; apply Rplus_le_le_0_compat; apply pow2_ge_0).
  assert (HD2 : D * D = (a - a') ^ 2 + (b - b') ^ 2)
    by (apply sqrt_sqrt; apply Rplus_le_le_0_compat; apply pow2_ge_0).
  assert (Hcs : a * a' + b * b' <= P * Q).
  { destruct (Rle_dec (a * a' + b * b') 0) as [Hneg|Hpos]; [nra|].
    apply Rnot_le_lt in Hpos.
    assert (Hsq : (a * a' + b * b') * (a * a' + b * b')
                  <= (P * Q) * (P * Q)).
    { replace (P * Q * (P * Q)) with ((P * P) * (Q * Q)) by ring.
      rewrite HP2, HQ2.
      apply Rminus_le.
      replace ((a * a' + b * b') * (a * a' + b * b')
               - (a ^ 2 + b ^ 2) * (a' ^ 2 + b' ^ 2))
        with (- (a * b' - a' * b) ^ 2) by ring.
      pose proof (pow2_ge_0 (a * b' - a' * b)). lra. }
    destruct (Rle_dec (a * a' + b * b') (P * Q)) as [|Hgt]; [done|].
    apply Rnot_le_lt in Hgt.
    assert (HPQ : 0 <= P * Q) by (by apply Rmult_le_pos).
    assert (0 < (a * a' + b * b' - P * Q) * (a * a' + b * b' + P * Q))
      by (apply Rmult_lt_0_compat; lra).
    lra. }
  assert (Hsq : (P - Q) * (P - Q) <= D * D).
  { rewrite HD2.
    replace ((a - a') ^ 2 + (b - b') ^ 2)
      with ((a ^ 2 + b ^ 2) + (a' ^ 2 + b' ^ 2) - 2 * (a * a' + b * b'))
      by ring.
    rewrite <- HP2, <- HQ2. lra. }
  assert (Hle : Rabs (P - Q) * Rabs (P - Q) <= D * D).
  { replace (Rabs (P - Q) * Rabs (P - Q)) with ((P - Q) * (P - Q)); [done|].
    rewrite <- Rabs_mult. symmetry. apply Rabs_pos_eq.
    apply Rle_0_sqr. }
  pose proof (Rabs_pos (P - Q)) as Habs.
  destruct (Rle_dec (Rabs (P - Q)) D) as [|Hgt]; [done|].
  apply Rnot_le_lt in Hgt.
  assert (0 < (Rabs (P - Q) - D) * (Rabs (P - Q) + D))
    by (apply Rmult_lt_0_compat; lra).
  lra.
Qed.

Lemma apply_action_step (self : Aircraft) (action : list R) :
  (2 <= length action)%nat -> consistent self ->
  exists self',
    apply_action self action = Ret self'
    /\ consistent self'
    /\ (x self' - x self) ^ 2 + (y self' - y self) ^ 2 = v self' ^ 2
    /\ prev_dist_to_dest self' = dist_to_dest self
    /\ Rabs (prev_dist_to_dest self' - dist_to_dest self') <= v self'
    /\ dest_x self' = dest_x self /\ dest_y self' = dest_y self
    /\ init_dist_to_dest self' = init_dist_to_dest self
    /\ obs self' = obs self.
Proof.
  intros Hlen [Hv Hd].
  destruct action as [|a0 [|a1 rest]]; simpl in Hlen; try lia.
  unfold apply_action.
  change ACTION_IND_ACC with (Z.of_nat 0).
  change ACTION_IND_TURN with (Z.of_nat 1).
  rewrite (getitem_of_nat _ 0 a0), (getitem_of_nat _ 1 a1) by reflexivity.
  rewrite !bind_Ret. eexists. split; [reflexivity|].
  cbn [v x y dest_x dest_y dist_to_dest prev_dist_to_dest
       init_dist_to_dest obs].
  unfold DT. rewrite !Rmult_1_r.
  set (v' := np_clip (v self + MAX_ACC * a0) MIN_V MAX_V).
  set (h' := norm_angle (heading self + MAX_TURN_RATE * a1)).
  assert (Hv' : 15 <= v' <= 45)
    by (apply (np_clip_bounds _ 15 45); lra).
  pose proof (cos2_sin2 h') as Hcs.
  assert (Hmove : (x self + cos h' * v' - x self) ^ 2
                  + (y self + sin h' * v' - y self) ^ 2 = v' ^ 2).
  { replace ((x self + cos h' * v' - x self) ^ 2
             + (y self + sin h' * v' - y self) ^ 2)
      with (v' ^ 2 * (cos h' ^ 2 + sin h' ^ 2)) by ring.
    rewrite Hcs. ring. }
  split; [split; [exact Hv' | reflexivity]|].
  split; [exact Hmove|]. split; [reflexivity|].
  split; [|repeat split].
  rewrite Hd.
  pose proof (norm_triangle (dest_y self - y self) (dest_x self - x self)
                (dest_y self - (y self + sin h' * v'))
                (dest_x self - (x self + cos h' * v'))) as Htri.
  replace (sqrt ((dest_y self - y self - (dest_y self - (y self + sin h' * v'))) ^ 2
                 + (dest_x self - x self - (dest_x self - (x self + cos h' * v'))) ^ 2))
    with v' in Htri; [exact Htri|].
  symmetry. replace ((dest_y self - y self - (dest_y self - (y self + sin h' * v'))) ^ 2
                 + (dest_x self - x self - (dest_x self - (x self + cos h' * v'))) ^ 2)
    with (Rsqr v' * (cos h' ^ 2 + sin h' ^ 2)) by (unfold Rsqr; ring).
  rewrite Hcs, Rmult_1_r. apply sqrt_Rsqr. lra.
Qed.

(** X15.  On an aircraft whose speed is within [[15, 45]] and whose
    stored distance is its Euclidean distance to the destination,
    [apply_action] keeps both facts, moves the position by exactly the
    new speed, stores the old distance as [prev_dist_to_dest], and
    changes the distance to the destination by at most the new speed;
    the destination, the initial distance and the observation are left
    as they are. *)
Theorem apply_action_moves_by_speed (self : Aircraft) (action : list R) :
  (2 <= length action)%nat -> consistent self ->
  exists self',
    apply_action self action = Ret self'
    /\ consistent self'
    /\ (x self' - x self) ^ 2 + (y self' - y self) ^ 2 = v self' ^ 2
    /\ prev_dist_to_dest self' = dist_to_dest self
    /\ Rabs (prev_dist_to_dest self' - dist_to_dest self') <= v self'
    /\ dest_x self' = dest_x self /\ dest_y self' = dest_y self
    /\ init_dist_to_dest self' = init_dist_to_dest self
    /\ obs self' = obs self.
Proof. apply apply_action_step. Qed.

Lemma apply_action_moves_by_speed_witness :
  exists self',
    apply_action consistent_aircraft [1; 0] = Ret self' /\ consistent self'.
Proof.
  destruct (apply_action_moves_by_speed consistent_aircraft [1; 0])
    as (self' & Hrun & Hc & _).
  - simpl. lia.
  - split; simpl; [lra|].
    match goal with |- _ = sqrt ?e => replace e with 0 by ring end.
    symmetry. apply sqrt_0.
  - exists self'. split; [exact Hrun | exact Hc].
Defined.

(** ** Normalised observations *)

Lemma norm_angle_over_pi (angle : R) : -1 <= norm_angle angle / PI < 1.
Proof.
  pose proof PI_RGT_0 as Hpi. destruct (norm_angle_bounds angle) as [Hlo Hhi].
  split.
  - apply (Rmult_le_reg_r PI); [done|]. unfold Rdiv.
    rewrite Rmult_assoc, Rinv_l by lra. lra.
  - apply (Rmult_lt_reg_r PI); [done|]. unfold Rdiv.
    rewrite Rmult_assoc, Rinv_l by lra. lra.
Qed.

Lemma get_pairwise_obs_normalized (self intruder : Aircraft) :
  0 < agent_dist self intruder <= SENSING_RANGE ->
  0 <= v intruder <= 45 ->
  normalized_block (get_pairwise_obs self intruder).
Proof.
  intros Hd Hv. unfold get_pairwise_obs, SENSING_RANGE, MAX_V in *.
  eexists _, _, _, _. split; [reflexivity|].
  split; [lra|].
  split; [|split].
  - pose proof (norm_angle_over_pi
      (atan2 (y intruder - y self) (x intruder - x self) - heading self)).
    lra.
  - pose proof (norm_angle_over_pi (heading intruder - heading self)). lra.
  - lra.
Qed.

Lemma sentinel_normalized : normalized_block TERM_PAIRWISE_OBS.
Proof.
  exists 1, 1, 1, 1. split; [reflexivity|]. repeat split; lra.
Qed.

(** X14.  In 'closest' mode with [k >= 0] slots and every speed in the
    environment within [[0, 45]], the observation is the own-state block
    followed by exactly [k] sensor blocks, each with a distance entry in
    (0, 1], bearing and heading-difference entries in [[-1, 1]] and a
    speed entry in [[0, 1]]. *)
Theorem observation_blocks_normalized (env : Env) (self : Aircraft) :
  sensor_mode env = "closest" -> (0 <= sensor_capacity env)%Z ->
  Forall (fun a => 0 <= v a <= 45) (aircraft env) ->
  exists o blocks,
    get_observation env self = Ret o
    /\ o = own_obs self ++ concat blocks
    /\ length blocks = Z.to_nat (sensor_capacity env)
    /\ Forall normalized_block blocks.
Proof.
  intros Hmode Hk Hv.
  destruct (get_observation_closest_spec env self Hmode Hk)
    as (o & ranked & Hrun & _ & _ & Hin & _ & Ho).
  set (k := Z.to_nat (sensor_capacity env)) in *.
  exists o, (map (get_pairwise_obs self) (take k ranked)
             ++ replicate (k - length ranked) TERM_PAIRWISE_OBS).
  split; [exact Hrun|]. split; [by rewrite concat_app|]. split.
  - rewrite length_app, length_map, length_take, length_replicate. lia.
  - apply Forall_app. split.
    + rewrite Forall_map. apply Forall_forall. intros a Ha.
      apply elem_of_take in Ha as (i & Ha & _).
      apply list_elem_of_lookup_2 in Ha. apply Hin in Ha as [Ha Hd].
      apply get_pairwise_obs_normalized; [exact Hd|].
      rewrite Forall_forall in Hv. by apply Hv.
    + apply Forall_replicate. apply sentinel_normalized.
Qed.

Lemma observation_blocks_normalized_witness :
  exists o blocks,
    get_observation sample_env sample_aircraft = Ret o
    /\ o = own_obs sample_aircraft ++ concat blocks
    /\ length blocks = 4%nat.
Proof.
  destruct (observation_blocks_normalized sample_env sample_aircraft)
    as (o & blocks & Hrun & Ho & Hlen & _).
  - reflexivity.
  - change (sensor_capacity sample_env) with 4%Z. lia.
  - repeat constructor; simpl; lra.
  - exists o, blocks. split; [exact Hrun|]. split; [exact Ho | exact Hlen].
Defined.

(** ** The replay memory *)

Section ReplayFacts.
Import Replay.
Context {A : Type}.

(** The last [m] entries of a list (all of it when it is shorter). *)
Lemma remember_suffix (memory : list A) (entry : A) (m : Z) :
  (1 <= m)%Z ->
  remember memory entry m
  = drop (length memory + 1 - Z.to_nat m) (memory ++ [entry]).
Proof.
  intros Hm. unfold remember, py_slice_from.
  destruct (Z.ltb_spec (- m) 0); [|lia].
  f_equal. rewrite length_app. simpl. lia.
Qed.

Lemma drop_snoc_le (l : list A) (e : A) (k : nat) :
  (k <= length l)%nat -> drop k l ++ [e] = drop k (l ++ [e]).
Proof. intros Hk. by rewrite drop_app_le. Qed.

Lemma suffix_snoc (l : list A) (e : A) (M : nat) :
  (1 <= M)%nat ->
  drop (length (drop (length l - M) l) + 1 - M) (drop (length l - M) l ++ [e])
  = drop (length l + 1 - M) (l ++ [e]).
Proof.
  intros HM. rewrite drop_snoc_le by lia.
  rewrite drop_drop, length_drop. f_equal. lia.
Qed.

Lemma remember_all (memory entries : list A) (m : Z) :
  (1 <= m)%Z -> entries <> [] ->
  foldl (fun mem e => remember mem e m) memory entries
  = drop (length (memory ++ entries) - Z.to_nat m) (memory ++ entries).
Proof.
  intros Hm.
  induction entries as [|e es IH] using rev_ind; intros Hne; [done|].
  rewrite foldl_app. simpl. rewrite remember_suffix by done.
  destruct (decide (es = [])) as [->|Hes].
  - simpl. f_equal. rewrite length_app. simpl. lia.
  - rewrite IH by done. rewrite suffix_snoc by lia.
    rewrite app_assoc. f_equal. rewrite !length_app. simpl. lia.
Qed.

(** X17.  With [max_experience_size >= 1], storing entries one by one
    leaves exactly the most recent [max_experience_size] of everything
    stored so far, in insertion order (all of it while there are fewer).
    With [max_experience_size = 0] the slice is [memory[-0:]], the whole
    list: nothing is ever evicted. *)
Theorem replay_memory_eviction (memory entries : list A) (m : Z) :
  ((1 <= m)%Z -> entries <> [] ->
   exists evicted,
     memory ++ entries
     = evicted ++ foldl (fun mem e => remember mem e m) memory entries
     /\ length (foldl (fun mem e => remember mem e m) memory entries)
        = (length (memory ++ entries) `min` Z.to_nat m)%nat)
  /\ foldl (fun mem e => remember mem e 0) memory entries = memory ++ entries.
Proof.
  split.
  - intros Hm Hne. rewrite remember_all by done.
    exists (take (length (memory ++ entries) - Z.to_nat m) (memory ++ entries)).
    split; [by rewrite take_drop|]. rewrite length_drop. lia.
  - revert memory. induction entries as [|e entries IH]; intros memory.
    + simpl. by rewrite app_nil_r.
    + simpl. rewrite IH. unfold remember, py_slice_from.
      change (- 0)%Z with 0%Z. cbn [Z.ltb Z.compare].
      replace (Z.to_nat (Z.min 0 (Z.of_nat (length (memory ++ [e])))))
        with 0%nat by lia.
      rewrite drop_0. by rewrite <- app_assoc.
Qed.

End ReplayFacts.

(** ** The exploration schedule *)

Section ScheduleFacts.
Import Replay.

Lemma update_eps_decay (eps_end eps_fraction : R) (n_iter itr : Z) :
  IZR itr < eps_fraction * IZR n_iter -> 0 <= IZR itr ->
  update_eps eps_end eps_fraction n_iter itr
  = Returns (1 - (1 - eps_end) / (eps_fraction * IZR n_iter) * IZR itr).
Proof.
  intros Hlt Hpos. unfold update_eps.
  rewrite (proj2 (Rltb_true _ _) Hlt).
  destruct (Req_dec_T (eps_fraction * IZR n_iter) 0); [lra | reflexivity].
Qed.

Lemma update_eps_hold (eps_end eps_fraction : R) (n_iter itr : Z) :
  eps_fraction * IZR n_iter <= IZR itr ->
  update_eps eps_end eps_fraction n_iter itr = Returns eps_end.
Proof.
  intros Hge. unfold update_eps.
  by rewrite (proj2 (Rltb_false _ _) Hge).
Qed.

(** X18.  For iterations [itr >= 0], a positive horizon
    [eps_fraction * n_iter] and [eps_end <= 1], the value assigned to
    [eps] is defined (no division by zero), lies in [[eps_end, 1]], is
    [1] at iteration 0 whatever [eps_start] was, decreases linearly and
    never increases with [itr], and is exactly [eps_end] from the horizon
    on. *)
Theorem epsilon_schedule (eps_end eps_fraction : R) (n_iter itr : Z) :
  0 < eps_fraction * IZR n_iter -> eps_end <= 1 -> (0 <= itr)%Z ->
  exists e,
    update_eps eps_end eps_fraction n_iter itr = Returns e
    /\ eps_end <= e <= 1
    /\ (itr = 0%Z -> e = 1)
    /\ (eps_fraction * IZR n_iter <= IZR itr -> e = eps_end)
    /\ forall e', update_eps eps_end eps_fraction n_iter (itr + 1) = Returns e'
                  -> e' <= e.
Proof.
  intros HH Hend Hitr. apply IZR_le in Hitr.
  set (H := eps_fraction * IZR n_iter) in *.
  assert (Hslope : 0 <= (1 - eps_end) / H).
  { apply Rmult_le_pos; [lra|]. left. by apply Rinv_0_lt_compat. }
  assert (Hdecay : forall i : R, 0 <= i -> i < H ->
            eps_end <= 1 - (1 - eps_end) / H * i <= 1).
  { intros i Hi HiH. split; [|nra].
    assert ((1 - eps_end) / H * i <= (1 - eps_end) / H * H) by nra.
    replace ((1 - eps_end) / H * H) with (1 - eps_end) in * by (field; lra).
    lra. }
  destruct (Rlt_dec (IZR itr) H) as [Hlt|Hge].
  - rewrite update_eps_decay by (fold H; lra). eexists. split; [reflexivity|].
    split; [by apply Hdecay|]. split; [intros ->; simpl; lra|].
    split; [lra|].
    intros e' He'.
    destruct (Rlt_dec (IZR itr + 1) H) as [Hlt'|Hge'].
    + rewrite update_eps_decay in He' by (fold H; rewrite plus_IZR; lra).
      injection He' as <-. rewrite plus_IZR. fold H.
      generalize dependent ((1 - eps_end) / H). intros c Hc _. simpl. lra.
    + rewrite update_eps_hold in He' by (fold H; rewrite plus_IZR; lra).
      injection He' as <-. by apply Hdecay.
  - rewrite update_eps_hold by (fold H; lra). exists eps_end.
    split; [reflexivity|]. split; [lra|].
    split; [intros ->; simpl in Hge; lra|]. split; [done|].
    intros e' He'.
    rewrite update_eps_hold in He' by (fold H; rewrite plus_IZR; lra).
    injection He' as <-. lra.
Qed.

Lemma epsilon_schedule_witness :
  exists e, update_eps 0.05 0.5 100 10 = Returns e /\ 0.05 <= e <= 1.
Proof.
  destruct (epsilon_schedule 0.05 0.5 100 10) as (e & Hrun & Hb & _);
    [lra | lra | lia |].
  exists e. split; [exact Hrun | exact Hb].
Defined.

End ScheduleFacts.

(** ** Packing transitions into a batch *)

Lemma filled_step {T : Type} (full : list T) (zero x : T) (p : nat) :
  full !! p = Some x ->
  setitem (filled full zero p) (Z.of_nat p) x = Ret (filled full zero (S p)).
Proof.
  intros Hp. pose proof (lookup_lt_Some _ _ _ Hp) as Hlt.
  unfold filled.
  rewrite setitem_of_nat
    by (rewrite length_app, length_take, repeat_length; lia).
  f_equal.
  replace p with (length (take p full) + 0)%nat at 1
    by (rewrite length_take; lia).
  rewrite insert_app_r.
  replace (length full - p)%nat with (S (length full - S p)) by lia.
  simpl. rewrite (take_S_r _ _ _ Hp), <- app_assoc. reflexivity.
Qed.

Lemma filled_all {T : Type} (full : list T) (zero : T) :
  filled full zero (length full) = full.
Proof.
  unfold filled. rewrite take_ge by lia.
  replace (length full - length full)%nat with 0%nat by lia.
  simpl. by rewrite app_nil_r.
Qed.

Lemma filled_none {T : Type} (full : list T) (zero : T) :
  filled full zero 0 = repeat zero (length full).
Proof. unfold filled. simpl. by rewrite Nat.sub_0_r. Qed.

(** The entry at row [i * n + j] of a concatenation of blocks of [n]
    rows is entry [j] of block [i]. *)
Lemma concat_lookup_uniform {T : Type} (ls : list (list T)) (n i j : nat)
    (l : list T) (x : T) :
  Forall (fun l => length l = n) ls ->
  ls !! i = Some l -> l !! j = Some x ->
  concat ls !! (i * n + j)%nat = Some x.
Proof.
  intros Hall. revert i. induction Hall as [|l0 ls Hl0 _ IH]; intros i Hi Hj.
  - done.
  - destruct i as [|i]; simpl in *.
    + injection Hi as ->. by apply lookup_app_l_Some.
    + rewrite lookup_app_r by lia.
      replace (n + i * n + j - length l0)%nat with (i * n + j)%nat by lia.
      by apply IH.
Qed.

Lemma concat_length_uniform {T : Type} (ls : list (list T)) (n : nat) :
  Forall (fun l => length l = n) ls ->
  length (concat ls) = (length ls * n)%nat.
Proof.
  induction 1 as [|l ls Hl _ IH]; simpl; [reflexivity|].
  rewrite length_app. lia.
Qed.

Section PackFacts.
Import DQN.
Variables (n obs_dim : nat) (trs : list Transition).
Hypothesis Hwf : Forall (wf_transition n obs_dim) trs.

Lemma flat_lengths :
  length (obs_B_Do (flat_batch n trs)) = (length trs * n)%nat
  /\ length (actions_B_Da (flat_batch n trs)) = (length trs * n)%nat
  /\ length (rewards_B (flat_batch n trs)) = (length trs * n)%nat
  /\ length (succ_obs_B_Do (flat_batch n trs)) = (length trs * n)%nat
  /\ length (done_B (flat_batch n trs)) = (length trs * n)%nat.
Proof.
  simpl. repeat split;
    (rewrite (concat_length_uniform _ n); [by rewrite length_map|];
     rewrite Forall_map; eapply Forall_impl; [exact Hwf|]; simpl;
     intros tr (H1 & H2 & H3 & H4 & H5 & H6);
     rewrite ?length_map, ?length_replicate; done).
Qed.

Lemma pack_body_step (i j : nat) (tr : Transition) :
  trs !! i = Some tr -> (j < n)%nat ->
  pack_body (Z.of_nat n) obs_dim (Z.of_nat i) tr (Z.of_nat j)
            (partial_batch n obs_dim trs (i * n + j))
  = Ret (partial_batch n obs_dim trs (S (i * n + j))).
Proof.
  intros Hi Hj.
  pose proof Hwf as Hwf'. rewrite Forall_forall in Hwf'.
  destruct (Hwf' tr) as (H1 & H2 & H3 & H4 & H5 & H6);
    [by eapply list_elem_of_lookup_2|].
  destruct (lookup_lt_is_Some_2 (tr_obs tr) j) as [o Ho]; [lia|].
  destruct (lookup_lt_is_Some_2 (tr_action tr) j) as [a Ha]; [lia|].
  destruct (lookup_lt_is_Some_2 (tr_reward tr) j) as [r Hr]; [lia|].
  destruct (lookup_lt_is_Some_2 (tr_succ_obs tr) j) as [so Hso]; [lia|].
  assert (Ho_len : length o = obs_dim).
  { rewrite Forall_forall in H2. apply H2. by eapply list_elem_of_lookup_2. }
  assert (Hso_len : length so = obs_dim).
  { rewrite Forall_forall in H6. apply H6. by eapply list_elem_of_lookup_2. }
  assert (Hall : forall (T : Type) (f : Transition -> list T),
            (forall tr, wf_transition n obs_dim tr -> length (f tr) = n) ->
            forall x, f tr !! j = Some x ->
            concat (map f trs) !! (i * n + j)%nat = Some x).
  { intros T f Hf x Hx.
    apply (concat_lookup_uniform _ n i j (f tr)); [| |done].
    - rewrite Forall_map. eapply Forall_impl; [exact Hwf|]. exact Hf.
    - by rewrite list_lookup_fmap, Hi. }
  unfold pack_body.
  replace (Z.of_nat i * Z.of_nat n + Z.of_nat j)%Z
    with (Z.of_nat (i * n + j)) by lia.
  rewrite (getitem_of_nat _ _ _ Ho), bind_Ret.
  unfold assign_row. rewrite Ho_len, Nat.eqb_refl, bind_Ret.
  cbn [obs_B_Do actions_B_Da rewards_B succ_obs_B_Do done_B partial_batch].
  rewrite (filled_step _ _ o), bind_Ret
    by (apply (Hall _ tr_obs); [by intros ? (?&?)|done]).
  rewrite (getitem_of_nat _ _ _ Ha), bind_Ret.
  cbn [length Nat.eqb]. rewrite bind_Ret.
  rewrite (filled_step _ _ [a]), bind_Ret
    by (apply (Hall _ (fun tr => map (fun a => [a]) (tr_action tr)));
        [intros ? (?&?&?&?); by rewrite length_map
        |by rewrite list_lookup_fmap, Ha]).
  rewrite (getitem_of_nat _ _ _ Hr), bind_Ret.
  rewrite (filled_step _ _ r), bind_Ret
    by (apply (Hall _ tr_reward); [by intros ? (?&?&?&?&?)|done]).
  rewrite (getitem_of_nat _ _ _ Hso), bind_Ret.
  rewrite Hso_len, Nat.eqb_refl, bind_Ret.
  rewrite (filled_step _ _ so), bind_Ret
    by (apply (Hall _ tr_succ_obs); [by intros ? (?&?&?&?&?&?)|done]).
  rewrite (filled_step _ _ (IZR (tr_done tr))), bind_Ret
    by (apply (Hall _ (fun tr => replicate n (IZR (tr_done tr))));
        [intros; by rewrite length_replicate
        |by apply lookup_replicate_2]).
  reflexivity.
Qed.

Lemma pack_inner_loop (i : nat) (tr : Transition) :
  trs !! i = Some tr ->
  for_each (range (Z.of_nat n))
           (pack_body (Z.of_nat n) obs_dim (Z.of_nat i) tr)
           (partial_batch n obs_dim trs (i * n))
  = Ret (partial_batch n obs_dim trs (S i * n)).
Proof.
  intros Hi.
  destruct (for_each_range_ind
    (fun (j : nat) (b : Batch) => b = partial_batch n obs_dim trs (i * n + j))
    (pack_body (Z.of_nat n) obs_dim (Z.of_nat i) tr) n
    (partial_batch n obs_dim trs (i * n))) as (b & Hrun & ->).
  - by rewrite Nat.add_0_r.
  - intros j b Hj ->. eexists. split; [by apply pack_body_step|].
    f_equal. lia.
  - rewrite Hrun. do 2 f_equal. lia.
Qed.

Lemma pack_outer_loop (i : nat) :
  (i <= length trs)%nat ->
  for_each (enumerate (take i trs))
    (fun '(i, tr) b =>
       for_each (range (Z.of_nat n)) (pack_body (Z.of_nat n) obs_dim i tr) b)
    (partial_batch n obs_dim trs 0)
  = Ret (partial_batch n obs_dim trs (i * n)).
Proof.
  induction i as [|i IH]; intros Hi; [reflexivity|].
  destruct (lookup_lt_is_Some_2 trs i) as [tr Htr]; [lia|].
  rewrite (take_S_r _ _ _ Htr). unfold enumerate in *.
  rewrite imap_app, for_each_app, IH by lia. rewrite bind_Ret.
  simpl. rewrite length_take, Nat.min_l, Nat.add_0_r by lia.
  rewrite pack_inner_loop by done. reflexivity.
Qed.

Lemma pack_into_batch_spec :
  _pack_into_batch (Z.of_nat n) obs_dim trs = Ret (flat_batch n trs).
Proof.
  unfold _pack_into_batch.
  destruct (Z.ltb_spec (Z.of_nat (length trs) * Z.of_nat n) 0); [lia|].
  rewrite bind_Ret.
  replace (Z.to_nat (Z.of_nat (length trs) * Z.of_nat n))
    with (length trs * n)%nat by lia.
  destruct flat_lengths as (L1 & L2 & L3 & L4 & L5).
  assert (Hinit :
    {| obs_B_Do := repeat (repeat 0 obs_dim) (length trs * n);
       actions_B_Da := repeat [0] (length trs * n);
       rewards_B := repeat 0 (length trs * n);
       succ_obs_B_Do := repeat (repeat 0 obs_dim) (length trs * n);
       done_B := repeat 0 (length trs * n) |}
    = partial_batch n obs_dim trs 0).
  { unfold partial_batch. rewrite !filled_none, L1, L2, L3, L4, L5.
    reflexivity. }
  rewrite Hinit.
  rewrite <- (take_ge trs (length trs)) at 1 by lia.
  rewrite pack_outer_loop by lia. f_equal.
  assert (Hfull : forall (T : Type) (full : list T) (zero : T),
            length full = (length trs * n)%nat ->
            filled full zero (length trs * n) = full).
  { intros T full zero <-. apply filled_all. }
  unfold partial_batch.
  rewrite !Hfull by assumption. reflexivity.
Qed.

End PackFacts.

(** X16.  For transitions that hold one item per agent, with
    observations of the width of the observation space,
    [_pack_into_batch] returns the five arrays with one row per
    (transition, agent) pair, in that order: [len(transitions) * n_agents]
    rows, the done flag of a transition repeated for each of its agents. *)
Theorem pack_into_batch_flattens (n obs_dim : nat)
    (trs : list DQN.Transition) :
  Forall (wf_transition n obs_dim) trs ->
  DQN._pack_into_batch (Z.of_nat n) obs_dim trs = Ret (flat_batch n trs)
  /\ length (DQN.obs_B_Do (flat_batch n trs)) = (length trs * n)%nat
  /\ length (DQN.rewards_B (flat_batch n trs)) = (length trs * n)%nat
  /\ length (DQN.done_B (flat_batch n trs)) = (length trs * n)%nat.
Proof.
  intros Hwf. split; [by apply pack_into_batch_spec|].
  destruct (flat_lengths n obs_dim trs Hwf) as (L1 & _ & L3 & _ & L5).
  done.
Qed.

Lemma sample_transitions_wf : Forall (wf_transition 2 2) sample_transitions.
Proof.
  repeat constructor.
Qed.

Lemma pack_into_batch_flattens_witness :
  DQN._pack_into_batch 2 2 sample_transitions
  = Ret (flat_batch 2 sample_transitions).
Proof.
  exact (proj1 (pack_into_batch_flattens 2 2 sample_transitions
                  sample_transitions_wf)).
Defined.

(** ** Running statistics of the standardizer *)

Lemma sum_R_app (l k : list R) : sum_R (l ++ k) = sum_R l + sum_R k.
Proof.
  unfold sum_R. induction l as [|x l IH]; simpl; [lra|]. rewrite IH. lra.
Qed.

Lemma INR_length_pos {T : Type} (l : list T) : l <> [] -> 0 < INR (length l).
Proof.
  destruct l; [done|]. intros _. apply lt_0_INR. simpl. lia.
Qed.

Lemma zip_with_maps {T : Type} (g : R -> R -> R) (f1 f2 : T -> R)
    (l : list T) :
  zip_with g (map f1 l) (map f2 l) = map (fun x => g (f1 x) (f2 x)) l.
Proof. induction l as [|x l IH]; simpl; [reflexivity|]. by rewrite IH. Qed.

(** Merging the means of two non-empty samples with the weights of
    [update] gives the mean of the joint sample. *)
Lemma np_mean_merge (l k : list R) :
  l <> [] -> k <> [] ->
  INR (length l) / (INR (length l) + INR (length k)) * np_mean l
  + (1 - INR (length l) / (INR (length l) + INR (length k))) * np_mean k
  = np_mean (l ++ k).
Proof.
  intros Hl Hk. unfold np_mean.
  rewrite sum_R_app, length_app, plus_INR.
  pose proof (INR_length_pos l Hl). pose proof (INR_length_pos k Hk).
  field. lra.
Qed.

Section StandardizerStatistics.
Import Standardizer.

Lemma update_returns (st : Standardizer) (pts : ndarray2) :
  length (_mean_1_D st) = _dim st -> length (_meansq_1_D st) = _dim st ->
  shape1 pts = _dim st ->
  let a := _count st / (_count st + INR (length (rows pts))) in
  update st pts
  = Ret {| _eps := _eps st; _dim := _dim st;
           _count := _count st + INR (length (rows pts));
           _mean_1_D :=
             zip_with (fun m bm => a * m + (1 - a) * bm)
                      (_mean_1_D st) (col_mean (fun e => e) pts);
           _meansq_1_D :=
             zip_with (fun m bm => a * m + (1 - a) * bm)
                      (_meansq_1_D st) (col_mean (fun e => e ^ 2) pts) |}.
Proof.
  intros Hm Hs Hdim a. unfold update, assert.
  rewrite Hdim, Nat.eqb_refl, bind_Ret.
  unfold get_mean, get_meansq, get_count.
  rewrite !np_binop_same_length by (rewrite col_mean_length; congruence).
  rewrite !bind_Ret. reflexivity.
Qed.

Lemma col_mean_merge (f : R -> R) (data pts : ndarray2) :
  shape1 pts = shape1 data -> rows data <> [] -> rows pts <> [] ->
  let a := INR (length (rows data))
           / (INR (length (rows data)) + INR (length (rows pts))) in
  zip_with (fun m bm => a * m + (1 - a) * bm)
           (col_mean f data) (col_mean f pts)
  = col_mean f (stack data pts).
Proof.
  intros Hdim Hd Hp a. unfold col_mean, stack. cbn [shape1 rows].
  rewrite Hdim, zip_with_maps. apply map_ext. intros j.
  rewrite map_app. subst a.
  rewrite <- (length_map (fun r => f (nth j r 0)) (rows data)).
  rewrite <- (length_map (fun r => f (nth j r 0)) (rows pts)).
  apply np_mean_merge.
  - destruct (rows data); [done | discriminate].
  - destruct (rows pts); [done | discriminate].
Qed.

(** X19.  A standardizer that holds the count, the column means and the
    column mean squares of a non-empty data set holds, after an update
    with a non-empty batch of the same width, those of the data set
    with the batch added: successive updates accumulate the statistics
    of all the points seen. *)
Theorem update_accumulates (st : Standardizer) (data pts : ndarray2) :
  summarises st data -> rows data <> [] ->
  shape1 pts = _dim st -> rows pts <> [] ->
  exists st',
    update st pts = Ret st' /\ summarises st' (stack data pts).
Proof.
  intros (Hdim & Hcount & Hmean & Hmeansq) Hdata Hpts Hrows.
  eexists. split.
  - apply update_returns; [| |exact Hpts].
    + rewrite Hmean, col_mean_length. exact Hdim.
    + rewrite Hmeansq, col_mean_length. exact Hdim.
  - unfold summarises. cbn [_dim _count _mean_1_D _meansq_1_D].
    rewrite Hcount, Hmean, Hmeansq.
    rewrite !col_mean_merge by (congruence || assumption).
    repeat split; [exact Hdim|].
    unfold stack. cbn [rows]. by rewrite length_app, plus_INR.
Qed.

End StandardizerStatistics.

Lemma updated_standardizer_summarises :
  summarises updated_standardizer sample_points.
Proof.
  unfold summarises. simpl. repeat split; lra.
Qed.

Lemma update_accumulates_witness :
  exists st',
    Standardizer.update updated_standardizer sample_points = Ret st'
    /\ summarises st' (stack sample_points sample_points).
Proof.
  apply (update_accumulates updated_standardizer sample_points sample_points).
  - exact updated_standardizer_summarises.
  - discriminate.
  - reflexivity.
  - discriminate.
Defined.

(** ** Before the first reset *)

(** X21.  The constructor never sets [circle_radius]; only [reset] does.
    So on an environment constructed in the 'circle' scenario (the
    default) and not yet reset, [Aircraft(env)] and [render()] raise
    [AttributeError].  On any environment whose training mode is none of
    the three scenarios, [Aircraft(env)] raises [AttributeError] as
    well, the position never being assigned. *)
Theorem before_first_reset (a : InitArgs) (env : Env) (g : RandomState) :
  (arg_training_mode a = "circle" ->
   Aircraft_init (MultiAircraftEnv_init a) g = Raise AttributeError
   /\ render (MultiAircraftEnv_init a) = Raise AttributeError)
  /\ (training_mode env ∉ TRAINING_SCENARIOS ->
      Aircraft_init env g = Raise AttributeError).
Proof.
  split.
  - intros Hmode. unfold Aircraft_init, render. cbn [MultiAircraftEnv_init
      training_mode circle_radius aircraft sensor_capacity].
    rewrite Hmode. split; reflexivity.
  - intros Hmode. unfold Aircraft_init.
    destruct (String.eqb_spec (training_mode env) "circle") as [E|_].
    { exfalso. apply Hmode. rewrite E. unfold TRAINING_SCENARIOS.
      repeat constructor. }
    destruct (String.eqb_spec (training_mode env) "annulus") as [E|_].
    { exfalso. apply Hmode. rewrite E. unfold TRAINING_SCENARIOS.
      repeat constructor. }
    destruct (String.eqb_spec (training_mode env) "square") as [E|_].
    { exfalso. apply Hmode. rewrite E. unfold TRAINING_SCENARIOS.
      repeat constructor. }
    reflexivity.
Qed.
